(** * Sakura Rasa inference server: request pipeline, backend client, throttle

    A shallow embedding of the orchestration code of the inference server:

    - [utils/throttle.py]     the per-identity sliding-window admission check,
    - [utils/http_client.py]  the retrying backend client and its
                              classification of responses,
    - [services/ai_provider.py]  the resolution of the configured provider,
                              the OpenAI provider's error wrapping and the
                              Gemini provider ([Gemini]),
    - [routers/generate.py]   the [create_image] pipeline, [save_image] and
                              the helpers that read the two input images,
    - [services/logger.py]    the audit sink ([log_request]),
    - [main.py]               the middleware stack around the routes.

    Python values are an inductive type, dictionaries are [gmap]s keyed by
    strings, exceptions are values of an error monad that also threads the
    observable state of one request (backend calls issued, delays slept,
    audit records written, files under [media/]).  Everything outside the
    repository (the clock, the environment variables, the backend, the
    image hosts, the providers' remote APIs, the file system) is a field of
    a [World] record, over which every statement quantifies.

    Time is a rational number: [time.time()] returns a float, and the code
    only subtracts, scales and compares readings. *)

From Stdlib Require Import QArith Qround Lqa NArith Ascii.
From Stdlib.Strings Require Import Byte.
From stdpp Require Import gmap strings list pretty.

Set Warnings "-register-all".
#[local] Open Scope Z_scope.

(* ===================================================================== *)
(** ** Python values and exceptions *)
(* ===================================================================== *)

Module Py.

(** What [response.json()] can produce, and what the code builds itself. *)
Inductive value :=
  | VNone
  | VBool (b : bool)
  | VInt (z : Z)
  | VFloat (q : Q)
  | VStr (s : string)
  | VList (l : list value)
  | VDict (d : gmap string value).

(** [bool(v)] *)
Definition truthy (v : value) : bool :=
  match v with
  | VNone => false
  | VBool b => b
  | VInt z => negb (z =? 0)
  | VFloat q => negb (Qeq_bool q 0)
  | VStr s => negb (String.eqb s "")
  | VList l => match l with [] => false | _ => true end
  | VDict d => negb (Nat.eqb (size d) 0)
  end.

(** [a or b] *)
Definition or_ (a b : value) : value := if truthy a then a else b.

(** [v == n] for an [int] literal [n] *)
Definition eq_int (v : value) (n : Z) : bool :=
  match v with
  | VInt z => z =? n
  | VBool b => (if b then 1 else 0) =? n
  | VFloat q => Qeq_bool q (inject_Z n)
  | _ => false
  end.

(** [v == s] for a [str] literal [s] *)
Definition eq_str (v : value) (s : string) : bool :=
  match v with
  | VStr s' => String.eqb s' s
  | _ => false
  end.

(** The [except] clauses of the code tell these classes apart.
    [ClientError] is [aiohttp.ClientError] and its subclasses,
    [TimeoutError] is [asyncio.TimeoutError]; [OtherException] is any
    other subclass of [Exception]. *)
Inductive exn_kind :=
  | ClientError
  | TimeoutError
  | ValueError
  | AttributeError
  | NotImplementedError
  | OSError
  | OtherException.

(** An exception raised by a library or by the world: its class, the
    name of its type and [str(e)]. *)
Record failure := Failure {
  kind : exn_kind;
  type_name : string;
  message : string
}.

(** [fastapi.HTTPException] is raised by the code only. *)
Inductive exn :=
  | HTTPException (status_code : Z) (detail : string)
  | Raised (f : failure).

Definition Exception (msg : string) : exn :=
  Raised (Failure OtherException "Exception" msg).

Definition is_HTTPException (e : exn) : bool :=
  match e with HTTPException _ _ => true | Raised _ => false end.

Definition is_kind (k : exn_kind) (e : exn) : bool :=
  match e with
  | HTTPException _ _ => false
  | Raised f =>
      match k, kind f with
      | ClientError, ClientError | TimeoutError, TimeoutError
      | ValueError, ValueError | AttributeError, AttributeError
      | NotImplementedError, NotImplementedError | OSError, OSError
      | OtherException, OtherException => true
      | _, _ => false
      end
  end.

(** [str(e)]; for an [HTTPException] Starlette renders
    ["<status_code>: <detail>"]. *)
Definition str_exn (e : exn) : string :=
  match e with
  | HTTPException c d => pretty c +:+ ": " +:+ d
  | Raised f => message f
  end.

(** [type(e).__name__] *)
Definition name_exn (e : exn) : string :=
  match e with
  | HTTPException _ _ => "HTTPException"
  | Raised f => type_name f
  end.

(** [s.startswith(p)] *)
Definition startswith (s p : string) : bool := String.prefix p s.

(** [s.split(",", 1)]: [None] when [s] has no comma (one element),
    else the text before and after the first comma. *)
Fixpoint split_comma (s : string) : option (string * string) :=
  match s with
  | EmptyString => None
  | String c rest =>
      if Ascii.eqb c ","%char then Some (EmptyString, rest)
      else match split_comma rest with
           | Some (h, t) => Some (String c h, t)
           | None => None
           end
  end.

(** [s.lower()] on the ASCII letters.  The only character outside ASCII
    whose lower case is an ASCII letter is the Kelvin sign (to [k]), and
    no provider key holds a [k]: on the keys that the provider table
    knows, this is [str.lower]. *)
Definition lower_char (c : ascii) : ascii :=
  let n := N_of_ascii c in
  if ((65 <=? n) && (n <=? 90))%N then ascii_of_N (n + 32) else c.

Fixpoint lower (s : string) : string :=
  match s with
  | EmptyString => EmptyString
  | String c rest => String (lower_char c) (lower rest)
  end.

(** [int(q)] for a float [q]: truncation towards zero. *)
Definition int_of (q : Q) : Z := Z.quot (Qnum q) (Zpos (Qden q)).

End Py.

Abbreviation bytes := (list byte).

(** The numbers below a bound, to check a boolean property of small
    numbers by running it on each. *)
Definition below (k : nat) : list N := N.of_nat <$> seq 0 k.

(* ===================================================================== *)
(** ** utils/throttle.py *)
(* ===================================================================== *)

Module Throttle.

(** [a < b] on clock readings, as a boolean. *)
Definition Qltb (a b : Q) : bool := negb (Qle_bool b a).

Record ThrottleMiddleware := {
  requests_per_minute : Z;
  requests : gmap string (list Q);
  cleanup_interval : Q;
  last_cleanup : Q
}.

(** [__init__]; [now] is the reading of [time.time()] at construction. *)
Definition init (requests_per_minute : Z) (now : Q) : ThrottleMiddleware :=
  {| requests_per_minute := requests_per_minute;
     requests := ∅;
     cleanup_interval := 60;
     last_cleanup := now |}.

(** What [dispatch] reads of the request. *)
Record Request := {
  client_host : option string;     (* request.client.host, if request.client *)
  x_user_id : option string        (* request.headers.get("X-User-ID") *)
}.

(** [dispatch] either raises or hands the request to [call_next]. *)
Inductive outcome :=
  | Rejected (e : Py.exn)
  | Forwarded.

(** [self.requests[user_id]] of a [defaultdict(list)]; every read of the
    code is followed by an assignment to the same key, or happens on a
    key that exists. *)
Definition getitem (m : gmap string (list Q)) (user_id : string) : list Q :=
  default [] (m !! user_id).

(** [[req_time for req_time in l if req_time > minute_ago]] *)
Definition newer_than (minute_ago : Q) (l : list Q) : list Q :=
  List.filter (fun req_time => Qltb minute_ago req_time) l.

Definition _is_rate_limited (self : ThrottleMiddleware) (user_id : string)
    (current_time : Q) : bool * ThrottleMiddleware :=
  let minute_ago := (current_time - 60)%Q in
  let user_requests := newer_than minute_ago (getitem (requests self) user_id) in
  let self' :=
    {| requests_per_minute := requests_per_minute self;
       requests := <[user_id := user_requests]> (requests self);
       cleanup_interval := cleanup_interval self;
       last_cleanup := last_cleanup self |} in
  (Z.of_nat (length user_requests) >=? requests_per_minute self, self').

Definition _cleanup_old_entries (self : ThrottleMiddleware) (current_time : Q)
    : ThrottleMiddleware :=
  let minute_ago := (current_time - 60)%Q in
  {| requests_per_minute := requests_per_minute self;
     requests :=
       omap (fun l => match newer_than minute_ago l with
                      | [] => None
                      | l' => Some l'
                      end) (requests self);
     cleanup_interval := cleanup_interval self;
     last_cleanup := last_cleanup self |}.

Definition rate_limit_detail (self : ThrottleMiddleware) : string :=
  "Rate limit exceeded. Maximum " +:+ pretty (requests_per_minute self)
    +:+ " requests per minute.".

(** The client identifier: the [X-User-ID] header when it is present
    and not empty, else the peer address, else ["unknown"]. *)
Definition identity (request : Request) : string :=
  let client_id := default "unknown" (client_host request) in
  match x_user_id request with
  | Some h => if String.eqb h "" then client_id else h
  | None => client_id
  end.

(** The first lines of [dispatch]: [self] after the periodic cleanup,
    when it is due. *)
Definition swept (self : ThrottleMiddleware) (current_time : Q)
    : ThrottleMiddleware :=
  if Qltb (cleanup_interval self) (current_time - last_cleanup self)%Q
  then
    let c := _cleanup_old_entries self current_time in
    {| requests_per_minute := requests_per_minute c;
       requests := requests c;
       cleanup_interval := cleanup_interval c;
       last_cleanup := current_time |}
  else self.

Definition dispatch (self : ThrottleMiddleware) (request : Request)
    (current_time : Q) : outcome * ThrottleMiddleware :=
  let self1 := swept self current_time in
  let user_id := identity request in
  let '(limited, self2) := _is_rate_limited self1 user_id current_time in
  if limited
  then (Rejected (Py.HTTPException 429 (rate_limit_detail self2)), self2)
  else
    (Forwarded,
     {| requests_per_minute := requests_per_minute self2;
        requests :=
          <[user_id := getitem (requests self2) user_id ++ [current_time]]>
            (requests self2);
        cleanup_interval := cleanup_interval self2;
        last_cleanup := last_cleanup self2 |}).

(** The middleware over a sequence of requests, each with the clock
    reading of its [dispatch]; the outcomes come in the same order. *)
Fixpoint serve (self : ThrottleMiddleware) (evs : list (Q * Request))
    : list outcome * ThrottleMiddleware :=
  match evs with
  | [] => ([], self)
  | (t, r) :: rest =>
      let '(o, self') := dispatch self r t in
      let '(os, self'') := serve self' rest in
      (o :: os, self'')
  end.

(** The clock readings of the requests of [user_id] that [serve] handed
    to [call_next]: the full record of what was let through for that
    identity, oldest first, none forgotten. *)
Fixpoint forwarded_times (self : ThrottleMiddleware) (evs : list (Q * Request))
    (user_id : string) : list Q :=
  match evs with
  | [] => []
  | (t, r) :: rest =>
      let '(o, self') := dispatch self r t in
      match o with
      | Forwarded =>
          if String.eqb (identity r) user_id
          then t :: forwarded_times self' rest user_id
          else forwarded_times self' rest user_id
      | Rejected _ => forwarded_times self' rest user_id
      end
  end.

(** The readings of [l] in the trailing window [(now - 60, now]]. *)
Definition in_window (now : Q) (l : list Q) : list Q :=
  List.filter (fun t => Qltb (now - 60)%Q t && Qle_bool t now) l.

(** A clock that never runs backwards. *)
Fixpoint nondecreasing (ts : list Q) : Prop :=
  match ts with
  | [] => True
  | t :: rest => Forall (fun t' => (t <= t')%Q) rest ∧ nondecreasing rest
  end.

End Throttle.

(* ===================================================================== *)
(** ** The world outside the repository, and the effects of one request *)
(* ===================================================================== *)

Module Logger.

Inductive level := ERROR | INFO.

(** The [log_data] dictionary of [InferenceLogger.log_request], with the
    level it is handed to the [logging] library at ([logger.error] when
    the record has an error text, [logger.info] otherwise).  The
    ["timestamp"] entry, a reading of the wall clock of its own, is left
    out.  What the library does with a record (the threshold [LOG_LEVEL],
    the rotating file) is outside the repository: an audit record here
    is one call of [log_request]. *)
Record LogRecord := {
  log_level : level;
  user_id : string;
  catalog_id : string;
  status : string;
  latency_ms : Q;
  ai_provider : string;
  error : option string           (* the ["error"] key, when it is set *)
}.

End Logger.

Module Net.

(** The body of a backend response as [HTTPClient._request] reads it:
    [response.json()] gives a value, or it raises and [response.text()]
    is read instead (and gives a string or raises in its turn). *)
Inductive body :=
  | Json (v : Py.value)
  | NotJson (text : Py.failure + string).

Record Response := {
  status : Z;
  content : body
}.

(** One attempt: [session.request] raises, or a response arrives. *)
Inductive attempt :=
  | RequestRaises (f : Py.failure)
  | RequestReturns (r : Response).

Record BackendCall := {
  method : string;
  url : string;
  data : option (gmap string Py.value)
}.

(** A [session.get(url)] of [download_image]: it raises, or answers with
    a status and a body that [response.read()] gives or fails to give. *)
Inductive fetch :=
  | GetRaises (f : Py.failure)
  | GetReturns (status : Z) (read : Py.failure + bytes).

End Net.

(** What the OpenAI SDK call [client.images.generate] does: it raises (an
    [OpenAIError] or something else, with its [str]), or returns the URLs
    of [response.data]. *)
Inductive openai_outcome :=
  | OpenAIRaises (is_openai_error : bool) (msg : string)
  | OpenAIReturns (urls : list string).

Record World := {
  environ : gmap string string;                  (* os.environ *)
  time_time : nat → Q;                           (* the n-th time.time() *)
  backend : nat → Net.BackendCall → Net.attempt; (* the n-th backend attempt *)
  http_get : string → Net.fetch;                 (* image hosts *)
  local_file : string → option (Py.failure + bytes);  (* None: no such path *)
  stage_inputs : Py.failure + (string * string); (* the two temp files' paths *)
  openai_generate : openai_outcome;
  gemini_generate : Py.failure + string;         (* GeminiProvider.generate_image *)
  makedirs_media : option Py.failure;            (* os.makedirs("media", ...) *)
  file_write : string → option Py.failure;       (* open(path, "wb") and write *)
  str_value : Py.value → string                  (* str(v) in an f-string *)
}.

Record State := {
  clock_reads : nat;                     (* readings of time.time() so far *)
  backend_calls : list Net.BackendCall;  (* backend attempts, oldest first *)
  sleeps : list Z;                       (* asyncio.sleep delays, in order *)
  audit : list Logger.LogRecord;         (* log_request calls, in order *)
  generations : nat;                     (* generate_image invocations *)
  media : gmap string bytes              (* files written by save_image *)
}.

Definition initial : State :=
  {| clock_reads := 0; backend_calls := []; sleeps := []; audit := [];
     generations := 0; media := ∅ |}.

Inductive result (A : Type) :=
  | Ok (a : A)
  | Raise (e : Py.exn).
Arguments Ok {A} a.
Arguments Raise {A} e.

(** A computation reads the world, changes the state and returns or
    raises. *)
Definition M (A : Type) : Type := World → State → result A * State.

#[export] Instance M_ret : MRet M := fun A a _ s => (Ok a, s).

#[export] Instance M_bind : MBind M := fun A B k m W s =>
  match m W s with
  | (Ok a, s') => k a W s'
  | (Raise e, s') => (Raise e, s')
  end.

Definition raise {A} (e : Py.exn) : M A := fun _ s => (Raise e, s).

(** [try: body  except ...: handler]; a handler that has no clause for
    [e] raises [e] again. *)
Definition try_except {A} (body : M A) (handler : Py.exn → M A) : M A :=
  fun W s =>
    match body W s with
    | (Ok a, s') => (Ok a, s')
    | (Raise e, s') => handler e W s'
    end.

Definition ask : M World := fun W s => (Ok W, s).

(** [os.getenv(name, default)] *)
Definition getenv (name default_ : string) : M string :=
  W ← ask; mret (default default_ (environ W !! name)).

(** [os.getenv(name)] *)
Definition getenv_opt (name : string) : M (option string) :=
  W ← ask; mret (environ W !! name).

(** The changes of state. *)
Definition ticked (s : State) : State :=
  {| clock_reads := S (clock_reads s); backend_calls := backend_calls s;
     sleeps := sleeps s; audit := audit s; generations := generations s;
     media := media s |}.

Definition slept (d : Z) (s : State) : State :=
  {| clock_reads := clock_reads s; backend_calls := backend_calls s;
     sleeps := sleeps s ++ [d]; audit := audit s;
     generations := generations s; media := media s |}.

Definition sent (c : Net.BackendCall) (s : State) : State :=
  {| clock_reads := clock_reads s; backend_calls := backend_calls s ++ [c];
     sleeps := sleeps s; audit := audit s; generations := generations s;
     media := media s |}.

Definition logged (r : Logger.LogRecord) (s : State) : State :=
  {| clock_reads := clock_reads s; backend_calls := backend_calls s;
     sleeps := sleeps s; audit := audit s ++ [r];
     generations := generations s; media := media s |}.

Definition generated (s : State) : State :=
  {| clock_reads := clock_reads s; backend_calls := backend_calls s;
     sleeps := sleeps s; audit := audit s;
     generations := S (generations s); media := media s |}.

Definition wrote (filepath : string) (data : bytes) (s : State) : State :=
  {| clock_reads := clock_reads s; backend_calls := backend_calls s;
     sleeps := sleeps s; audit := audit s; generations := generations s;
     media := <[filepath := data]> (media s) |}.

(** [time.time()] *)
Definition time_now : M Q := fun W s =>
  (Ok (time_time W (clock_reads s)), ticked s).

(** [asyncio.sleep(d)] *)
Definition asyncio_sleep (d : Z) : M unit := fun _ s => (Ok tt, slept d s).

(** [session.request(method, url, json=data, ...)] *)
Definition session_request (c : Net.BackendCall) : M Net.Response := fun W s =>
  match backend W (length (backend_calls s)) c with
  | Net.RequestRaises f => (Raise (Py.Raised f), sent c s)
  | Net.RequestReturns r => (Ok r, sent c s)
  end.

(** A value that a library call returns, or the exception it raises. *)
Definition lift {A} (r : Py.failure + A) : M A :=
  match r with
  | inl f => raise (Py.Raised f)
  | inr a => mret a
  end.

(** [d.get(key, default)] on whatever [response.json()] gave: only a
    [dict] has a [get]. *)
Definition get (v : Py.value) (key : string) (default_ : Py.value) : M Py.value :=
  match v with
  | Py.VDict d => mret (default default_ (d !! key))
  | _ =>
      raise (Py.Raised (Py.Failure Py.AttributeError "AttributeError"
                          "object has no attribute 'get'"))
  end.

(** The record that [logger.log_request(user_id, catalog_id, status,
    latency_ms, ai_provider, error)] writes: the ["error"] key and the
    ERROR level go with an [error] that is neither [None] nor empty. *)
Definition log_record (user_id catalog_id status : string) (latency_ms : Q)
    (ai_provider : string) (error : option string) : Logger.LogRecord :=
  let written :=
    match error with
    | Some e => if String.eqb e "" then None else Some e
    | None => None
    end in
  {| Logger.log_level :=
       match written with Some _ => Logger.ERROR | None => Logger.INFO end;
     Logger.user_id := user_id;
     Logger.catalog_id := catalog_id;
     Logger.status := status;
     Logger.latency_ms := latency_ms;
     Logger.ai_provider := ai_provider;
     Logger.error := written |}.

Definition log_request (user_id catalog_id status : string) (latency_ms : Q)
    (ai_provider : string) (error : option string) : M unit := fun _ s =>
  (Ok tt,
   logged (log_record user_id catalog_id status latency_ms ai_provider error) s).

(* ===================================================================== *)
(** ** utils/http_client.py *)
(* ===================================================================== *)

Module HttpClient.

Import Py.

Record HTTPClient := {
  base_url : string;
  timeout : Z;                (* ClientTimeout(total=30) *)
  max_retries : Z;
  retry_delay : Z
}.

(** [__init__]: the only thing it reads is the environment. *)
Definition make (W : World) : HTTPClient :=
  {| base_url := default "http://localhost:8000" (environ W !! "BACKEND_URL");
     timeout := 30; max_retries := 3; retry_delay := 1 |}.

Definition init : M HTTPClient := W ← ask; mret (make W).

(** The dictionary literal of one error branch. *)
Definition decision (error : string) (detail : value) (status : Z)
    (message : string) : value :=
  VDict (list_to_map
           [("error", VStr error); ("detail", detail);
            ("status", VInt status); ("message", VStr message)]).

(** The body of [async with session.request(...) as response]. *)
Definition read_response (endpoint : string) (response : Net.Response)
    : M value :=
  response_data ←
    match Net.content response with
    | Net.Json v => mret v
    | Net.NotJson text =>
        response_text ← lift text;
        mret (if String.eqb response_text "" then VDict ∅
              else VDict {[ "detail" := VStr response_text ]})
    end;
  W ← ask;
  let status := Net.status response in
  if status =? 200 then mret response_data
  else if status =? 401 then
    fallback ← get response_data "error" (VStr "Authentication failed");
    error_msg ← get response_data "detail" fallback;
    mret (decision "Unauthorized" error_msg 401
            ("Authentication failed: " +:+ str_value W error_msg))
  else if status =? 403 then
    fallback ← get response_data "error" (VStr "Access forbidden");
    error_msg ← get response_data "detail" fallback;
    mret (decision "Forbidden" error_msg 403
            ("Insufficient credits or access denied: "
               +:+ str_value W error_msg))
  else if status =? 404 then
    mret (decision "Not Found" (VStr ("Endpoint not found: " +:+ endpoint))
            404 ("Backend endpoint " +:+ endpoint +:+ " not found"))
  else if status >=? 500 then
    fallback ← get response_data "error" (VStr "Server error");
    error_msg ← get response_data "detail" fallback;
    mret (decision "Backend Server Error" error_msg status
            ("Backend server error: " +:+ str_value W error_msg))
  else
    fallback ← get response_data "error" (VStr "Unknown error");
    error_msg ← get response_data "detail" fallback;
    mret (decision ("Backend error (" +:+ pretty status +:+ ")") error_msg
            status ("Backend returned error: " +:+ str_value W error_msg)).

(** One turn of the [for attempt in range(self.max_retries)] loop, up
    to the [except] clauses. *)
Definition attempt_once (method url endpoint : string)
    (data : option (gmap string value)) : M value :=
  response ← session_request
               {| Net.method := method; Net.url := url; Net.data := data |};
  read_response endpoint response.

(** [str(last_error)] of the last line of [_request]. *)
Definition str_last_error (last_error : option string) : string :=
  default "None" last_error.

(** The loop of [_request] over the attempt numbers still to run. *)
Fixpoint attempts (self : HTTPClient) (method url endpoint : string)
    (data : option (gmap string value)) (range : list Z)
    (last_error : option string) : M value :=
  match range with
  | [] =>
      raise (Exception ("Request failed after all retries: "
                          +:+ str_last_error last_error))
  | attempt :: rest =>
      try_except (attempt_once method url endpoint data)
        (fun e =>
           if is_kind ClientError e then
             if attempt =? max_retries self - 1 then
               raise (Exception
                        ("Network error after " +:+ pretty (max_retries self)
                           +:+ " attempts connecting to " +:+ url +:+ ": "
                           +:+ str_exn e))
             else
               asyncio_sleep (retry_delay self * 2 ^ attempt);;
               attempts self method url endpoint data rest
                 (Some ("Network error: " +:+ str_exn e))
           else if is_kind TimeoutError e then
             if attempt =? max_retries self - 1 then
               raise (Exception
                        ("Request timeout after " +:+ pretty (max_retries self)
                           +:+ " attempts for " +:+ url))
             else
               asyncio_sleep (retry_delay self * 2 ^ attempt);;
               attempts self method url endpoint data rest
                 (Some "Request timeout")
           else
             if attempt =? max_retries self - 1 then
               raise (Exception
                        ("Request failed after " +:+ pretty (max_retries self)
                           +:+ " attempts for " +:+ url +:+ ": "
                           +:+ str_exn e))
             else
               asyncio_sleep (retry_delay self * 2 ^ attempt);;
               attempts self method url endpoint data rest
                 (Some (str_exn e)))
  end.

(** [range(n)] *)
Definition range (n : Z) : list Z := Z.of_nat <$> seq 0 (Z.to_nat n).

(** What one attempt comes to, whatever the state: the exception of
    [session.request], or what reading the response gives. *)
Definition answer (W : World) (endpoint : string) (a : Net.attempt)
    : result value :=
  match a with
  | Net.RequestRaises f => Raise (Raised f)
  | Net.RequestReturns r => (read_response endpoint r W initial).1
  end.

(** The responses that the reading turns into a returned value: a
    body that is a JSON object or no JSON at all (but readable as
    text), and under the statuses 200 and 404 any JSON body. *)
Definition returns_decision (r : Net.Response) : bool :=
  match Net.content r with
  | Net.Json (VDict _) => true
  | Net.Json _ => (Net.status r =? 200) || (Net.status r =? 404)
  | Net.NotJson (inr _) => true
  | Net.NotJson (inl _) => false
  end.

(** The exception of the last attempt's [except] clause, for the
    exception [e] that the attempt raised. *)
Definition gave_up (self : HTTPClient) (url : string) (e : exn) : exn :=
  if is_kind ClientError e then
    Exception ("Network error after " +:+ pretty (max_retries self)
                 +:+ " attempts connecting to " +:+ url +:+ ": "
                 +:+ str_exn e)
  else if is_kind TimeoutError e then
    Exception ("Request timeout after " +:+ pretty (max_retries self)
                 +:+ " attempts for " +:+ url)
  else
    Exception ("Request failed after " +:+ pretty (max_retries self)
                 +:+ " attempts for " +:+ url +:+ ": " +:+ str_exn e).

(** The [last_error] that an [except] clause notes for [e]. *)
Definition noted (e : exn) : string :=
  if is_kind ClientError e then "Network error: " +:+ str_exn e
  else if is_kind TimeoutError e then "Request timeout"
  else str_exn e.

Definition _request (self : HTTPClient) (method endpoint : string)
    (data : option (gmap string value)) : M value :=
  let url := base_url self +:+ endpoint in
  attempts self method url endpoint data (range (max_retries self)) None.

Definition verify_auth (self : HTTPClient) (user_id api_key : string)
    : M value :=
  _request self "POST" "/api/v1/auth/verify/"
    (Some (list_to_map
             [("user_id", VStr user_id); ("api_key", VStr api_key)])).

(** [urllib.parse.quote_plus] on the bytes of the string: letters,
    digits and [_.-~] stay, a space becomes [+], any other byte becomes
    [%XX]. *)
Definition hex_digit (n : N) : ascii :=
  (if n <? 10 then ascii_of_N (48 + n) else ascii_of_N (55 + n))%N.

Definition unreserved (n : N) : bool :=
  ((65 <=? n) && (n <=? 90) || (97 <=? n) && (n <=? 122)
   || (48 <=? n) && (n <=? 57)
   || (n =? 95) || (n =? 46) || (n =? 45) || (n =? 126))%N.

Fixpoint quote_plus (s : string) : string :=
  match s with
  | EmptyString => EmptyString
  | String c rest =>
      let n := N_of_ascii c in
      if unreserved n then String c (quote_plus rest)
      else if (n =? 32)%N then String "+"%char (quote_plus rest)
      else String "%"%char
             (String (hex_digit (n / 16)%N)
                (String (hex_digit (n mod 16)%N) (quote_plus rest)))
  end.

(** [urlencode({"user_id": user_id})] *)
Definition urlencode_user_id (user_id : string) : string :=
  "user_id=" +:+ quote_plus user_id.

Definition check_credits (self : HTTPClient) (user_id : string) : M value :=
  _request self "GET"
    ("/api/v1/credits/check/?" +:+ urlencode_user_id user_id) None.

Definition send_webhook (self : HTTPClient) (user_id : string)
    (used_credits : Z) (catalog_id image_url : string) (latency_ms : Q)
    : M value :=
  _request self "POST" "/api/v1/inference/webhook/"
    (Some (list_to_map
             [("user_id", VStr user_id); ("used_credits", VInt used_credits);
              ("catalog_id", VStr catalog_id); ("image_url", VStr image_url);
              ("latency_ms", VFloat latency_ms)])).

(** The spec's words for the retry condition: a second attempt is made
    only when the first one raised a connection error or a timeout. *)
Definition retried_only_after_transport_failure (W : World) (s : State)
    (method endpoint : string) (data : option (gmap string value)) : Prop :=
  let self := make W in
  let call := {| Net.method := method;
                 Net.url := base_url self +:+ endpoint;
                 Net.data := data |} in
  let out := _request self method endpoint data W s in
  (length (backend_calls s) + 1 < length (backend_calls out.2))%nat →
  ∃ f, backend W (length (backend_calls s)) call = Net.RequestRaises f
       ∧ (kind f = ClientError ∨ kind f = TimeoutError).

End HttpClient.

(* ===================================================================== *)
(** ** base64 (standard library), as [save_image] uses it *)
(* ===================================================================== *)

Module Base64.

Import Py.

Definition alphabet : string :=
  "ABCDEFGHIJKLMNOPQRSTUVWXYZabcdefghijklmnopqrstuvwxyz0123456789+/".

(** [table_b2a_base64[n]] *)
Definition b2a (n : N) : ascii :=
  default "A"%char (String.get (N.to_nat n) alphabet).

(** [table_a2b_base64[c]]; [None] for a character outside the
    alphabet. *)
Definition a2b (c : ascii) : option N :=
  let n := N_of_ascii c in
  (if (65 <=? n) && (n <=? 90) then Some (n - 65)
   else if (97 <=? n) && (n <=? 122) then Some (n - 97 + 26)
   else if (48 <=? n) && (n <=? 57) then Some (n - 48 + 52)
   else if n =? 43 then Some 62
   else if n =? 47 then Some 63
   else None)%N.

(** The four six-bit groups of three bytes. *)
Definition sextet1 (a : N) : N := N.shiftr a 2.
Definition sextet2 (a b : N) : N :=
  N.lor (N.shiftl (N.land a 3) 4) (N.shiftr b 4).
Definition sextet3 (b c : N) : N :=
  N.lor (N.shiftl (N.land b 15) 2) (N.shiftr c 6).
Definition sextet4 (c : N) : N := N.land c 63.

(** The standard encoding (RFC 4648, with padding): what a provider
    puts after the comma of a data URL. *)
Fixpoint b64encode (data : bytes) : string :=
  match data with
  | [] => ""
  | [x] =>
      let a := Byte.to_N x in
      String (b2a (sextet1 a))
        (String (b2a (N.shiftl (N.land a 3) 4)) "==")
  | [x; y] =>
      let a := Byte.to_N x in
      let b := Byte.to_N y in
      String (b2a (sextet1 a))
        (String (b2a (sextet2 a b))
           (String (b2a (N.shiftl (N.land b 15) 2)) "="))
  | x :: y :: z :: rest =>
      let a := Byte.to_N x in
      let b := Byte.to_N y in
      let c := Byte.to_N z in
      String (b2a (sextet1 a))
        (String (b2a (sextet2 a b))
           (String (b2a (sextet3 b c))
              (String (b2a (sextet4 c)) (b64encode rest))))
  end.

(** A store into an [unsigned char]. *)
Definition to_byte (n : N) : byte :=
  default "000"%byte (Byte.of_N (n mod 256)%N).

Definition binascii_Error (msg : string) : failure :=
  Failure ValueError "Error" msg.

(** The decoding loop of CPython's [binascii.a2b_base64] without strict
    mode: [=] ends the input once it completes a quad, is skipped
    otherwise; characters outside the alphabet are skipped; the four
    positions of a quad shift six bits each into the output. *)
Fixpoint a2b_base64_loop (ascii_data : string) (quad_pos : nat)
    (leftchar pads : N) (bin_data : bytes) : failure + bytes :=
  match ascii_data with
  | EmptyString =>
      match quad_pos with
      | O => inr bin_data
      | 1%nat =>
          inl (binascii_Error
                 "Invalid base64-encoded string: number of data characters cannot be 1 more than a multiple of 4")
      | _ => inl (binascii_Error "Incorrect padding")
      end
  | String this_ch rest =>
      if Ascii.eqb this_ch "="%char then
        if (2 <=? quad_pos)%nat then
          if (4 <=? N.of_nat quad_pos + (pads + 1))%N then inr bin_data
          else a2b_base64_loop rest quad_pos leftchar (pads + 1)%N bin_data
        else a2b_base64_loop rest quad_pos leftchar pads bin_data
      else
        match a2b this_ch with
        | None => a2b_base64_loop rest quad_pos leftchar pads bin_data
        | Some this_ch =>
            match quad_pos with
            | O => a2b_base64_loop rest 1 this_ch 0%N bin_data
            | 1%nat =>
                a2b_base64_loop rest 2 (N.land this_ch 15) 0%N
                  (bin_data ++
                   [to_byte (N.lor (N.shiftl leftchar 2) (N.shiftr this_ch 4))])
            | 2%nat =>
                a2b_base64_loop rest 3 (N.land this_ch 3) 0%N
                  (bin_data ++
                   [to_byte (N.lor (N.shiftl leftchar 4) (N.shiftr this_ch 2))])
            | _ =>
                a2b_base64_loop rest 0 0%N 0%N
                  (bin_data ++
                   [to_byte (N.lor (N.shiftl leftchar 6) this_ch)])
            end
        end
  end.

Fixpoint is_ascii (s : string) : bool :=
  match s with
  | EmptyString => true
  | String c rest => (N_of_ascii c <? 128)%N && is_ascii rest
  end.

(** [base64.b64decode(s)] for a [str]: the string must be ASCII, then
    [binascii.a2b_base64]. *)
Definition b64decode (s : string) : failure + bytes :=
  if is_ascii s then a2b_base64_loop s 0 0%N 0%N []
  else inl (Failure ValueError "ValueError"
              "string argument should contain only ASCII characters").

End Base64.

(* ===================================================================== *)
(** ** services/ai_provider.py *)
(* ===================================================================== *)

Module AiProvider.

Import Py.

(** The four classes; the OpenAI and Gemini providers keep the key
    their constructor found. *)
Inductive AIProvider :=
  | OpenAIProvider (api_key : string)
  | GeminiProvider (api_key : string)
  | SoraProvider
  | StabilityProvider.

Definition value_error (msg : string) : exn :=
  Raised (Failure ValueError "ValueError" msg).

(** [OpenAIProvider.__init__] *)
Definition OpenAIProvider_init : M AIProvider :=
  api_key ← getenv_opt "OPENAI_API_KEY";
  match api_key with
  | Some k =>
      if String.eqb k ""
      then raise (value_error "OPENAI_API_KEY not found in environment variables")
      else mret (OpenAIProvider k)
  | None => raise (value_error "OPENAI_API_KEY not found in environment variables")
  end.

(** [GeminiProvider.__init__] *)
Definition GeminiProvider_init : M AIProvider :=
  api_key ← getenv_opt "GOOGLE_API_KEY";
  match api_key with
  | Some k =>
      if String.eqb k ""
      then raise (value_error "GOOGLE_API_KEY not found in environment variables")
      else mret (GeminiProvider k)
  | None => raise (value_error "GOOGLE_API_KEY not found in environment variables")
  end.

(** The [providers] table of [get_ai_provider]. *)
Definition providers : gmap string (M AIProvider) :=
  list_to_map
    [("openai", OpenAIProvider_init);
     ("sora", mret SoraProvider);
     ("gemini", GeminiProvider_init);
     ("stability", mret StabilityProvider)].

Definition get_ai_provider : M AIProvider :=
  name ← getenv "AI_PROVIDER" "openai";
  let provider_name := lower name in
  match providers !! provider_name with
  | None => raise (value_error ("Unknown AI provider: " +:+ provider_name))
  | Some provider_class => provider_class
  end.

(** Entering [generate_image] is counted. *)
Definition enter_generate : M unit := fun _ s => (Ok tt, generated s).

(** [generate_image].  The remote API of OpenAI and the whole of the
    Gemini provider are the world's; the wrapping of OpenAI's failures
    and the two placeholders are the code's. *)
Definition generate_image (self : AIProvider)
    (user_img_url catalog_img_url : string) : M string :=
  enter_generate;;
  W ← ask;
  match self with
  | OpenAIProvider _ =>
      match openai_generate W with
      | OpenAIReturns (url :: _) => mret url
      | OpenAIReturns [] =>
          raise (Exception
                   "Image generation error: No image URL returned from OpenAI")
      | OpenAIRaises is_openai_error msg =>
          if is_openai_error
          then raise (Exception ("OpenAI API error: " +:+ msg))
          else raise (Exception ("Image generation error: " +:+ msg))
      end
  | GeminiProvider _ => lift (gemini_generate W)
  | SoraProvider =>
      raise (Raised (Failure NotImplementedError "NotImplementedError"
                       "Sora provider not yet implemented"))
  | StabilityProvider =>
      raise (Raised (Failure NotImplementedError "NotImplementedError"
                       "Stability AI provider not yet implemented"))
  end.

End AiProvider.

(* ===================================================================== *)
(** ** services/ai_provider.py: the Gemini provider *)
(* ===================================================================== *)

(** The methods of [GeminiProvider], as functions of the environment and
    of what the libraries answer ([Services]).  None of them touches the
    state of a request, so each returns a value or the exception it
    raises, [failure + _].  A [try] with [except Exception] clauses is a
    [match] on the outcome of its body; an exception raised by the code
    inside a [try] meets the clauses of that [try] like any other.

    Taken from the libraries as they are documented: [hasattr] is false
    exactly when reading the attribute raises an [AttributeError]; the
    [text] property of a response gives the same outcome each time it is
    read; [import PIL.Image] and [asyncio.get_event_loop()] succeed.
    Strings are strings of bytes, so [error_text[:100]] is exact on
    ASCII text. *)
Module Gemini.

Import Py.

(** What [GeminiProvider.__init__] leaves in [self] once it has found
    the key. *)
Record GeminiProvider := {
  api_key : string;
  model : string;
  prompt_template : string
}.

Definition init (api_key : string) : GeminiProvider :=
  {| api_key := api_key;
     model := "gemini-2.5-flash-image";
     prompt_template :=
       "take the person from the first reference image and the garment and the setting "
       +:+ "from the second image, virtual try on should match the model's body. catalogue shoot. "
       +:+ "4k. photorealistic. new shot and visual. three quarter angle shot" |}.

(** A [session.get(url_or_path, ...)]: it raises, or answers with a
    status, with what [response.read()] gives and with what
    [response.text()] gives. *)
Inductive get_outcome :=
  | GetRaises (f : failure)
  | GetReturns (status : Z) (read : failure + bytes) (text : failure + string).

(** [model.generate_content(...)]: it raises (a [GoogleAPIError] or
    something else), or returns a response whose [text] property gives
    a string or raises. *)
Inductive content_outcome :=
  | ContentRaises (is_google_api_error : bool) (f : failure)
  | ContentReturns (text : failure + string).

(** The [session.post] to the Imagen endpoint: it raises, or answers
    with a status and with what [response.json()] gives. *)
Inductive post_outcome :=
  | PostRaises (f : failure)
  | PostReturns (status : Z) (json : failure + value).

(** What the provider reaches outside the repository. *)
Record Services := {
  path_exists : string → bool;                   (* os.path.exists *)
  open_read : string → failure + bytes;          (* open(p, "rb").read() *)
  session_get : string → get_outcome;
  GenerativeModel : option failure;              (* genai.GenerativeModel(...) *)
  PIL_open : bytes → option failure;             (* PIL.Image.open(BytesIO(b)) *)
  generate_content : string → bytes → bytes → content_outcome;
  google_auth_token : failure + string;          (* default(), refresh, token *)
  session_post : string → string → string → post_outcome;
                                                 (* url, bearer token, prompt *)
  str_value : value → string                     (* str(v) in an f-string *)
}.

(** [Exception(msg)] *)
Definition exception (msg : string) : failure :=
  Failure OtherException "Exception" msg.

(** [needle in haystack] on strings *)
Fixpoint contains (needle haystack : string) : bool :=
  String.prefix needle haystack
  || match haystack with
     | EmptyString => false
     | String _ rest => contains needle rest
     end.

(** [s[:n]] *)
Fixpoint take_chars (n : nat) (s : string) : string :=
  match n, s with
  | S n', String c rest => String c (take_chars n' rest)
  | _, _ => EmptyString
  end.

(** [f"{v}"]: a string is put in as it is. *)
Definition format (S : Services) (v : value) : string :=
  match v with
  | VStr s => s
  | _ => str_value S v
  end.

Definition newline : string := String "010"%char EmptyString.

Definition _download_image (S : Services) (url_or_path : string)
    : failure + bytes :=
  if path_exists S url_or_path
     && negb (startswith url_or_path "http://"
              || startswith url_or_path "https://")
  then
    match open_read S url_or_path with
    | inr data => inr data
    | inl e =>
        inl (exception ("Failed to read local file " +:+ url_or_path
                          +:+ ": " +:+ message e))
    end
  else
    let attempt : failure + bytes :=
      match session_get S url_or_path with
      | GetRaises e => inl e
      | GetReturns status read text =>
          if status =? 200 then read
          else if status =? 404 then
            inl (exception ("Image not found at URL: " +:+ url_or_path))
          else if status =? 403 then
            inl (exception ("Access forbidden for image URL: "
                              +:+ url_or_path))
          else
            match text with
            | inl e => inl e
            | inr error_text =>
                inl (exception ("Failed to download image from "
                                  +:+ url_or_path +:+ ": HTTP "
                                  +:+ pretty status +:+ " - "
                                  +:+ take_chars 100 error_text))
            end
      end in
    match attempt with
    | inr data => inr data
    | inl e =>
        match kind e with
        | ClientError =>
            inl (exception ("Network error downloading image from "
                              +:+ url_or_path +:+ ": " +:+ message e))
        | TimeoutError =>
            inl (exception ("Timeout downloading image from "
                              +:+ url_or_path))
        | _ =>
            inl (exception ("Error downloading image from " +:+ url_or_path
                              +:+ ": " +:+ message e))
        end
    end.

Definition _get_access_token (env : gmap string string) (S : Services)
    (self : GeminiProvider) : string :=
  match env !! "GOOGLE_APPLICATION_CREDENTIALS" with
  | Some service_account_path =>
      if negb (String.eqb service_account_path "")
         && path_exists S service_account_path
      then
        match google_auth_token S with
        | inr token => token
        | inl _ => api_key self
        end
      else api_key self
  | None => api_key self
  end.

(** The exception of [_generate_via_gemini_rest]. *)
Definition imagen_required : failure :=
  exception
    ("Image generation requires Imagen API access. "
     +:+ "Please set GOOGLE_PROJECT_ID in .env for Vertex AI Imagen API, "
     +:+ "or configure a Google Cloud project with Imagen API enabled. "
     +:+ "The Gemini API key is used for image analysis and prompt enhancement, "
     +:+ "but image generation requires Imagen API which needs a project ID.").

Definition _generate_via_gemini_rest (prompt : string)
    (user_img catalog_img : bytes) : failure + string :=
  inl imagen_required.

(** The [try] block of [_generate_with_imagen]: [Some] for its one
    [return].  Every other way through it ends in an exception, raised
    by a library or by the [raise] of its last line, and the bare
    [except Exception: pass] swallows it. *)
Definition imagen_attempt (env : gmap string string) (S : Services)
    (self : GeminiProvider) (project_id location prompt : string)
    : option string :=
  let access_token := _get_access_token env S self in
  let url :=
    "https://" +:+ location +:+ "-aiplatform.googleapis.com/v1/projects/"
      +:+ project_id +:+ "/locations/" +:+ location
      +:+ "/publishers/google/models/imagegeneration@006:predict" in
  match session_post S url access_token prompt with
  | PostRaises _ => None
  | PostReturns status json =>
      if status =? 200 then
        match json with
        | inr (VDict result) =>
            match result !! "predictions" with
            | Some (VList (VDict first :: _)) =>
                let img_data :=
                  default (VStr "") (first !! "bytesBase64Encoded") in
                if truthy img_data
                then Some ("data:image/png;base64," +:+ format S img_data)
                else None
            | _ => None
            end
        | _ => None
        end
      else None
  end.

Definition _generate_with_imagen (env : gmap string string) (S : Services)
    (self : GeminiProvider) (user_img catalog_img : bytes) (prompt : string)
    : failure + string :=
  let project_id := env !! "GOOGLE_PROJECT_ID" in
  let location := default "us-central1" (env !! "GOOGLE_LOCATION") in
  let returned :=
    match project_id with
    | Some p =>
        if String.eqb p "" then None
        else imagen_attempt env S self p location prompt
    | None => None
    end in
  match returned with
  | Some data_url => inr data_url
  | None => _generate_via_gemini_rest prompt user_img catalog_img
  end.

(** [response.text if hasattr(response, 'text') and response.text else
    final_prompt]: [hasattr] is false when reading the property raises
    an [AttributeError], and lets any other exception through. *)
Definition enhanced_prompt (text : failure + string) (final_prompt : string)
    : failure + string :=
  match text with
  | inl e =>
      match kind e with
      | AttributeError => inr final_prompt
      | _ => inl e
      end
  | inr t => if String.eqb t "" then inr final_prompt else inr t
  end.

(** The outer [except Exception] of [generate_image]. *)
Definition reraise_with_context (e : failure) : failure :=
  let error_str := message e in
  if contains "Failed to" error_str || contains "Error" error_str
     || contains "API error" error_str
  then e
  else exception ("Gemini image generation error: " +:+ error_str).

Definition generate_image (env : gmap string string) (S : Services)
    (self : GeminiProvider) (user_img_url catalog_img_url : string)
    (prompt : option string) : failure + string :=
  let body : failure + string :=
    match _download_image S user_img_url with
    | inl e =>
        inl (exception ("Failed to download user image from "
                          +:+ user_img_url +:+ ": " +:+ message e))
    | inr user_img_data =>
    match _download_image S catalog_img_url with
    | inl e =>
        inl (exception ("Failed to download catalog image from "
                          +:+ catalog_img_url +:+ ": " +:+ message e))
    | inr catalog_img_data =>
    let final_prompt :=
      match prompt with
      | Some p => if String.eqb p "" then prompt_template self else p
      | None => prompt_template self
      end in
    match GenerativeModel S with
    | Some e =>
        inl (exception ("Failed to initialize Gemini model '" +:+ model self
                          +:+ "': " +:+ message e
                          +:+ ". Check if model name is correct."))
    | None =>
    match match PIL_open S user_img_data with
          | Some e => Some e
          | None => PIL_open S catalog_img_data
          end with
    | Some e =>
        inl (exception ("Failed to process images: " +:+ message e
                          +:+ ". Ensure URLs point to valid image files."))
    | None =>
    let analysis_prompt :=
      final_prompt +:+ newline +:+ newline
        +:+ "First image shows the person/model. Second image shows the garment and setting. "
        +:+ "Create a detailed prompt for generating the virtual try-on result." in
    match generate_content S analysis_prompt user_img_data catalog_img_data with
    | ContentRaises true e =>
        inl (exception ("Gemini API error: " +:+ message e
                          +:+ ". Check your API key and quota."))
    | ContentRaises false e =>
        inl (exception ("Error calling Gemini API: " +:+ message e))
    | ContentReturns text =>
    match enhanced_prompt text final_prompt with
    | inl e => inl e
    | inr enhanced =>
    match _generate_with_imagen env S self user_img_data catalog_img_data
            enhanced with
    | inl e => inl (exception ("Image generation failed: " +:+ message e))
    | inr data_url => inr data_url
    end end end end end end end in
  match body with
  | inr data_url => inr data_url
  | inl e => inl (reraise_with_context e)
  end.

(** The prefix of every locator that the provider returns. *)
Definition data_url_prefix : string := "data:image/png;base64,".

End Gemini.

(* ===================================================================== *)
(** ** routers/generate.py *)
(* ===================================================================== *)

Module Generate.

Import Py.

Record GenerateResponse := {
  status : string;
  image_url : option string;
  latency_ms : Q
}.

(** A [fastapi.UploadFile]: what its [read()] gives. *)
Record UploadFile := { read : failure + bytes }.

(** The [source] of [get_image_data]. *)
Inductive ImageSource :=
  | SrcBytes (b : bytes)
  | SrcUpload (f : UploadFile)
  | SrcStr (s : string).

(** The form fields of [create_image]. *)
Record Form := {
  user_id : string;
  api_key : string;
  catalog_id : string;
  user_image : option UploadFile;
  catalog_image : option UploadFile;
  user_image_url : option string;
  catalog_image_url : option string
}.

Definition download_image (url : string) : M bytes :=
  W ← ask;
  match http_get W url with
  | Net.GetRaises f => raise (Raised f)
  | Net.GetReturns status body =>
      if status =? 200 then lift body
      else raise (Exception ("Failed to download image from " +:+ url
                               +:+ ": " +:+ pretty status))
  end.

Definition read_file_to_bytes (file_path : string) : M bytes :=
  W ← ask;
  match local_file W file_path with
  | None => raise (Exception ("File not found: " +:+ file_path))
  | Some content => lift content
  end.

Definition get_image_data (source : ImageSource) : M bytes :=
  match source with
  | SrcBytes b => mret b
  | SrcUpload f => lift (read f)
  | SrcStr s =>
      if startswith s "http://" || startswith s "https://"
      then download_image s
      else read_file_to_bytes s
  end.

(** [os.path.join("media", filename)] *)
Definition media_path (filename : string) : string :=
  if startswith filename "/" then filename else "media/" +:+ filename.

(** [with open(filepath, "wb") as f: f.write(image_data)] *)
Definition write_file (filepath : string) (image_data : bytes) : M unit :=
  fun W s =>
    match file_write W filepath with
    | Some f => (Raise (Raised f), s)
    | None => (Ok tt, wrote filepath image_data s)
    end.

Definition makedirs : M unit :=
  W ← ask;
  match makedirs_media W with
  | Some f => raise (Raised f)
  | None => mret tt
  end.

Definition save_image (image_url_or_data filename : string) : M string :=
  makedirs;;
  let filepath := media_path filename in
  if startswith image_url_or_data "data:image" then
    match split_comma image_url_or_data with
    | None =>
        raise (Raised (Failure ValueError "ValueError"
                         "not enough values to unpack (expected 2, got 1)"))
    | Some (header, encoded) =>
        image_data ← lift (Base64.b64decode encoded);
        write_file filepath image_data;;
        mret filepath
    end
  else
    image_data ← download_image image_url_or_data;
    write_file filepath image_data;;
    mret filepath.

(** [http_client = HTTPClient()] *)
Definition http_client : M HttpClient.HTTPClient := HttpClient.init.

(** [(time.time() - start_time) * 1000] *)
Definition elapsed_ms (start_time : Q) : M Q :=
  t ← time_now; mret ((t - start_time) * 1000)%Q.

(** One image side of the input resolution. *)
Definition resolve_input (file : option UploadFile) (url : option string)
    (missing : string) : M (bytes * string) :=
  match file with
  | Some f =>
      img_data ← get_image_data (SrcUpload f);
      mret (img_data, "uploaded_file")
  | None =>
      match url with
      | Some u =>
          if String.eqb u "" then raise (HTTPException 400 missing)
          else img_data ← get_image_data (SrcStr u); mret (img_data, u)
      | None => raise (HTTPException 400 missing)
      end
  end.

Definition resolve_inputs (form : Form) : M (bytes * bytes) :=
  '(user_img_data, _) ←
    resolve_input (user_image form) (user_image_url form)
      "Either user_image file or user_image_url must be provided";
  '(catalog_img_data, _) ←
    resolve_input (catalog_image form) (catalog_image_url form)
      "Either catalog_image file or catalog_image_url must be provided";
  mret (user_img_data, catalog_img_data).

(** Step 1: Verify authentication *)
Definition step1_verify_auth (form : Form) (start_time : Q)
    (ai_provider_name : string) : M unit :=
  auth_result ←
    try_except
      (self ← http_client;
       HttpClient.verify_auth self (user_id form) (api_key form))
      (fun e =>
         latency_ms ← elapsed_ms start_time;
         let error_msg :=
           "Backend connection error during auth: " +:+ str_exn e in
         log_request (user_id form) (catalog_id form) "error" latency_ms
           ai_provider_name (Some error_msg);;
         raise (HTTPException 503
                  ("Unable to verify authentication. Backend may be unavailable: "
                     +:+ str_exn e)));
  st ← get auth_result "status" VNone;
  unauthorized ←
    (if eq_int st 401 then mret true
     else err ← get auth_result "error" VNone;
          mret (eq_str err "Unauthorized"));
  if unauthorized : bool then
    latency_ms ← elapsed_ms start_time;
    d ← get auth_result "detail" VNone;
    m ← (if truthy d then mret d else get auth_result "message" VNone);
    let error_detail := or_ m (VStr "Invalid user_id or api_key") in
    W ← ask;
    log_request (user_id form) (catalog_id form) "error" latency_ms
      ai_provider_name (Some ("Unauthorized: " +:+ str_value W error_detail));;
    raise (HTTPException 401
             ("Authentication failed: " +:+ str_value W error_detail))
  else mret tt.

(** Step 2: Check credits *)
Definition step2_check_credits (form : Form) (start_time : Q)
    (ai_provider_name : string) : M unit :=
  credits_result ←
    try_except
      (self ← http_client; HttpClient.check_credits self (user_id form))
      (fun e =>
         latency_ms ← elapsed_ms start_time;
         let error_msg :=
           "Backend connection error during credit check: " +:+ str_exn e in
         log_request (user_id form) (catalog_id form) "error" latency_ms
           ai_provider_name (Some error_msg);;
         raise (HTTPException 503
                  ("Unable to check credits. Backend may be unavailable: "
                     +:+ str_exn e)));
  st ← get credits_result "status" VNone;
  forbidden ←
    (if eq_int st 403 then mret true
     else err ← get credits_result "error" VNone;
          mret (eq_str err "Forbidden"));
  W ← ask;
  if forbidden : bool then
    latency_ms ← elapsed_ms start_time;
    d ← get credits_result "detail" VNone;
    m ← (if truthy d then mret d else get credits_result "message" VNone);
    let error_detail := or_ m (VStr "Insufficient credits") in
    log_request (user_id form) (catalog_id form) "error" latency_ms
      ai_provider_name
      (Some ("Insufficient credits: " +:+ str_value W error_detail));;
    raise (HTTPException 403
             ("Insufficient credits: " +:+ str_value W error_detail))
  else
    has_credits ← get credits_result "has_credits" (VBool false);
    if negb (truthy has_credits) then
      latency_ms ← elapsed_ms start_time;
      d ← get credits_result "detail" VNone;
      m ← (if truthy d then mret d else get credits_result "message" VNone);
      let error_detail := or_ m (VStr "No credits available") in
      available_credits ←
        get credits_result "available_credits" (VStr "unknown");
      log_request (user_id form) (catalog_id form) "error" latency_ms
        ai_provider_name
        (Some ("No credits: " +:+ str_value W error_detail
                 +:+ " (available: " +:+ str_value W available_credits
                 +:+ ")"));;
      raise (HTTPException 403
               ("Insufficient credits: " +:+ str_value W error_detail
                  +:+ ". Available credits: "
                  +:+ str_value W available_credits))
    else mret tt.

(** The two [NamedTemporaryFile] blocks. *)
Definition stage_temp_files (user_img_data catalog_img_data : bytes)
    : M (string * string) :=
  W ← ask; lift (stage_inputs W).

(** The [finally] clause: both [os.unlink] calls sit in a [try] whose
    bare [except] passes; nothing of it is observed. *)
Definition try_finally {A} (body : M A) (cleanup : M unit) : M A :=
  fun W s =>
    match body W s with
    | (r, s') => match cleanup W s' with (_, s'') => (r, s'') end
    end.

Definition unlink_temp_files (tmp_user_path tmp_catalog_path : string)
    : M unit := mret tt.

(** Step 3: Save uploaded images temporarily and generate *)
Definition step3_generate (form : Form) (start_time : Q)
    (ai_provider_name : string) (user_img_data catalog_img_data : bytes)
    : M string :=
  try_except
    ('(tmp_user_path, tmp_catalog_path) ←
       stage_temp_files user_img_data catalog_img_data;
     try_finally
       (ai_provider ← AiProvider.get_ai_provider;
        AiProvider.generate_image ai_provider tmp_user_path tmp_catalog_path)
       (unlink_temp_files tmp_user_path tmp_catalog_path))
    (fun e =>
       if is_kind ValueError e then
         latency_ms ← elapsed_ms start_time;
         let error_msg := "Configuration error: " +:+ str_exn e in
         log_request (user_id form) (catalog_id form) "error" latency_ms
           ai_provider_name (Some error_msg);;
         raise (HTTPException 500
                  ("AI provider configuration error: " +:+ str_exn e
                     +:+ ". Please check environment variables."))
       else
         latency_ms ← elapsed_ms start_time;
         let error_msg := "Image generation failed: " +:+ str_exn e in
         log_request (user_id form) (catalog_id form) "error" latency_ms
           ai_provider_name (Some error_msg);;
         raise (HTTPException 500
                  ("Image generation failed: " +:+ str_exn e))).

(** Step 4: Save image locally; the result is [image_url]. *)
Definition step4_save (form : Form) (start_time : Q)
    (ai_provider_name : string) (generated_image_url : string) : M string :=
  try_except
    (t ← time_now;
     let filename :=
       user_id form +:+ "_" +:+ catalog_id form +:+ "_"
         +:+ pretty (int_of t) +:+ ".png" in
     local_image_path ← save_image generated_image_url filename;
     mret ("/media/" +:+ filename))
    (fun e =>
       if is_kind ClientError e then
         latency_ms ← elapsed_ms start_time;
         let error_msg := "Network error downloading image: " +:+ str_exn e in
         log_request (user_id form) (catalog_id form) "error" latency_ms
           ai_provider_name (Some error_msg);;
         raise (HTTPException 502
                  ("Failed to download generated image: " +:+ str_exn e))
       else
         latency_ms ← elapsed_ms start_time;
         let error_msg := "Image save failed: " +:+ str_exn e in
         log_request (user_id form) (catalog_id form) "error" latency_ms
           ai_provider_name (Some error_msg);;
         raise (HTTPException 500 ("Failed to save image: " +:+ str_exn e))).

(** Step 5: Send webhook to backend, and step 6: Log success and return
    response. *)
Definition step5_webhook_and_respond (form : Form) (start_time : Q)
    (ai_provider_name : string) (image_url : string) : M GenerateResponse :=
  latency_ms ← elapsed_ms start_time;
  try_except
    (self ← http_client;
     HttpClient.send_webhook self (user_id form) 1 (catalog_id form)
       image_url latency_ms;;
     mret tt)
    (fun e =>
       log_request (user_id form) (catalog_id form) "warning" latency_ms
         ai_provider_name (Some ("Webhook failed: " +:+ str_exn e)));;
  log_request (user_id form) (catalog_id form) "success" latency_ms
    ai_provider_name None;;
  mret {| status := "success"; image_url := Some image_url;
          latency_ms := latency_ms |}.

(** The outer [try] is a straight line; these are its prefixes, each
    up to the stage its name tells, with what the rest still needs. *)
Definition before_credits (form : Form) (start_time : Q)
    (ai_provider_name : string) : M (bytes * bytes) :=
  imgs ← resolve_inputs form;
  step1_verify_auth form start_time ai_provider_name;;
  mret imgs.

Definition before_generate (form : Form) (start_time : Q)
    (ai_provider_name : string) : M (bytes * bytes) :=
  imgs ← before_credits form start_time ai_provider_name;
  step2_check_credits form start_time ai_provider_name;;
  mret imgs.

Definition before_save (form : Form) (start_time : Q)
    (ai_provider_name : string) : M string :=
  '(user_img_data, catalog_img_data) ←
    before_generate form start_time ai_provider_name;
  step3_generate form start_time ai_provider_name
    user_img_data catalog_img_data.

Definition before_webhook (form : Form) (start_time : Q)
    (ai_provider_name : string) : M string :=
  generated_image_url ← before_save form start_time ai_provider_name;
  step4_save form start_time ai_provider_name generated_image_url.

(** The outer [try] after input resolution, up to the webhook. *)
Definition after_inputs (form : Form) (start_time : Q)
    (ai_provider_name : string) (imgs : bytes * bytes) : M string :=
  step1_verify_auth form start_time ai_provider_name;;
  step2_check_credits form start_time ai_provider_name;;
  generated_image_url ←
    step3_generate form start_time ai_provider_name imgs.1 imgs.2;
  step4_save form start_time ai_provider_name generated_image_url.

(** The two [except] clauses of the outer [try]. *)
Definition outer_handler (form : Form) (start_time : Q)
    (ai_provider_name : string) (e : exn) : M GenerateResponse :=
  if is_HTTPException e then raise e
  else
    latency_ms ← elapsed_ms start_time;
    let error_msg :=
      "Unexpected error (" +:+ name_exn e +:+ "): " +:+ str_exn e in
    log_request (user_id form) (catalog_id form) "error" latency_ms
      ai_provider_name (Some error_msg);;
    raise (HTTPException 500 ("Internal server error: " +:+ str_exn e)).

Definition create_image (form : Form) : M GenerateResponse :=
  start_time ← time_now;
  ai_provider_name ← getenv "AI_PROVIDER" "openai";
  try_except
    (image_url ← before_webhook form start_time ai_provider_name;
     step5_webhook_and_respond form start_time ai_provider_name image_url)
    (outer_handler form start_time ai_provider_name).

(** *** Views of the pipeline, for the statements below *)

(** The fields of one image side are there: a file, or a URL that is
    not empty. *)
Definition given (file : option UploadFile) (url : option string) : bool :=
  match file, url with
  | Some _, _ => true
  | None, Some u => negb (String.eqb u "")
  | None, None => false
  end.

Definition inputs_given (form : Form) : bool :=
  given (user_image form) (user_image_url form)
  && given (catalog_image form) (catalog_image_url form).

(** The audit record of a stage that failed at the clock reading
    [failed_at]. *)
Definition error_record (form : Form) (start_time : Q)
    (ai_provider_name : string) (failed_at : Q) (detail : string)
    : Logger.LogRecord :=
  log_record (user_id form) (catalog_id form) "error"
    ((failed_at - start_time) * 1000)%Q ai_provider_name (Some detail).

(** [d.get(key)] and [d.get(key, default)] on a dictionary. *)
Definition dict_get (d : gmap string value) (key : string) (default_ : value)
    : value := default default_ (d !! key).

(** [d.get("detail") or d.get("message") or fallback] *)
Definition detail_of (d : gmap string value) (fallback : string) : value :=
  or_ (or_ (dict_get d "detail" VNone) (dict_get d "message" VNone))
    (VStr fallback).

(** The test of step 1 on the result of [verify_auth]. *)
Definition unauthorized (d : gmap string value) : bool :=
  eq_int (dict_get d "status" VNone) 401
  || eq_str (dict_get d "error" VNone) "Unauthorized".

(** The two tests of step 2 on the result of [check_credits]. *)
Definition forbidden (d : gmap string value) : bool :=
  eq_int (dict_get d "status" VNone) 403
  || eq_str (dict_get d "error" VNone) "Forbidden".

Definition has_credits (d : gmap string value) : bool :=
  truthy (dict_get d "has_credits" (VBool false)).

Definition attribute_error : exn :=
  Raised (Failure AttributeError "AttributeError"
            "object has no attribute 'get'").

(** What provider resolution and the provider's call come to; neither
    depends on the state. *)
Definition resolved (W : World) : result AiProvider.AIProvider :=
  (AiProvider.get_ai_provider W initial).1.

Definition produced (W : World) (p : AiProvider.AIProvider)
    (user_path catalog_path : string) : result string :=
  (AiProvider.generate_image p user_path catalog_path W initial).1.

(** The two [except] clauses of step 3, for the exception [e] raised
    in state [s]. *)
Definition generation_failure (form : Form) (start_time : Q)
    (ai_provider_name : string) (W : World) (e : exn) (s : State)
    : result string * State :=
  (Raise (HTTPException 500
            (if is_kind ValueError e
             then "AI provider configuration error: " +:+ str_exn e
                    +:+ ". Please check environment variables."
             else "Image generation failed: " +:+ str_exn e)),
   logged (error_record form start_time ai_provider_name
             (time_time W (clock_reads s))
             (if is_kind ValueError e
              then "Configuration error: " +:+ str_exn e
              else "Image generation failed: " +:+ str_exn e))
     (ticked s)).

(** The file name of step 4, from the clock reading [t]. *)
Definition artifact_name (form : Form) (t : Q) : string :=
  user_id form +:+ "_" +:+ catalog_id form +:+ "_"
    +:+ pretty (int_of t) +:+ ".png".

(** The two [except] clauses of step 4. *)
Definition save_failure (form : Form) (start_time : Q)
    (ai_provider_name : string) (W : World) (e : exn) (s : State)
    : result string * State :=
  (Raise (if is_kind ClientError e
          then HTTPException 502
                 ("Failed to download generated image: " +:+ str_exn e)
          else HTTPException 500 ("Failed to save image: " +:+ str_exn e)),
   logged (error_record form start_time ai_provider_name
             (time_time W (clock_reads s))
             (if is_kind ClientError e
              then "Network error downloading image: " +:+ str_exn e
              else "Image save failed: " +:+ str_exn e))
     (ticked s)).

(** The bytes that [save_image] obtains from a result locator: decoded
    from a data URL, or downloaded. *)
Definition artifact_bytes (W : World) (image_url_or_data : string)
    : result bytes :=
  if startswith image_url_or_data "data:image" then
    match split_comma image_url_or_data with
    | None =>
        Raise (Raised (Failure ValueError "ValueError"
                         "not enough values to unpack (expected 2, got 1)"))
    | Some (_, encoded) =>
        match Base64.b64decode encoded with
        | inl f => Raise (Raised f)
        | inr image_data => Ok image_data
        end
    end
  else (download_image image_url_or_data W initial).1.

(** The two records of steps 5 and 6. *)
Definition warning_record (form : Form) (latency_ms : Q)
    (ai_provider_name : string) (e : exn) : Logger.LogRecord :=
  log_record (user_id form) (catalog_id form) "warning" latency_ms
    ai_provider_name (Some ("Webhook failed: " +:+ str_exn e)).

Definition success_record (form : Form) (latency_ms : Q)
    (ai_provider_name : string) : Logger.LogRecord :=
  log_record (user_id form) (catalog_id form) "success" latency_ms
    ai_provider_name None.

(** What a stage leaves in the audit log: nothing when it returns,
    one error record when it ends the request with an [HTTPException]
    (never the 400 of a missing input), nothing when an exception of
    another class leaves it for the outer handler. *)
Definition stage_contract {A} (form : Form) (start_time : Q)
    (ai_provider_name : string) (m : M A) : Prop :=
  ∀ W s,
    match m W s with
    | (Ok _, s') => audit s' = audit s
    | (Raise (HTTPException c _), s') =>
        c ≠ 400
        ∧ ∃ detail,
            detail ≠ ""
            ∧ audit s' =
                audit s ++
                [error_record form start_time ai_provider_name
                   (time_time W (pred (clock_reads s'))) detail]
    | (Raise (Raised _), s') => audit s' = audit s
    end.

(** The first two lines of [create_image]. *)
Definition started (W : World) : Q := time_time W 0.

Definition provider_name (W : World) : string :=
  default "openai" (environ W !! "AI_PROVIDER").

(** The call that [verify_auth] issues. *)
Definition auth_call (W : World) (form : Form) : Net.BackendCall :=
  {| Net.method := "POST";
     Net.url := HttpClient.base_url (HttpClient.make W) +:+ "/api/v1/auth/verify/";
     Net.data := Some (list_to_map [("user_id", VStr (user_id form));
                                    ("api_key", VStr (api_key form))]) |}.

(** The call that [check_credits] issues. *)
Definition credits_call (W : World) (form : Form) : Net.BackendCall :=
  {| Net.method := "GET";
     Net.url := HttpClient.base_url (HttpClient.make W)
                  +:+ ("/api/v1/credits/check/?"
                         +:+ HttpClient.urlencode_user_id (user_id form));
     Net.data := None |}.

(** The key that [get_ai_provider] looks up. *)
Definition provider_key (W : World) : string := lower (provider_name W).

Definition provider_keys : list string :=
  ["openai"; "sora"; "gemini"; "stability"].

(** What [os.getenv(name)] makes of an absent or empty variable. *)
Definition unset (W : World) (name : string) : Prop :=
  environ W !! name = None ∨ environ W !! name = Some "".

(** The three ways in which resolution fails, each a [ValueError]. *)
Definition misconfigured (W : World) (msg : string) : Prop :=
  ((provider_key W ∉ provider_keys)
   ∧ msg = "Unknown AI provider: " +:+ provider_key W)
  ∨ (provider_key W = "openai" ∧ unset W "OPENAI_API_KEY"
     ∧ msg = "OPENAI_API_KEY not found in environment variables")
  ∨ (provider_key W = "gemini" ∧ unset W "GOOGLE_API_KEY"
     ∧ msg = "GOOGLE_API_KEY not found in environment variables").

(** The HTTP status the client sees: 200 for a returned response, the
    [status_code] of a raised [HTTPException]; an exception of another
    class would reach the server's generic handler. *)
Definition http_status (r : result GenerateResponse) : option Z :=
  match r with
  | Ok _ => Some 200
  | Raise (HTTPException c _) => Some c
  | Raise (Raised _) => None
  end.

(** The audit records that are not webhook warnings. *)
Definition primary (l : list Logger.LogRecord) : list Logger.LogRecord :=
  List.filter (fun r => negb (String.eqb (Logger.status r) "warning")) l.

Definition warnings (l : list Logger.LogRecord) : list Logger.LogRecord :=
  List.filter (fun r => String.eqb (Logger.status r) "warning") l.

End Generate.

(* ===================================================================== *)
(** ** main.py: the application around the routes *)
(* ===================================================================== *)

Module Main.

Import Py.

(** What the client receives: the value of the route, sent with status
    200, or an error answer with its status code and its text. *)
Inductive Reply (A : Type) :=
  | Returned (a : A)
  | Failed (code : Z) (text : string).
Arguments Returned {A} a.
Arguments Failed {A} code text.

Definition status_code {A} (r : Reply A) : Z :=
  match r with
  | Returned _ => 200
  | Failed code _ => code
  end.

(** [main.py] builds the application with two calls of
    [app.add_middleware], [CORSMiddleware] first and [ThrottleMiddleware]
    second, and then includes the router.  Starlette's
    [build_middleware_stack] wraps the router in [ExceptionMiddleware],
    that in the user middleware (the one added last outermost), and all
    of it in [ServerErrorMiddleware]:

      ServerErrorMiddleware (ThrottleMiddleware (CORSMiddleware
        (ExceptionMiddleware router)))

    The four layers follow, innermost first. *)

(** [ExceptionMiddleware] with FastAPI's handler of [HTTPException]: an
    [HTTPException] that the route raises becomes the answer with its
    status code and detail; any other exception goes on upwards. *)
Definition ExceptionMiddleware {A} (route : result A) : result (Reply A) :=
  match route with
  | Ok a => Ok (Returned a)
  | Raise (HTTPException status_code detail) => Ok (Failed status_code detail)
  | Raise (Raised f) => Raise (Raised f)
  end.

(** [CORSMiddleware] adds headers to an answer; a [Reply] holds none. *)
Definition CORSMiddleware {A} (inner : result (Reply A)) : result (Reply A) :=
  inner.

(** [BaseHTTPMiddleware.__call__] around [ThrottleMiddleware.dispatch]:
    what [dispatch] raises leaves the middleware unchanged, there is no
    [except] clause on the way; [call_next] is the application below. *)
Definition BaseHTTPMiddleware_call {A} (self : Throttle.ThrottleMiddleware)
    (request : Throttle.Request) (current_time : Q)
    (call_next : result (Reply A))
    : result (Reply A) * Throttle.ThrottleMiddleware :=
  match Throttle.dispatch self request current_time with
  | (Throttle.Rejected e, self') => (Raise e, self')
  | (Throttle.Forwarded, self') => (call_next, self')
  end.

(** [ServerErrorMiddleware]: an exception that reaches the outermost
    layer is answered by [error_response], a plain 500. *)
Definition ServerErrorMiddleware {A} (inner : result (Reply A)) : Reply A :=
  match inner with
  | Ok r => r
  | Raise _ => Failed 500 "Internal Server Error"
  end.

(** One request to [app]: [route] is what the route of the request
    comes to when it is run, [current_time] the reading of [time.time()]
    in [dispatch]. *)
Definition app {A} (self : Throttle.ThrottleMiddleware) (route : result A)
    (request : Throttle.Request) (current_time : Q)
    : Reply A * Throttle.ThrottleMiddleware :=
  let '(answer, self') :=
    BaseHTTPMiddleware_call self request current_time
      (CORSMiddleware (ExceptionMiddleware route)) in
  (ServerErrorMiddleware answer, self').

End Main.

(* ===================================================================== *)
(** ** Concrete worlds and requests *)
(* ===================================================================== *)

Module Scenario.

Import Py.

(** [str(v)] on the scalars; the worlds below send nothing else where
    a message is built. *)
Definition render (v : value) : string :=
  match v with
  | VNone => "None"
  | VBool true => "True"
  | VBool false => "False"
  | VInt z => pretty z
  | VStr s => s
  | _ => "..."
  end.

Definition responds (status : Z) (v : value) : Net.attempt :=
  Net.RequestReturns {| Net.status := status; Net.content := Net.Json v |}.

Definition connection_refused : Net.attempt :=
  Net.RequestRaises
    (Failure ClientError "ClientConnectorError" "Cannot connect to host").

(** The backend answers its n-th attempt with the n-th entry, and
    refuses the connection once the list is used up. *)
Definition script (l : list Net.attempt) (n : nat) (_ : Net.BackendCall)
    : Net.attempt :=
  default connection_refused (l !! n).

Definition png : bytes := [x89; x50; x4e; x47; x0d; x0a; x1a; x0a].

Definition image_host (url : string) : Net.fetch :=
  Net.GetReturns 200 (inr png).

Definition world (env : gmap string string)
    (backend : nat → Net.BackendCall → Net.attempt)
    (http_get : string → Net.fetch)
    (file_write : string → option failure) : World :=
  {| environ := env;
     time_time := fun n => inject_Z (1700000000 + Z.of_nat n);
     backend := backend;
     http_get := http_get;
     local_file := fun _ => None;
     stage_inputs := inr ("/tmp/tmpuser.jpeg", "/tmp/tmpcatalog.jpeg");
     openai_generate := OpenAIReturns ["https://images.example/result.png"];
     gemini_generate :=
       inl (Failure OtherException "Exception"
              "Image generation requires Imagen API access.");
     makedirs_media := None;
     file_write := file_write;
     str_value := render |}.

Definition openai_env : gmap string string :=
  {[ "OPENAI_API_KEY" := "sk-test" ]}.

Definition form : Generate.Form :=
  {| Generate.user_id := "u1";
     Generate.api_key := "key";
     Generate.catalog_id := "c9";
     Generate.user_image := None;
     Generate.catalog_image := None;
     Generate.user_image_url := Some "https://cdn.example/user.jpg";
     Generate.catalog_image_url := Some "https://cdn.example/item.jpg" |}.

(** The same request without any user image. *)
Definition form_without_user_image : Generate.Form :=
  {| Generate.user_id := "u1";
     Generate.api_key := "key";
     Generate.catalog_id := "c9";
     Generate.user_image := None;
     Generate.catalog_image := None;
     Generate.user_image_url := None;
     Generate.catalog_image_url := Some "https://cdn.example/item.jpg" |}.

Definition authorized : Net.attempt :=
  responds 200 (VDict {[ "valid" := VBool true ]}).

Definition credits_available : Net.attempt :=
  responds 200 (VDict (list_to_map [("has_credits", VBool true);
                                    ("available_credits", VInt 5)])).

(** Auth and credits pass, then the backend is gone: the webhook
    fails. *)
Definition webhook_down : World :=
  world openai_env (script [authorized; credits_available])
    image_host (fun _ => None).

(** The auth endpoint answers 403; credits and webhook answer 200. *)
Definition auth_forbidden : World :=
  world openai_env
    (script [responds 403 (VDict {[ "detail" := VStr "API key disabled" ]});
             credits_available;
             responds 200 (VDict ∅)])
    image_host (fun _ => None).

(** Every attempt gets a 400 whose body is a JSON array, the shape of a
    validation error of Django REST framework. *)
Definition array_body : Net.attempt :=
  responds 400 (VList [VStr "Invalid input."]).

Definition validation_errors : World :=
  world openai_env (fun _ _ => array_body) image_host (fun _ => None).

(** The first attempt raises something that is neither a connection
    error nor a timeout; the second is answered. *)
Definition session_closed : Net.attempt :=
  Net.RequestRaises (Failure OtherException "RuntimeError" "Session is closed").

Definition closed_then_answered : World :=
  world openai_env (script [session_closed; authorized])
    image_host (fun _ => None).

Definition third_time_lucky : World :=
  world openai_env
    (script [connection_refused; connection_refused; authorized])
    image_host (fun _ => None).

Definition sora_configured : World :=
  world {[ "AI_PROVIDER" := "sora" ]}
    (script [authorized; credits_available]) image_host (fun _ => None).

Definition unknown_provider : World :=
  world {[ "AI_PROVIDER" := "Midjourney" ]}
    (script [authorized; credits_available]) image_host (fun _ => None).

(** The host of the generated image cannot be reached. *)
Definition result_host_down : World :=
  world openai_env (script [authorized; credits_available])
    (fun url =>
       if String.eqb url "https://images.example/result.png"
       then Net.GetRaises
              (Failure ClientError "ClientConnectorError"
                 "Cannot connect to host images.example")
       else image_host url)
    (fun _ => None).

(** The media directory cannot be written. *)
Definition disk_full : World :=
  world openai_env (script [authorized; credits_available]) image_host
    (fun _ => Some (Failure OSError "OSError" "No space left on device")).

(** The credits endpoint answers 200 without [has_credits]. *)
Definition credits_field_missing : World :=
  world openai_env
    (script [authorized; responds 200 (VDict {[ "available_credits" := VInt 0 ]})])
    image_host (fun _ => None).

Definition alice : Throttle.Request :=
  {| Throttle.client_host := Some "10.0.0.7";
     Throttle.x_user_id := Some "alice" |}.

End Scenario.

(* ===================================================================== *)
(** ** Further views and concrete cases *)
(* ===================================================================== *)

Module ThrottleViews.
Import Throttle.

(** The requests of [evs] that come from [user_id]. *)
Definition only (user_id : string) (evs : list (Q * Request))
    : list (Q * Request) :=
  List.filter (fun ev => String.eqb (identity ev.2) user_id) evs.

(** A client that sends no [X-User-ID] header. *)
Definition bob : Request :=
  {| client_host := Some "10.0.0.8"; x_user_id := None |}.

(** Alice, Bob by his address, Alice twice more. *)
Definition shared_minute : list (Q * Request) :=
  [(1%Q, Scenario.alice); (2%Q, bob); (3%Q, Scenario.alice);
   (4%Q, Scenario.alice)].

(** Four requests from one address, each under a user id of its own. *)
Definition rotating : list (Q * Request) :=
  (fun n : nat =>
     (inject_Z (Z.of_nat n),
      {| client_host := Some "10.0.0.9";
         x_user_id := Some ("guest-" +:+ pretty n) |})) <$> seq 1 4.

End ThrottleViews.

Module ClientViews.
Import Py HttpClient.

(** The delays of [_request] before the attempts [1 .. k]:
    [retry_delay * 2 ** attempt] for the attempts [0 .. k - 1]. *)
Definition backoff (self : HTTPClient) (k : nat) : list Z :=
  (fun attempt => retry_delay self * 2 ^ attempt) <$> range (Z.of_nat k).

(** What [quote_plus] makes of one byte. *)
Definition quoted (c : ascii) : string := quote_plus (String c EmptyString).

(** The characters that [quote_plus] gives out. *)
Definition url_safe (c : ascii) : bool :=
  unreserved (N_of_ascii c) || Ascii.eqb c "+" || Ascii.eqb c "%".

(** Every character of [s] passes [P]. *)
Fixpoint all_chars (P : ascii → bool) (s : string) : bool :=
  match s with
  | EmptyString => true
  | String c rest => P c && all_chars P rest
  end.

(** Two strings differ at a position that both have. *)
Fixpoint mismatch (s1 s2 : string) : bool :=
  match s1, s2 with
  | String c1 r1, String c2 r2 => negb (Ascii.eqb c1 c2) || mismatch r1 r2
  | _, _ => false
  end.

(** A client set to five attempts, two seconds apart at first, and one
    set to none. *)
Definition patient : HTTPClient :=
  {| base_url := "http://backend.internal"; timeout := 30;
     max_retries := 5; retry_delay := 2 |}.

Definition impatient : HTTPClient :=
  {| base_url := "http://backend.internal"; timeout := 30;
     max_retries := 0; retry_delay := 1 |}.

(** Two requests whose user ids differ in one character, a space
    against a plus sign. *)
Definition spaced : Generate.Form :=
  {| Generate.user_id := "u 1";
     Generate.api_key := "key";
     Generate.catalog_id := "c9";
     Generate.user_image := None;
     Generate.catalog_image := None;
     Generate.user_image_url := Some "https://cdn.example/user.jpg";
     Generate.catalog_image_url := Some "https://cdn.example/item.jpg" |}.

Definition plussed : Generate.Form :=
  {| Generate.user_id := "u+1";
     Generate.api_key := "key";
     Generate.catalog_id := "c9";
     Generate.user_image := None;
     Generate.catalog_image := None;
     Generate.user_image_url := Some "https://cdn.example/user.jpg";
     Generate.catalog_image_url := Some "https://cdn.example/item.jpg" |}.

End ClientViews.

Module PipelineViews.
Import Py Generate.

(** The call that [send_webhook] issues in step 5. *)
Definition webhook_call (W : World) (form : Form) (image_url : string)
    (latency_ms : Q) : Net.BackendCall :=
  {| Net.method := "POST";
     Net.url := HttpClient.base_url (HttpClient.make W)
                  +:+ "/api/v1/inference/webhook/";
     Net.data := Some (list_to_map
                         [("user_id", VStr (user_id form));
                          ("used_credits", VInt 1);
                          ("catalog_id", VStr (catalog_id form));
                          ("image_url", VStr image_url);
                          ("latency_ms", VFloat latency_ms)]) |}.

(** The backend calls of a stage are attempts of the auth call and of
    the credits call, and nothing else. *)
Definition calls_backend_for (form : Form) (W : World) (s s' : State) : Prop :=
  ∃ l, backend_calls s' = backend_calls s ++ l
       ∧ Forall (fun c => c = auth_call W form ∨ c = credits_call W form) l.

End PipelineViews.

Module Cases.

Import Py Scenario.

(** Auth passes; the credits endpoint answers 500. *)
Definition credits_server_error : World :=
  world openai_env
    (script [authorized;
             responds 500 (VDict {[ "error" := VStr "database is locked" ]})])
    image_host (fun _ => None).

(** The auth endpoint answers 401. *)
Definition auth_unauthorized : World :=
  world openai_env
    (script [responds 401 (VDict {[ "detail" := VStr "Invalid API key" ]})])
    image_host (fun _ => None).

(** The backend refuses every connection. *)
Definition backend_down : World :=
  world openai_env (script []) image_host (fun _ => None).

(** The hosts of the input images answer 404. *)
Definition input_host_404 : World :=
  world openai_env (script [authorized; credits_available])
    (fun _ => Net.GetReturns 404 (inr [])) (fun _ => None).

(** Auth and credits pass; the webhook endpoint answers 500. *)
Definition webhook_rejected : World :=
  world openai_env
    (script [authorized; credits_available;
             responds 500 (VDict {[ "error" := VStr "handler crashed" ]})])
    image_host (fun _ => None).

(** A request whose user id is an absolute path. *)
Definition form_absolute : Generate.Form :=
  {| Generate.user_id := "/srv/www/index";
     Generate.api_key := "key";
     Generate.catalog_id := "c9";
     Generate.user_image := None;
     Generate.catalog_image := None;
     Generate.user_image_url := Some "https://cdn.example/user.jpg";
     Generate.catalog_image_url := Some "https://cdn.example/item.jpg" |}.

(** The SDK call of OpenAI fails with an [OpenAIError]. *)
Definition openai_quota_exceeded : World :=
  {| environ := openai_env;
     time_time := fun n => inject_Z (1700000000 + Z.of_nat n);
     backend := script [authorized; credits_available];
     http_get := image_host;
     local_file := fun _ => None;
     stage_inputs := inr ("/tmp/tmpuser.jpeg", "/tmp/tmpcatalog.jpeg");
     openai_generate := OpenAIRaises true "You exceeded your current quota";
     gemini_generate :=
       inl (Failure OtherException "Exception"
              "Image generation requires Imagen API access.");
     makedirs_media := None;
     file_write := fun _ => None;
     str_value := render |}.

(** The user image is named by a path, and the server has a file
    there. *)
Definition server_file : World :=
  {| environ := openai_env;
     time_time := fun n => inject_Z (1700000000 + Z.of_nat n);
     backend := script [authorized; credits_available];
     http_get := image_host;
     local_file := fun p =>
       if String.eqb p "/etc/hostname" then Some (inr png) else None;
     stage_inputs := inr ("/tmp/tmpuser.jpeg", "/tmp/tmpcatalog.jpeg");
     openai_generate := OpenAIReturns ["https://images.example/result.png"];
     gemini_generate :=
       inl (Failure OtherException "Exception"
              "Image generation requires Imagen API access.");
     makedirs_media := None;
     file_write := fun _ => None;
     str_value := render |}.

End Cases.

Module Studio.

Import Py.

(** The two staged files are there and are images, no host can be
    reached for a download, the model answers with a prompt, and the
    Imagen endpoint answers with one prediction. *)
Definition services : Gemini.Services :=
  {| Gemini.path_exists := fun p =>
       String.eqb p "/tmp/tmpuser.jpeg" || String.eqb p "/tmp/tmpcatalog.jpeg";
     Gemini.open_read := fun _ => inr Scenario.png;
     Gemini.session_get := fun _ =>
       Gemini.GetRaises (Failure ClientError "ClientConnectorError"
                           "Cannot connect to host");
     Gemini.GenerativeModel := None;
     Gemini.PIL_open := fun _ => None;
     Gemini.generate_content := fun _ _ _ =>
       Gemini.ContentReturns (inr "a model in a red coat, three quarter angle");
     Gemini.google_auth_token :=
       inl (Failure OtherException "DefaultCredentialsError"
              "no credentials");
     Gemini.session_post := fun _ _ _ =>
       Gemini.PostReturns 200
         (inr (VDict {[ "predictions" :=
                 VList [VDict {[ "bytesBase64Encoded" :=
                                   VStr (Base64.b64encode Scenario.png) ]}] ]}));
     Gemini.str_value := Scenario.render |}.

Definition with_project : gmap string string :=
  {[ "GOOGLE_PROJECT_ID" := "tryon-prod" ]}.

Definition gemini_env : gmap string string :=
  list_to_map [("AI_PROVIDER", "gemini"); ("GOOGLE_API_KEY", "g-key")].

(** Gemini is configured, without a project. *)
Definition world : World :=
  {| environ := gemini_env;
     time_time := fun n => inject_Z (1700000000 + Z.of_nat n);
     backend := Scenario.script [Scenario.authorized; Scenario.credits_available];
     http_get := Scenario.image_host;
     local_file := fun _ => None;
     stage_inputs := inr ("/tmp/tmpuser.jpeg", "/tmp/tmpcatalog.jpeg");
     openai_generate := OpenAIReturns [];
     gemini_generate :=
       Gemini.generate_image gemini_env services (Gemini.init "g-key")
         "/tmp/tmpuser.jpeg" "/tmp/tmpcatalog.jpeg" None;
     makedirs_media := None;
     file_write := fun _ => None;
     str_value := Scenario.render |}.

End Studio.

Module Incidents.

Import Py Scenario.

(** The host of the generated image accepts the request and never
    answers: [session.get] ends in [asyncio.TimeoutError], whose [str]
    is empty. *)
Definition result_host_stalls : World :=
  world openai_env (script [authorized; credits_available])
    (fun url =>
       if String.eqb url "https://images.example/result.png"
       then Net.GetRaises (Failure TimeoutError "TimeoutError" "")
       else image_host url)
    (fun _ => None).

(** The host answers 200 and drops the connection while the body is
    read: [response.read()] raises a [ClientPayloadError]. *)
Definition result_body_cut : World :=
  world openai_env (script [authorized; credits_available])
    (fun url =>
       if String.eqb url "https://images.example/result.png"
       then Net.GetReturns 200
              (inl (Failure ClientError "ClientPayloadError"
                      "Response payload is not completed"))
       else image_host url)
    (fun _ => None).

(** The host answers 503. *)
Definition result_host_503 : World :=
  world openai_env (script [authorized; credits_available])
    (fun url =>
       if String.eqb url "https://images.example/result.png"
       then Net.GetReturns 503 (inr [])
       else image_host url)
    (fun _ => None).

(** The credits endpoint answers 200 with the flag as a string: the
    body is [{"has_credits": "false", "available_credits": 0}].  The
    webhook is answered. *)
Definition credits_flag_as_text : World :=
  world openai_env
    (script [authorized;
             responds 200 (VDict (list_to_map
                                    [("has_credits", VStr "false");
                                     ("available_credits", VInt 0)]));
             responds 200 (VDict ∅)])
    image_host (fun _ => None).

(** The credits endpoint answers 200 with the body [null]. *)
Definition credits_null_body : World :=
  world openai_env (script [authorized; responds 200 VNone])
    image_host (fun _ => None).

End Incidents.

(* ===================================================================== *)
(** ** Proofs *)
(* ===================================================================== *)

Ltac munfold :=
  unfold mbind, M_bind, mret, M_ret, try_except, raise, ask, lift, get,
    getenv, getenv_opt, time_now, asyncio_sleep, log_request in *.

Ltac mred :=
  repeat (progress (munfold; cbn beta iota zeta; cbn [fst snd])).

Section MonadFacts.
Context {A B C : Type}.

(** The three laws, pointwise in the world and the state. *)
Lemma ret_bind (a : A) (k : A → M B) W s : (mret a ≫= k) W s = k a W s.
Proof. reflexivity. Qed.

Lemma bind_ret (m : M A) W s : (m ≫= mret) W s = m W s.
Proof. unfold mbind, M_bind. by destruct (m W s) as [[a|e] s']. Qed.

Lemma bind_assoc (m : M A) (f : A → M B) (g : B → M C) W s :
  ((m ≫= f) ≫= g) W s = (m ≫= fun a => f a ≫= g) W s.
Proof. unfold mbind, M_bind. by destruct (m W s) as [[a|e] s']. Qed.

(** An exception skips the rest and reaches the handler with the state
    as the failing computation left it. *)
Lemma raise_bind (e : Py.exn) (k : A → M B) W s :
  (raise e ≫= k) W s = (Raise e, s).
Proof. reflexivity. Qed.

Lemma try_except_raise (e : Py.exn) (h : Py.exn → M A) W s :
  try_except (raise e) h W s = h e W s.
Proof. reflexivity. Qed.

Lemma try_except_ret (a : A) (h : Py.exn → M A) W s :
  try_except (mret a) h W s = (Ok a, s).
Proof. reflexivity. Qed.
End MonadFacts.

Section ThrottleFacts.
Import Throttle.

Lemma Qltb_lt (a b : Q) : Qltb a b = true ↔ (a < b)%Q.
Proof.
  unfold Qltb. rewrite negb_true_iff.
  destruct (Qle_bool b a) eqn:E.
  - apply Qle_bool_iff in E. split; [discriminate | intros H; lra].
  - split; [intros _ | reflexivity].
    apply Qnot_le_lt. intros H. apply Qle_bool_iff in H. congruence.
Qed.

Lemma newer_than_app m (l1 l2 : list Q) :
  newer_than m (l1 ++ l2) = newer_than m l1 ++ newer_than m l2.
Proof. unfold newer_than. apply List.filter_app. Qed.

(** Pruning at an earlier time loses nothing that a later pruning keeps. *)
Lemma newer_than_twice m1 m2 (l : list Q) :
  (m1 <= m2)%Q → newer_than m2 (newer_than m1 l) = newer_than m2 l.
Proof.
  intros Hm. induction l as [|t l IH]; [reflexivity|].
  simpl. destruct (Qltb m1 t) eqn:E1; simpl.
  - destruct (Qltb m2 t); [f_equal|]; exact IH.
  - destruct (Qltb m2 t) eqn:E2; [|exact IH].
    apply Qltb_lt in E2.
    assert (Qltb m1 t = true) by (apply Qltb_lt; lra). congruence.
Qed.

Lemma newer_than_idem m (l : list Q) :
  newer_than m (newer_than m l) = newer_than m l.
Proof. apply newer_than_twice. lra. Qed.

Lemma getitem_insert_eq (m : gmap string (list Q)) u l :
  getitem (<[u := l]> m) u = l.
Proof. unfold getitem. by rewrite lookup_insert_eq. Qed.

Lemma getitem_insert_ne (m : gmap string (list Q)) u u' l :
  u ≠ u' → getitem (<[u := l]> m) u' = getitem m u'.
Proof. intros. unfold getitem. by rewrite lookup_insert_ne. Qed.

Lemma getitem_cleanup self t u :
  getitem (requests (_cleanup_old_entries self t)) u
  = newer_than (t - 60)%Q (getitem (requests self) u).
Proof.
  unfold getitem, _cleanup_old_entries; simpl.
  rewrite lookup_omap. destruct (requests self !! u) as [l|]; simpl; [|done].
  by destruct (newer_than (t - 60)%Q l).
Qed.

Lemma swept_rpm self t :
  requests_per_minute (swept self t) = requests_per_minute self.
Proof. unfold swept. by destruct (Qltb _ _). Qed.

Lemma swept_view self t u :
  newer_than (t - 60)%Q (getitem (requests (swept self t)) u)
  = newer_than (t - 60)%Q (getitem (requests self) u).
Proof.
  unfold swept. destruct (Qltb _ _); [|done].
  change (newer_than (t - 60)%Q
            (getitem (requests (_cleanup_old_entries self t)) u)
          = newer_than (t - 60)%Q (getitem (requests self) u)).
  rewrite getitem_cleanup. apply newer_than_idem.
Qed.

Lemma swept_view_later self t u now :
  (t <= now)%Q →
  newer_than (now - 60)%Q (getitem (requests (swept self t)) u)
  = newer_than (now - 60)%Q (getitem (requests self) u).
Proof.
  intros Hle. unfold swept. destruct (Qltb _ _); [|done].
  change (newer_than (now - 60)%Q
            (getitem (requests (_cleanup_old_entries self t)) u)
          = newer_than (now - 60)%Q (getitem (requests self) u)).
  rewrite getitem_cleanup. apply newer_than_twice. lra.
Qed.

(** What one [dispatch] decides and what it leaves behind. *)
Lemma dispatch_spec self r t :
  let uid := identity r in
  let live := newer_than (t - 60)%Q (getitem (requests self) uid) in
  let '(o, self') := dispatch self r t in
  requests_per_minute self' = requests_per_minute self
  ∧ (∀ u, u ≠ uid →
       getitem (requests self') u = getitem (requests (swept self t)) u)
  ∧ (if Z.of_nat (length live) >=? requests_per_minute self
     then o = Rejected (Py.HTTPException 429
                          ("Rate limit exceeded. Maximum "
                             +:+ pretty (requests_per_minute self)
                             +:+ " requests per minute."))
          ∧ getitem (requests self') uid = live
     else o = Forwarded ∧ getitem (requests self') uid = live ++ [t]).
Proof.
  intros uid live. unfold dispatch. fold (swept self t). fold uid.
  unfold _is_rate_limited. rewrite swept_view, swept_rpm. fold live.
  destruct (Z.of_nat (length live) >=? requests_per_minute self) eqn:E;
    simpl; rewrite ?swept_rpm.
  - split; [done|]. split.
    + intros u Hu. by rewrite getitem_insert_ne.
    + split; [done|]. by rewrite getitem_insert_eq.
  - split; [done|]. split.
    + intros u Hu. by rewrite !getitem_insert_ne.
    + split; [done|]. by rewrite !getitem_insert_eq.
Qed.

Lemma serve_cons self t r rest :
  serve self ((t, r) :: rest)
  = ((dispatch self r t).1 :: (serve (dispatch self r t).2 rest).1,
     (serve (dispatch self r t).2 rest).2).
Proof.
  cbn [serve]. destruct (dispatch self r t) as [o self']. cbn [fst snd].
  by destruct (serve self' rest).
Qed.

Lemma serve_rpm evs : ∀ self,
  requests_per_minute (serve self evs).2 = requests_per_minute self.
Proof.
  induction evs as [|[t r] rest IH]; intros self; [done|].
  rewrite serve_cons. simpl. rewrite IH.
  pose proof (dispatch_spec self r t) as H.
  destruct (dispatch self r t) as [o self']. apply H.
Qed.

Lemma forwarded_times_in_events evs : ∀ self u t,
  t ∈ forwarded_times self evs u → t ∈ evs.*1.
Proof.
  induction evs as [|[t' r] rest IH]; intros self u t; simpl; [done|].
  destruct (dispatch self r t') as [o self'].
  destruct o; [intros H; right; eauto|].
  destruct (String.eqb _ _).
  - intros [->|H]%elem_of_cons; [left|right; eauto].
  - intros H; right; eauto.
Qed.

(** The pruned lists and the full record of forwarded requests agree on
    every window that ends at or after the latest request. *)
Lemma serve_keeps_window evs : ∀ self (h : string → list Q) (T : Q),
  (∀ u now, (T <= now)%Q →
     newer_than (now - 60)%Q (getitem (requests self) u)
     = newer_than (now - 60)%Q (h u)) →
  nondecreasing evs.*1 →
  Forall (fun t => (T <= t)%Q) evs.*1 →
  ∀ u now, (T <= now)%Q → Forall (fun t => (t <= now)%Q) evs.*1 →
    newer_than (now - 60)%Q (getitem (requests (serve self evs).2) u)
    = newer_than (now - 60)%Q (h u ++ forwarded_times self evs u).
Proof.
  induction evs as [|[t r] rest IH]; intros self h T Hinv Hsorted Hlow u now HT Hup.
  - simpl. rewrite app_nil_r. by apply Hinv.
  - rewrite serve_cons. cbn [snd].
    simpl in Hsorted, Hlow, Hup. destruct Hsorted as [Hrest Hsorted].
    apply Forall_cons in Hlow as [HTt Hlow].
    apply Forall_cons in Hup as [Htnow Hup].
    pose proof (dispatch_spec self r t) as Hd. simpl in Hd.
    simpl. destruct (dispatch self r t) as [o self'] eqn:Ed. cbn [snd].
    destruct Hd as (_ & Hother & Hme).
    set (h' := fun u' =>
           h u' ++ match o with
                   | Forwarded => if String.eqb (identity r) u' then [t] else []
                   | Rejected _ => []
                   end).
    assert (Hinv' : ∀ u' now', (t <= now')%Q →
              newer_than (now' - 60)%Q (getitem (requests self') u')
              = newer_than (now' - 60)%Q (h' u')).
    { intros u' now' Hn. unfold h'.
      destruct (String.eqb (identity r) u') eqn:Eu.
      - apply String.eqb_eq in Eu. subst u'.
        destruct (_ >=? _); destruct Hme as [-> ->].
        + rewrite app_nil_r, newer_than_twice by lra. apply Hinv; lra.
        + rewrite !newer_than_app, newer_than_twice by lra.
          f_equal. apply Hinv; lra.
      - apply String.eqb_neq in Eu.
        rewrite Hother by congruence.
        rewrite swept_view_later by lra.
        destruct o; rewrite app_nil_r; apply Hinv; lra. }
    rewrite (IH self' h' t Hinv' Hsorted Hrest u now Htnow Hup).
    f_equal. unfold h'. rewrite <- app_assoc. f_equal.
    destruct o; [done|]. by destruct (String.eqb _ _).
Qed.

Lemma in_window_newer_than now (l : list Q) :
  Forall (fun t => (t <= now)%Q) l →
  in_window now l = newer_than (now - 60)%Q l.
Proof.
  induction 1 as [|t l Ht _ IH]; [done|].
  unfold in_window, newer_than in *. simpl. rewrite IH.
  assert (E : Qle_bool t now = true) by by apply Qle_bool_iff.
  rewrite E. by rewrite andb_true_r.
Qed.

Lemma nondecreasing_app ts now :
  nondecreasing (ts ++ [now]) →
  nondecreasing ts ∧ Forall (fun t => (t <= now)%Q) ts.
Proof.
  induction ts as [|t ts IH]; simpl; [done|].
  intros [Hall Hrest]. apply Forall_app in Hall as [Hall Hnow].
  destruct (IH Hrest) as [? ?]. split; [done|].
  constructor; [|done]. by inversion Hnow.
Qed.

Lemma in_window_aged now (l : list Q) :
  Forall (fun t => (t + 60 <= now)%Q) l → in_window now l = [].
Proof.
  induction 1 as [|t l Ht _ IH]; [done|].
  unfold in_window in *. simpl. rewrite IH.
  destruct (Qltb (now - 60) t) eqn:E; [|done].
  apply Qltb_lt in E. lra.
Qed.

Lemma serve_init_window rpm t0 evs u now :
  nondecreasing (evs.*1 ++ [now]) →
  newer_than (now - 60)%Q (getitem (requests (serve (init rpm t0) evs).2) u)
  = in_window now (forwarded_times (init rpm t0) evs u).
Proof.
  intros [Hsorted Hup]%nondecreasing_app.
  rewrite in_window_newer_than.
  2:{ apply Forall_forall. intros t Ht%forwarded_times_in_events.
      rewrite Forall_forall in Hup. by apply Hup. }
  set (T := match evs.*1 with [] => now | t :: _ => t end).
  rewrite (serve_keeps_window evs (init rpm t0) (fun _ => []) T); try done.
  - destruct (evs.*1) as [|t ts] eqn:E; simpl in *; [done|].
    destruct Hsorted as [Hall _]. constructor; [unfold T; lra|done].
  - unfold T. destruct (evs.*1) as [|t ts]; [lra|]. by inversion Hup.
Qed.

(** What the application answers, by what [dispatch] decides. *)
Lemma app_cases {A} self (route : result A) r t :
  (Main.app self route r t).1
  = match (dispatch self r t).1 with
    | Rejected _ => Main.Failed 500 "Internal Server Error"
    | Forwarded => Main.ServerErrorMiddleware (Main.ExceptionMiddleware route)
    end.
Proof.
  unfold Main.app, Main.BaseHTTPMiddleware_call, Main.CORSMiddleware.
  by destruct (dispatch self r t) as [[e|] self'].
Qed.

(** C2 (the code departs from it).  The claim: a request over the
    ceiling is rejected with HTTP 429 and a message that names the
    ceiling.  What the code does, for every ceiling [rpm], every sequence
    of earlier requests and every request of identity [uid] at the clock
    reading [now], whatever the clock: let [live] be the stored readings
    of [uid] that are newer than [now - 60].  If [rpm <= length live],
    [dispatch] raises the [HTTPException] of status 429 whose detail
    names [rpm] and records nothing; the exception is raised in a
    middleware, above [ExceptionMiddleware], so the application answers
    500 "Internal Server Error" and the client sees neither the 429 nor
    the message.  If [length live < rpm], [dispatch] appends [now] to the
    readings of [uid] and the answer is that of the route.  On a clock
    that never runs backwards, [live] is the readings [t] of the
    forwarded requests of [uid] with [now - 60 < t <= now]: a reading
    that is 60 seconds old or older does not count. *)
Theorem rate_limit_rejection_is_answered_500 (A : Type) (rpm : Z) (t0 : Q)
    (evs : list (Q * Request)) (req : Request) (now : Q) (route : result A) :
  let mw := (serve (init rpm t0) evs).2 in
  let uid := identity req in
  let live := newer_than (now - 60)%Q (getitem (requests mw) uid) in
  let count := Z.of_nat (length live) in
  (rpm <= count →
     (dispatch mw req now).1
     = Rejected (Py.HTTPException 429
                   ("Rate limit exceeded. Maximum " +:+ pretty rpm
                      +:+ " requests per minute."))
     ∧ getitem (requests (dispatch mw req now).2) uid = live
     ∧ (Main.app mw route req now).1
       = Main.Failed 500 "Internal Server Error")
  ∧ (count < rpm →
     (dispatch mw req now).1 = Forwarded
     ∧ getitem (requests (dispatch mw req now).2) uid = live ++ [now]
     ∧ (Main.app mw route req now).1
       = Main.ServerErrorMiddleware (Main.ExceptionMiddleware route))
  ∧ (nondecreasing (evs.*1 ++ [now]) →
     live = in_window now (forwarded_times (init rpm t0) evs uid)).
Proof.
  intros mw uid live count.
  pose proof (dispatch_spec mw req now) as Hd. simpl in Hd.
  pose proof (app_cases mw route req now) as Happ.
  destruct (dispatch mw req now) as [o mw'] eqn:Ed. cbn [fst snd] in *.
  destruct Hd as (_ & _ & Hme). fold uid in Hme. fold live in Hme.
  assert (Hrpm : requests_per_minute mw = rpm) by apply serve_rpm.
  rewrite Hrpm in Hme. fold count in Hme.
  rewrite Z.geb_leb in Hme.
  split; [|split].
  - intros Hle. apply Z.leb_le in Hle. rewrite Hle in Hme.
    destruct Hme as [-> ->]. done.
  - intros Hlt. apply Z.leb_gt in Hlt. rewrite Hlt in Hme.
    destruct Hme as [-> ->]. done.
  - intros Hclock. by apply serve_init_window.
Qed.

Lemma rate_limit_rejection_is_answered_500_witness :
  (dispatch (serve (init 2 0) [(1%Q, Scenario.alice); (2%Q, Scenario.alice)]).2
     Scenario.alice 3).1
  = Rejected (Py.HTTPException 429
                "Rate limit exceeded. Maximum 2 requests per minute.")
  ∧ Main.status_code
      (Main.app
         (serve (init 2 0) [(1%Q, Scenario.alice); (2%Q, Scenario.alice)]).2
         (Ok tt) Scenario.alice 3).1
    = 500.
Proof.
  destruct (proj1 (rate_limit_rejection_is_answered_500 unit 2 0
                     [(1%Q, Scenario.alice); (2%Q, Scenario.alice)]
                     Scenario.alice 3 (Ok tt)))
    as (Hd & _ & Happ).
  - vm_compute. discriminate.
  - split; [exact Hd|]. rewrite Happ. reflexivity.
Defined.
End ThrottleFacts.

Section Base64Facts.
Import Base64.
#[local] Open Scope N_scope.

(** Checking a boolean property of the numbers below a bound by
    running it on each of them. *)

Lemma below_all (P : N → bool) (k : nat) :
  forallb P (below k) = true → ∀ n, n < N.of_nat k → P n = true.
Proof.
  intros H n Hn. rewrite forallb_forall in H. apply H.
  apply list_elem_of_In. unfold below. apply list_elem_of_fmap.
  exists (N.to_nat n). split; [lia|]. apply elem_of_seq. lia.
Qed.

Lemma below_all2 (P : N → N → bool) (k1 k2 : nat) :
  forallb (fun a => forallb (P a) (below k2)) (below k1) = true →
  ∀ a b, a < N.of_nat k1 → b < N.of_nat k2 → P a b = true.
Proof.
  intros H a b Ha Hb.
  apply (below_all (P a) k2); [|done].
  by apply (below_all (fun a => forallb (P a) (below k2)) k1).
Qed.

Lemma byte_lt_256 (x : byte) : Byte.to_N x < 256.
Proof. pose proof (Byte.to_N_bounded x). lia. Qed.

Lemma to_byte_to_N (x : byte) : to_byte (Byte.to_N x) = x.
Proof.
  unfold to_byte. rewrite N.mod_small by apply byte_lt_256.
  by rewrite Byte.of_to_N.
Qed.

(** A character of the alphabet decodes to its index, and is neither
    the padding character nor outside ASCII. *)
Lemma b2a_good n :
  n < 64 →
  a2b (b2a n) = Some n
  ∧ Ascii.eqb (b2a n) "="%char = false
  ∧ (N_of_ascii (b2a n) <? 128) = true.
Proof.
  intros Hn.
  assert (H : forallb
    (fun n => match a2b (b2a n) with Some m => m =? n | None => false end
              && negb (Ascii.eqb (b2a n) "="%char)
              && (N_of_ascii (b2a n) <? 128)) (below 64) = true)
    by (vm_compute; reflexivity).
  apply below_all with (n := n) in H; [|done].
  apply andb_prop in H as [H H3]. apply andb_prop in H as [H1 H2].
  destruct (a2b (b2a n)) as [m|]; [|done].
  apply N.eqb_eq in H1. subst m.
  by destruct (Ascii.eqb (b2a n) "=").
Qed.


Lemma sextets_range a b :
  a < 256 → b < 256 →
  sextet1 a < 64 ∧ sextet2 a b < 64 ∧ sextet3 a b < 64 ∧ sextet4 a < 64
  ∧ N.shiftl (N.land a 3) 4 < 64 ∧ N.shiftl (N.land a 15) 2 < 64.
Proof.
  intros Ha Hb.
  assert (H : forallb (fun a => forallb
    (fun b => (sextet1 a <? 64) && (sextet2 a b <? 64)
              && (sextet3 a b <? 64) && (sextet4 a <? 64)
              && (N.shiftl (N.land a 3) 4 <? 64)
              && (N.shiftl (N.land a 15) 2 <? 64))
    (below 256)) (below 256) = true) by (vm_compute; reflexivity).
  apply below_all2 with (a := a) (b := b) in H; [|done..].
  repeat (apply andb_prop in H as [H ?]).
  repeat split; by apply N.ltb_lt.
Qed.

(** The decoder's shifts undo the encoder's. *)
Lemma regroup a b :
  a < 256 → b < 256 →
  N.lor (N.shiftl (sextet1 a) 2) (N.shiftr (sextet2 a b) 4) = a
  ∧ N.land (sextet2 a b) 15 = N.shiftr b 4
  ∧ N.shiftr (sextet3 a b) 2 = N.land a 15
  ∧ N.land (sextet3 a b) 3 = N.shiftr b 6
  ∧ N.lor (N.shiftl (N.shiftr a 4) 4) (N.land a 15) = a
  ∧ N.lor (N.shiftl (N.shiftr a 6) 6) (sextet4 a) = a
  ∧ N.lor (N.shiftl (sextet1 a) 2) (N.shiftr (N.shiftl (N.land a 3) 4) 4) = a
  ∧ N.shiftr (N.shiftl (N.land a 15) 2) 2 = N.land a 15.
Proof.
  intros Ha Hb.
  assert (H : forallb (fun a => forallb
    (fun b =>
       (N.lor (N.shiftl (sextet1 a) 2) (N.shiftr (sextet2 a b) 4) =? a)
       && (N.land (sextet2 a b) 15 =? N.shiftr b 4)
       && (N.shiftr (sextet3 a b) 2 =? N.land a 15)
       && (N.land (sextet3 a b) 3 =? N.shiftr b 6)
       && (N.lor (N.shiftl (N.shiftr a 4) 4) (N.land a 15) =? a)
       && (N.lor (N.shiftl (N.shiftr a 6) 6) (sextet4 a) =? a)
       && (N.lor (N.shiftl (sextet1 a) 2)
             (N.shiftr (N.shiftl (N.land a 3) 4) 4) =? a)
       && (N.shiftr (N.shiftl (N.land a 15) 2) 2 =? N.land a 15))
    (below 256)) (below 256) = true) by (vm_compute; reflexivity).
  apply below_all2 with (a := a) (b := b) in H; [|done..].
  repeat (apply andb_prop in H as [H ?]).
  repeat split; by apply N.eqb_eq.
Qed.

(** One step of the decoder on a character of the alphabet. *)
Lemma loop_alphabet n rest quad_pos leftchar pads out :
  n < 64 →
  a2b_base64_loop (String (b2a n) rest) quad_pos leftchar pads out
  = match quad_pos with
    | O => a2b_base64_loop rest 1 n 0 out
    | 1%nat =>
        a2b_base64_loop rest 2 (N.land n 15) 0
          (out ++ [to_byte (N.lor (N.shiftl leftchar 2) (N.shiftr n 4))])
    | 2%nat =>
        a2b_base64_loop rest 3 (N.land n 3) 0
          (out ++ [to_byte (N.lor (N.shiftl leftchar 4) (N.shiftr n 2))])
    | _ =>
        a2b_base64_loop rest 0 0 0
          (out ++ [to_byte (N.lor (N.shiftl leftchar 6) n)])
    end.
Proof.
  intros Hn. destruct (b2a_good n Hn) as (Ha & Hpad & _).
  cbn [a2b_base64_loop]. by rewrite Hpad, Ha.
Qed.

Lemma list_ind3 {A} (P : list A → Prop) :
  P [] → (∀ a, P [a]) → (∀ a b, P [a; b]) →
  (∀ a b c l, P l → P (a :: b :: c :: l)) →
  ∀ l, P l.
Proof.
  intros H0 H1 H2 H3.
  fix IH 1. intros [|a [|b [|c l]]]; [done..|].
  apply H3, IH.
Qed.

Lemma a2b_base64_b64encode data : ∀ leftchar pads out,
  a2b_base64_loop (b64encode data) 0 leftchar pads out = inr (out ++ data).
Proof.
  induction data as [|x|x y|x y z rest IH] using list_ind3;
    intros leftchar pads out.
  - simpl. by rewrite app_nil_r.
  - pose proof (byte_lt_256 x) as Hx.
    destruct (sextets_range _ _ Hx Hx) as (S1 & _ & _ & _ & T1 & _).
    destruct (regroup _ _ Hx Hx) as (_ & _ & _ & _ & _ & _ & R & _).
    cbn [b64encode]. rewrite !loop_alphabet by done.
    rewrite R, to_byte_to_N. reflexivity.
  - pose proof (byte_lt_256 x) as Hx. pose proof (byte_lt_256 y) as Hy.
    destruct (sextets_range _ _ Hx Hy) as (S1 & S2 & _ & _ & _ & _).
    destruct (sextets_range _ _ Hy Hy) as (_ & _ & _ & _ & _ & T2).
    destruct (regroup _ _ Hx Hy) as (R1 & R2 & _ & _ & _ & _ & _ & _).
    destruct (regroup _ _ Hy Hy) as (_ & _ & _ & _ & R5 & _ & _ & R8).
    cbn [b64encode]. rewrite !loop_alphabet by done.
    rewrite R1, R2, R8, R5, !to_byte_to_N, <- app_assoc. reflexivity.
  - pose proof (byte_lt_256 x) as Hx. pose proof (byte_lt_256 y) as Hy.
    pose proof (byte_lt_256 z) as Hz.
    destruct (sextets_range _ _ Hx Hy) as (S1 & S2 & _ & _ & _ & _).
    destruct (sextets_range _ _ Hy Hz) as (_ & _ & S3 & _ & _ & _).
    destruct (sextets_range _ _ Hz Hz) as (_ & _ & _ & S4 & _ & _).
    destruct (regroup _ _ Hx Hy) as (R1 & R2 & _ & _ & _ & _ & _ & _).
    destruct (regroup _ _ Hy Hz) as (_ & _ & R3 & R4 & R5 & _ & _ & _).
    destruct (regroup _ _ Hz Hz) as (_ & _ & _ & _ & _ & R6 & _ & _).
    cbn [b64encode]. rewrite !loop_alphabet by done.
    rewrite R1, R2, R3, R5, R4, R6, !to_byte_to_N, IH, <- !app_assoc.
    reflexivity.
Qed.

Lemma is_ascii_b64encode data : is_ascii (b64encode data) = true.
Proof.
  induction data as [|x|x y|x y z rest IH] using list_ind3.
  - done.
  - pose proof (byte_lt_256 x) as Hx.
    destruct (sextets_range _ _ Hx Hx) as (S1 & _ & _ & _ & T1 & _).
    cbn [b64encode is_ascii].
    destruct (b2a_good _ S1) as (_ & _ & ->).
    destruct (b2a_good _ T1) as (_ & _ & ->). reflexivity.
  - pose proof (byte_lt_256 x) as Hx. pose proof (byte_lt_256 y) as Hy.
    destruct (sextets_range _ _ Hx Hy) as (S1 & S2 & _ & _ & _ & _).
    destruct (sextets_range _ _ Hy Hy) as (_ & _ & _ & _ & _ & T2).
    cbn [b64encode is_ascii].
    destruct (b2a_good _ S1) as (_ & _ & ->).
    destruct (b2a_good _ S2) as (_ & _ & ->).
    destruct (b2a_good _ T2) as (_ & _ & ->). reflexivity.
  - pose proof (byte_lt_256 x) as Hx. pose proof (byte_lt_256 y) as Hy.
    pose proof (byte_lt_256 z) as Hz.
    destruct (sextets_range _ _ Hx Hy) as (S1 & S2 & _ & _ & _ & _).
    destruct (sextets_range _ _ Hy Hz) as (_ & _ & S3 & _ & _ & _).
    destruct (sextets_range _ _ Hz Hz) as (_ & _ & _ & S4 & _ & _).
    cbn [b64encode is_ascii].
    destruct (b2a_good _ S1) as (_ & _ & ->).
    destruct (b2a_good _ S2) as (_ & _ & ->).
    destruct (b2a_good _ S3) as (_ & _ & ->).
    destruct (b2a_good _ S4) as (_ & _ & ->). by rewrite IH.
Qed.

Lemma b64decode_b64encode data : b64decode (b64encode data) = inr data.
Proof.
  unfold b64decode. rewrite is_ascii_b64encode.
  apply (a2b_base64_b64encode data 0 0 []).
Qed.
End Base64Facts.

Section ClientFacts.
Import Py HttpClient.

(** Reading a response neither depends on the state nor changes it. *)
Lemma read_response_pure endpoint r W s :
  read_response endpoint r W s = ((read_response endpoint r W initial).1, s).
Proof.
  unfold read_response. munfold.
  destruct (Net.content r) as [v|[f|t]]; simpl; try done;
    repeat (match goal with
            | |- context [if ?b then _ else _] => destruct b
            | |- context [match ?v with VNone => _ | _ => _ end] => destruct v
            end; simpl; try done).
Qed.

Lemma attempt_once_answer method url endpoint data W s :
  attempt_once method url endpoint data W s
  = (answer W endpoint
       (backend W (length (backend_calls s))
          {| Net.method := method; Net.url := url; Net.data := data |}),
     sent {| Net.method := method; Net.url := url; Net.data := data |} s).
Proof.
  unfold attempt_once, session_request, mbind, M_bind.
  destruct (backend W _ _) as [f|r]; simpl; [done|].
  apply read_response_pure.
Qed.

(** One turn of the loop: return, give up, or sleep and go on. *)
Lemma attempts_cons self method url endpoint data k rest last_error W s :
  let call := {| Net.method := method; Net.url := url; Net.data := data |} in
  attempts self method url endpoint data (k :: rest) last_error W s
  = match answer W endpoint (backend W (length (backend_calls s)) call) with
    | Ok v => (Ok v, sent call s)
    | Raise e =>
        if k =? max_retries self - 1
        then (Raise (gave_up self url e), sent call s)
        else attempts self method url endpoint data rest (Some (noted e)) W
               (slept (retry_delay self * 2 ^ k) (sent call s))
    end.
Proof.
  intros call. cbn [attempts]. unfold try_except.
  rewrite attempt_once_answer. fold call.
  destruct (answer W endpoint _) as [v|e]; [done|].
  unfold gave_up, noted.
  destruct (is_kind ClientError e); [|destruct (is_kind TimeoutError e)];
    destruct (k =? max_retries self - 1); done.
Qed.

(** The whole of [_request] for the client that the module builds:
    three attempts at most, a sleep of 1 and a sleep of 2 between
    them. *)
Lemma request_unrolled W s method endpoint data :
  let self := make W in
  let call := {| Net.method := method;
                 Net.url := base_url self +:+ endpoint;
                 Net.data := data |} in
  let n := length (backend_calls s) in
  _request self method endpoint data W s
  = match answer W endpoint (backend W n call) with
    | Ok v => (Ok v, sent call s)
    | Raise _ =>
        match answer W endpoint (backend W (S n) call) with
        | Ok v => (Ok v, sent call (slept 1 (sent call s)))
        | Raise _ =>
            match answer W endpoint (backend W (S (S n)) call) with
            | Ok v =>
                (Ok v, sent call (slept 2 (sent call (slept 1 (sent call s)))))
            | Raise e =>
                (Raise (gave_up self (base_url self +:+ endpoint) e),
                 sent call (slept 2 (sent call (slept 1 (sent call s)))))
            end
        end
    end.
Proof.
  intros self call n. unfold _request.
  change (range (max_retries self)) with [0; 1; 2].
  rewrite attempts_cons. fold call n.
  destruct (answer W endpoint (backend W n call)) as [v|e0]; [done|].
  change (0 =? max_retries self - 1) with false. cbn match.
  change (retry_delay self * 2 ^ 0) with 1.
  rewrite attempts_cons. fold call.
  replace (length (backend_calls (slept 1 (sent call s)))) with (S n)
    by (simpl; rewrite length_app; simpl; lia).
  destruct (answer W endpoint (backend W (S n) call)) as [v|e1]; [done|].
  change (1 =? max_retries self - 1) with false. cbn match.
  change (retry_delay self * 2 ^ 1) with 2.
  rewrite attempts_cons. fold call.
  replace (length (backend_calls
             (slept 2 (sent call (slept 1 (sent call s)))))) with (S (S n))
    by (simpl; rewrite !length_app; simpl; lia).
  destruct (answer W endpoint (backend W (S (S n)) call)) as [v|e2]; done.
Qed.

(** Exactly the responses of [returns_decision] are read without an
    exception. *)
Lemma answer_returns W endpoint r :
  returns_decision r = true
  ↔ ∃ v, answer W endpoint (Net.RequestReturns r) = Ok v.
Proof.
  unfold returns_decision, answer, read_response. munfold.
  destruct (Z.eqb_spec (Net.status r) 200) as [E200|E200];
  destruct (Z.eqb_spec (Net.status r) 401) as [E401|E401];
  destruct (Z.eqb_spec (Net.status r) 403) as [E403|E403];
  destruct (Z.eqb_spec (Net.status r) 404) as [E404|E404];
  destruct (Net.status r >=? 500) eqn:E500;
  try (exfalso; lia);
  (destruct (Net.content r) as [v|[f|t]]; simpl;
   [ destruct v; simpl
   | | destruct (String.eqb t "") ]);
  simpl; (split; [intros ?; try done; eauto | intros [? ?]; done]).
Qed.

(** Reading a 401 response with an object body or a body that is no
    JSON gives the unauthorized decision. *)
Lemma answer_401 W endpoint r :
  Net.status r = 401 → returns_decision r = true →
  ∃ d, answer W endpoint (Net.RequestReturns r) = Ok (VDict d)
       ∧ d !! "error" = Some (VStr "Unauthorized")
       ∧ d !! "status" = Some (VInt 401).
Proof.
  unfold returns_decision, answer, read_response. munfold.
  intros ->. destruct (Net.content r) as [v|[f|t]]; simpl; [|done|].
  - destruct v; simpl; try done. intros _. eexists. split; [done|].
    split; reflexivity.
  - intros _. destruct (String.eqb t ""); simpl; eexists;
      (split; [done|]); split; reflexivity.
Qed.

(** A response that is read into a value ends the call at once: one
    attempt, no delay, no exception. *)
Lemma request_returns_at_once W s method endpoint data r :
  let call := {| Net.method := method;
                 Net.url := base_url (make W) +:+ endpoint;
                 Net.data := data |} in
  backend W (length (backend_calls s)) call = Net.RequestReturns r →
  returns_decision r = true →
  ∃ v, _request (make W) method endpoint data W s = (Ok v, sent call s)
       ∧ answer W endpoint (Net.RequestReturns r) = Ok v.
Proof.
  intros call Hb Hr. rewrite request_unrolled. fold call. rewrite Hb.
  apply (answer_returns W endpoint) in Hr as [v Hv]. rewrite Hv. eauto.
Qed.

(** In particular a 401 with such a body gives the unauthorized decision
    after one attempt. *)
Lemma unauthorized_at_once W s method endpoint data r :
  let call := {| Net.method := method;
                 Net.url := base_url (make W) +:+ endpoint;
                 Net.data := data |} in
  backend W (length (backend_calls s)) call = Net.RequestReturns r →
  Net.status r = 401 → returns_decision r = true →
  ∃ d, _request (make W) method endpoint data W s = (Ok (VDict d), sent call s)
       ∧ d !! "error" = Some (VStr "Unauthorized")
       ∧ d !! "status" = Some (VInt 401).
Proof.
  intros call Hb Hs Hr. rewrite request_unrolled. fold call. rewrite Hb.
  destruct (answer_401 W endpoint r Hs Hr) as (d & -> & He & Hst). eauto.
Qed.

Lemma gave_up_not_http self url e : is_HTTPException (gave_up self url e) = false.
Proof.
  unfold gave_up.
  by destruct (is_kind ClientError e), (is_kind TimeoutError e).
Qed.

(** [_request] touches the calls and the sleeps only, and what it
    raises is never an [HTTPException]. *)
Lemma request_frame W s method endpoint data :
  let out := _request (make W) method endpoint data W s in
  audit out.2 = audit s ∧ generations out.2 = generations s
  ∧ media out.2 = media s ∧ clock_reads out.2 = clock_reads s
  ∧ match out.1 with Ok _ => True | Raise e => is_HTTPException e = false end.
Proof.
  intros out. unfold out. rewrite request_unrolled.
  repeat (match goal with
          | |- context [match answer ?W ?e ?a with _ => _ end] =>
              destruct (answer W e a)
          end); simpl; auto using gave_up_not_http.
Qed.

(** The four entries of the dictionary of an error branch. *)
Lemma decision_entries error detail status message :
  ∃ d, decision error detail status message = VDict d
       ∧ d !! "error" = Some (VStr error)
       ∧ d !! "detail" = Some detail
       ∧ d !! "status" = Some (VInt status)
       ∧ d !! "message" = Some (VStr message)
       ∧ d !! "has_credits" = None.
Proof. eexists. split; [reflexivity|]. repeat split; reflexivity. Qed.

(** A response outside 200 is read, when it is read at all, as a
    dictionary that carries its status and an ["error"] entry, and no
    ["has_credits"] entry. *)
Lemma answer_error_response W endpoint r v :
  Net.status r ≠ 200 →
  answer W endpoint (Net.RequestReturns r) = Ok v →
  ∃ d error,
    v = VDict d
    ∧ d !! "status" = Some (VInt (Net.status r))
    ∧ d !! "error" = Some (VStr error)
    ∧ d !! "has_credits" = None
    ∧ (error = "Unauthorized" ↔ Net.status r = 401)
    ∧ (error = "Forbidden" ↔ Net.status r = 403).
Proof.
  intros H200.
  unfold answer, read_response. munfold. cbn [fst].
  destruct (Z.eqb_spec (Net.status r) 200) as [E200|E200]; [done|].
  assert (Hfin : ∀ error detail status message,
            status = Net.status r →
            (error = "Unauthorized" ↔ status = 401) →
            (error = "Forbidden" ↔ status = 403) →
            Ok (decision error detail status message) = Ok v →
            ∃ d error, v = VDict d
              ∧ d !! "status" = Some (VInt (Net.status r))
              ∧ d !! "error" = Some (VStr error)
              ∧ d !! "has_credits" = None
              ∧ (error = "Unauthorized" ↔ Net.status r = 401)
              ∧ (error = "Forbidden" ↔ Net.status r = 403)).
  { intros error detail status message -> H1 H3 [= <-].
    destruct (decision_entries error detail (Net.status r) message)
      as (d & -> & He & _ & Hs & _ & Hh).
    exists d, error. done. }
  destruct (Z.eqb_spec (Net.status r) 401) as [E401|E401];
  destruct (Z.eqb_spec (Net.status r) 403) as [E403|E403];
  destruct (Z.eqb_spec (Net.status r) 404) as [E404|E404];
  destruct (Net.status r >=? 500) eqn:E500;
  try (exfalso; lia);
  (destruct (Net.content r) as [body|[f|t]]; mred;
   [ destruct body; mred; try done
   | done
   | destruct (String.eqb t ""); mred ]);
  (apply Hfin; [lia|split; intros; (done || lia)..]).
Qed.
End ClientFacts.

Section PipelineFacts.
Import Py Generate.

(** Reading an input image leaves the state alone and raises no
    [HTTPException]. *)
Lemma get_image_data_pure source W s :
  ∃ r, get_image_data source W s = (r, s)
       ∧ get_image_data source W initial = (r, initial)
       ∧ match r with Ok _ => True | Raise e => is_HTTPException e = false end.
Proof.
  unfold get_image_data, download_image, read_file_to_bytes. munfold.
  destruct source as [b|[[f|b]]|u]; simpl; eauto.
  destruct (_ || _).
  - destruct (http_get W u) as [f|st [f|b]]; simpl; eauto;
      destruct (st =? 200); simpl; eauto.
  - destruct (local_file W u) as [[f|b]|]; simpl; eauto.
Qed.

Lemma resolve_input_cases file url missing W s :
  ∃ r, resolve_input file url missing W s = (r, s)
       ∧ resolve_input file url missing W initial = (r, initial)
       ∧ match r with
         | Ok _ => given file url = true
         | Raise (HTTPException c d) =>
             given file url = false ∧ c = 400 ∧ d = missing
         | Raise (Raised _) => given file url = true
         end.
Proof.
  unfold resolve_input, given.
  destruct file as [f|]; [|destruct url as [u|]; [destruct (String.eqb u "")|]];
    cbn [negb]; try (unfold raise; eauto 10; fail).
  - unfold mbind, M_bind, mret, M_ret.
    destruct (get_image_data_pure (SrcUpload f) W s) as (r & -> & -> & Hr).
    destruct r as [b|[]]; simpl in *; eauto; done.
  - unfold mbind, M_bind, mret, M_ret.
    destruct (get_image_data_pure (SrcStr u) W s) as (r & -> & -> & Hr).
    destruct r as [b|[]]; simpl in *; eauto; done.
Qed.

(** Input resolution leaves the state alone; its only [HTTPException]
    is the 400 of a missing input. *)
Lemma resolve_inputs_cases form W s :
  ∃ r, resolve_inputs form W s = (r, s)
       ∧ match r with
         | Ok _ => inputs_given form = true
         | Raise (HTTPException c d) => inputs_given form = false ∧ c = 400
         | Raise (Raised _) => True
         end.
Proof.
  unfold resolve_inputs, inputs_given, mbind, M_bind, mret, M_ret.
  destruct (resolve_input_cases (user_image form) (user_image_url form)
    "Either user_image file or user_image_url must be provided" W s)
    as (r1 & -> & _ & H1).
  destruct r1 as [[u ?]|[c d|f]].
  - destruct (resolve_input_cases (catalog_image form) (catalog_image_url form)
      "Either catalog_image file or catalog_image_url must be provided" W s)
      as (r2 & -> & _ & H2).
    rewrite H1. destruct r2 as [[c ?]|[c d|f]]; eexists; (split; [done|]);
      simpl; try done. all: try (by destruct H2 as (-> & -> & _)).
  - destruct H1 as (H1 & -> & _). rewrite H1.
    eexists; split; [reflexivity|]. done.
  - eexists; split; [reflexivity|]. done.
Qed.

(** Step 1, by what [verify_auth] comes to. *)
Lemma step1_cases form start_time name W s :
  let out := HttpClient.verify_auth (HttpClient.make W)
               (user_id form) (api_key form) W s in
  let failed_at := time_time W (clock_reads out.2) in
  step1_verify_auth form start_time name W s
  = match out.1 with
    | Raise e =>
        (Raise (HTTPException 503
                  ("Unable to verify authentication. Backend may be unavailable: "
                     +:+ str_exn e)),
         logged (error_record form start_time name failed_at
                   ("Backend connection error during auth: " +:+ str_exn e))
           (ticked out.2))
    | Ok (VDict d) =>
        if unauthorized d
        then
          (Raise (HTTPException 401
                    ("Authentication failed: "
                       +:+ str_value W (detail_of d "Invalid user_id or api_key"))),
           logged (error_record form start_time name failed_at
                     ("Unauthorized: "
                        +:+ str_value W (detail_of d "Invalid user_id or api_key")))
             (ticked out.2))
        else (Ok tt, out.2)
    | Ok _ => (Raise attribute_error, out.2)
    end.
Proof.
  intros out failed_at. unfold step1_verify_auth, http_client, HttpClient.init.
  unfold elapsed_ms. mred.
  fold out. destruct out as [[v|e] s1] eqn:Eout; cbn [fst snd] in *; [|done].
  destruct v; mred; try done.
  unfold unauthorized, detail_of, dict_get, or_, error_record.
  destruct (eq_int (default VNone (d !! "status")) 401); cbn [orb]; mred;
    [|destruct (eq_str (default VNone (d !! "error")) "Unauthorized"); mred];
    try done;
    destruct (truthy (default VNone (d !! "detail"))) eqn:Ed;
    mred; rewrite ?Ed; done.
Qed.

(** Step 2, by what [check_credits] comes to. *)
Lemma step2_cases form start_time name W s :
  let out := HttpClient.check_credits (HttpClient.make W) (user_id form) W s in
  let failed_at := time_time W (clock_reads out.2) in
  step2_check_credits form start_time name W s
  = match out.1 with
    | Raise e =>
        (Raise (HTTPException 503
                  ("Unable to check credits. Backend may be unavailable: "
                     +:+ str_exn e)),
         logged (error_record form start_time name failed_at
                   ("Backend connection error during credit check: "
                      +:+ str_exn e))
           (ticked out.2))
    | Ok (VDict d) =>
        if forbidden d
        then
          (Raise (HTTPException 403
                    ("Insufficient credits: "
                       +:+ str_value W (detail_of d "Insufficient credits"))),
           logged (error_record form start_time name failed_at
                     ("Insufficient credits: "
                        +:+ str_value W (detail_of d "Insufficient credits")))
             (ticked out.2))
        else if has_credits d then (Ok tt, out.2)
        else
          (Raise (HTTPException 403
                    ("Insufficient credits: "
                       +:+ str_value W (detail_of d "No credits available")
                       +:+ ". Available credits: "
                       +:+ str_value W
                             (dict_get d "available_credits" (VStr "unknown")))),
           logged (error_record form start_time name failed_at
                     ("No credits: "
                        +:+ str_value W (detail_of d "No credits available")
                        +:+ " (available: "
                        +:+ str_value W
                              (dict_get d "available_credits" (VStr "unknown"))
                        +:+ ")"))
             (ticked out.2))
    | Ok _ => (Raise attribute_error, out.2)
    end.
Proof.
  intros out failed_at.
  unfold step2_check_credits, http_client, HttpClient.init, elapsed_ms. mred.
  fold out. destruct out as [[v|e] s1] eqn:Eout; cbn [fst snd] in *; [|done].
  destruct v; mred; try done.
  unfold forbidden, has_credits, detail_of, dict_get, or_, error_record.
  destruct (eq_int (default VNone (d !! "status")) 403); cbn [orb]; mred;
    [|destruct (eq_str (default VNone (d !! "error")) "Forbidden"); mred;
      [|destruct (truthy (default (VBool false) (d !! "has_credits")));
        cbn [negb]; mred]];
    try done;
    destruct (truthy (default VNone (d !! "detail"))) eqn:Ed;
    mred; rewrite ?Ed; done.
Qed.

Lemma get_ai_provider_pure W s :
  AiProvider.get_ai_provider W s = (resolved W, s).
Proof.
  unfold resolved, AiProvider.get_ai_provider. mred.
  destruct (AiProvider.providers !! _) as [c|] eqn:E; [|done].
  revert E. unfold AiProvider.providers.
  set (name := lower _). intros E.
  assert (Hc : c = AiProvider.OpenAIProvider_init
               ∨ c = mret AiProvider.SoraProvider
               ∨ c = AiProvider.GeminiProvider_init
               ∨ c = mret AiProvider.StabilityProvider).
  { apply elem_of_list_to_map_2 in E.
    repeat (apply elem_of_cons in E as [E|E]; [inversion E; auto|]).
    by apply elem_of_nil in E. }
  clear E. clearbody name.
  destruct Hc as [-> | [-> | [-> | ->]]]; try done;
    unfold AiProvider.OpenAIProvider_init, AiProvider.GeminiProvider_init;
    mred;
    match goal with
    | |- context [environ W !! ?key] =>
        destruct (environ W !! key) as [k|]; [|done]
    end;
    by destruct (String.eqb k "").
Qed.

Lemma generate_image_pure p user_path catalog_path W s :
  AiProvider.generate_image p user_path catalog_path W s
  = (produced W p user_path catalog_path, generated s).
Proof.
  unfold produced, AiProvider.generate_image, AiProvider.enter_generate. mred.
  destruct p; try done.
  - destruct (openai_generate W) as [b msg|urls]; [by destruct b|by destruct urls].
  - by destruct (gemini_generate W).
Qed.

(** Step 3, by what staging, resolution and the provider come to. *)
Lemma step3_cases form start_time name user_img catalog_img W s :
  step3_generate form start_time name user_img catalog_img W s
  = match stage_inputs W with
    | inl f => generation_failure form start_time name W (Raised f) s
    | inr (user_path, catalog_path) =>
        match resolved W with
        | Raise e => generation_failure form start_time name W e s
        | Ok p =>
            match produced W p user_path catalog_path with
            | Ok url => (Ok url, generated s)
            | Raise e =>
                generation_failure form start_time name W e (generated s)
            end
        end
    end.
Proof.
  unfold step3_generate, stage_temp_files, try_finally, unlink_temp_files,
    generation_failure, elapsed_ms. mred.
  destruct (stage_inputs W) as [f|[user_path catalog_path]]; mred.
  - by destruct (is_kind ValueError (Raised f)).
  - rewrite get_ai_provider_pure. destruct (resolved W) as [p|e]; mred.
    + rewrite generate_image_pure.
      destruct (produced W p user_path catalog_path) as [url|e]; mred;
        [done|]. by destruct (is_kind ValueError e).
    + by destruct (is_kind ValueError e).
Qed.

(** [save_image]: the directory, the bytes, the write. *)
Lemma save_image_cases image_url_or_data filename W s :
  save_image image_url_or_data filename W s
  = match makedirs_media W with
    | Some f => (Raise (Raised f), s)
    | None =>
        match artifact_bytes W image_url_or_data with
        | Raise e => (Raise e, s)
        | Ok image_data =>
            match file_write W (media_path filename) with
            | Some f => (Raise (Raised f), s)
            | None =>
                (Ok (media_path filename),
                 wrote (media_path filename) image_data s)
            end
        end
    end.
Proof.
  unfold save_image, makedirs, artifact_bytes, write_file, download_image.
  mred. destruct (makedirs_media W) as [f|]; [done|]. mred.
  destruct (startswith image_url_or_data "data:image").
  - destruct (split_comma image_url_or_data) as [[header encoded]|]; [|done].
    mred. destruct (Base64.b64decode encoded) as [f|image_data]; [done|].
    mred. by destruct (file_write W (media_path filename)).
  - mred. destruct (http_get W image_url_or_data) as [f|st [f|b]]; mred;
      try done; destruct (st =? 200); mred; try done;
      by destruct (file_write W (media_path filename)).
Qed.

(** Step 4, by what [save_image] comes to. *)
Lemma step4_cases form start_time name generated_image_url W s :
  let filename := artifact_name form (time_time W (clock_reads s)) in
  let out := save_image generated_image_url filename W (ticked s) in
  step4_save form start_time name generated_image_url W s
  = match out.1 with
    | Ok _ => (Ok ("/media/" +:+ filename), out.2)
    | Raise e => save_failure form start_time name W e out.2
    end.
Proof.
  intros filename out.
  unfold step4_save, save_failure, elapsed_ms. mred.
  fold (artifact_name form (time_time W (clock_reads s))). fold filename.
  fold out. destruct out as [[path|e] s1]; mred; [done|].
  by destruct (is_kind ClientError e).
Qed.

(** Steps 5 and 6, by what [send_webhook] comes to. *)
Lemma step5_cases form start_time name image_url W s :
  let latency := ((time_time W (clock_reads s) - start_time) * 1000)%Q in
  let out := HttpClient.send_webhook (HttpClient.make W) (user_id form) 1
               (catalog_id form) image_url latency W (ticked s) in
  step5_webhook_and_respond form start_time name image_url W s
  = (Ok {| status := "success"; image_url := Some image_url;
           latency_ms := latency |},
     logged (success_record form latency name)
       match out.1 with
       | Ok _ => out.2
       | Raise e => logged (warning_record form latency name e) out.2
       end).
Proof.
  intros latency out.
  unfold step5_webhook_and_respond, http_client, HttpClient.init, elapsed_ms.
  mred. fold latency. fold out.
  by destruct out as [[v|e] s1].
Qed.

Lemma nonempty_append (prefix rest : string) :
  prefix ≠ "" → prefix +:+ rest ≠ "".
Proof. by destruct prefix. Qed.

Lemma stage_contract_bind {A B} form start_time name (m : M A) (k : A → M B) :
  stage_contract form start_time name m →
  (∀ a, stage_contract form start_time name (k a)) →
  stage_contract form start_time name (m ≫= k).
Proof.
  intros Hm Hk W s. unfold mbind, M_bind. specialize (Hm W s).
  destruct (m W s) as [[a|[c d|f]] s1]; [|done..].
  specialize (Hk a W s1). rewrite <- Hm.
  by destruct (k a W s1) as [[b|[c d|f]] s2].
Qed.

Lemma stage_contract_step1 form start_time name :
  stage_contract form start_time name (step1_verify_auth form start_time name).
Proof.
  intros W s. rewrite step1_cases.
  destruct (request_frame W s "POST" "/api/v1/auth/verify/"
              (Some (list_to_map [("user_id", VStr (user_id form));
                                  ("api_key", VStr (api_key form))])))
    as (Ha & _).
  fold (HttpClient.verify_auth (HttpClient.make W) (user_id form) (api_key form))
    in Ha.
  destruct (HttpClient.verify_auth _ _ _ W s) as [[v|e] s1]; cbn [fst snd] in *.
  - destruct v; try done. destruct (unauthorized d); [|done].
    split; [done|]. eexists. split; [|by rewrite <- Ha].
    by apply nonempty_append.
  - split; [done|]. eexists. split; [|by rewrite <- Ha].
    by apply nonempty_append.
Qed.

Lemma stage_contract_step2 form start_time name :
  stage_contract form start_time name (step2_check_credits form start_time name).
Proof.
  intros W s. rewrite step2_cases.
  destruct (request_frame W s "GET"
              ("/api/v1/credits/check/?"
                 +:+ HttpClient.urlencode_user_id (user_id form)) None)
    as (Ha & _).
  fold (HttpClient.check_credits (HttpClient.make W) (user_id form)) in Ha.
  destruct (HttpClient.check_credits _ _ W s) as [[v|e] s1]; cbn [fst snd] in *.
  - destruct v; try done.
    destruct (forbidden d); [|destruct (has_credits d); [done|]];
      (split; [done|]); eexists; (split; [|by rewrite <- Ha]);
      by apply nonempty_append.
  - split; [done|]. eexists. split; [|by rewrite <- Ha].
    by apply nonempty_append.
Qed.

Lemma generation_failure_contract form start_time name W e s :
  match generation_failure form start_time name W e s with
  | (Raise (HTTPException c _), s') =>
      c ≠ 400
      ∧ ∃ detail,
          detail ≠ ""
          ∧ audit s' =
              audit s ++
              [error_record form start_time name
                 (time_time W (pred (clock_reads s'))) detail]
  | _ => False
  end.
Proof.
  unfold generation_failure. split; [done|]. eexists. split; [|done].
  destruct (is_kind ValueError e); by apply nonempty_append.
Qed.

Lemma stage_contract_step3 form start_time name user_img catalog_img :
  stage_contract form start_time name
    (step3_generate form start_time name user_img catalog_img).
Proof.
  intros W s. rewrite step3_cases.
  destruct (stage_inputs W) as [f|[user_path catalog_path]].
  - apply generation_failure_contract.
  - destruct (resolved W) as [p|e]; [|apply generation_failure_contract].
    destruct (produced W p user_path catalog_path) as [url|e]; [done|].
    apply (generation_failure_contract form start_time name W e (generated s)).
Qed.

Lemma save_image_frame image_url_or_data filename W s :
  let out := save_image image_url_or_data filename W s in
  audit out.2 = audit s ∧ generations out.2 = generations s
  ∧ clock_reads out.2 = clock_reads s
  ∧ backend_calls out.2 = backend_calls s ∧ sleeps out.2 = sleeps s.
Proof.
  intros out. unfold out. rewrite save_image_cases.
  destruct (makedirs_media W); [done|].
  destruct (artifact_bytes W image_url_or_data); [|done].
  by destruct (file_write W (media_path filename)).
Qed.

Lemma stage_contract_step4 form start_time name generated_image_url :
  stage_contract form start_time name
    (step4_save form start_time name generated_image_url).
Proof.
  intros W s. rewrite step4_cases.
  destruct (save_image_frame generated_image_url
              (artifact_name form (time_time W (clock_reads s))) W (ticked s))
    as (Ha & _).
  change (audit (ticked s)) with (audit s) in Ha.
  destruct (save_image _ _ W (ticked s)) as [[path|e] s1]; cbn [fst snd] in *.
  - done.
  - unfold save_failure.
    destruct (is_kind ClientError e); (split; [done|]); eexists;
      (split; [|by rewrite <- Ha]); by apply nonempty_append.
Qed.

Create HintDb stages.
#[local] Hint Resolve stage_contract_step1 stage_contract_step2
  stage_contract_step3 stage_contract_step4 : stages.
#[local] Hint Extern 1 (stage_contract _ _ _ (_ ≫= _)) =>
  apply stage_contract_bind; [|intros ?] : stages.

Lemma stage_contract_after_inputs form start_time name imgs :
  stage_contract form start_time name (after_inputs form start_time name imgs).
Proof. unfold after_inputs. auto with stages. Qed.

(** The pipeline up to the webhook is input resolution, then the four
    stages. *)
Lemma before_webhook_split form start_time name W s :
  before_webhook form start_time name W s
  = (resolve_inputs form ≫= after_inputs form start_time name) W s.
Proof.
  unfold before_webhook, before_save, before_generate, before_credits,
    after_inputs. unfold mbind, M_bind, mret, M_ret.
  destruct (resolve_inputs form W s) as [[[u c]|e] s0]; [|done].
  destruct (step1_verify_auth form start_time name W s0) as [[[]|e] s1]; [|done].
  destruct (step2_check_credits form start_time name W s1) as [[[]|e] s2];
    [|done].
  cbn [fst snd].
  by destruct (step3_generate form start_time name u c W s2) as [[g|e] s3].
Qed.

(** [create_image] is the pipeline up to the webhook, then either the
    webhook and the response or the outer handler. *)
Lemma create_image_unfold form W :
  create_image form W initial
  = match before_webhook form (started W) (provider_name W) W (ticked initial) with
    | (Ok image_url, s1) =>
        step5_webhook_and_respond form (started W) (provider_name W)
          image_url W s1
    | (Raise e, s1) =>
        outer_handler form (started W) (provider_name W) e W s1
    end.
Proof.
  unfold create_image, started, provider_name. mred.
  destruct (before_webhook _ _ _ W (ticked initial)) as [[url|e] s1]; [|done].
  change (clock_reads initial) with 0%nat. by rewrite step5_cases.
Qed.

Lemma outer_handler_cases form start_time name e W s :
  outer_handler form start_time name e W s
  = match e with
    | HTTPException _ _ => (Raise e, s)
    | Raised f =>
        (Raise (HTTPException 500 ("Internal server error: " +:+ str_exn e)),
         logged (error_record form start_time name
                   (time_time W (clock_reads s))
                   ("Unexpected error (" +:+ name_exn e +:+ "): "
                      +:+ str_exn e))
           (ticked s))
    end.
Proof. unfold outer_handler, elapsed_ms. by destruct e. Qed.

(** The audit trail of every path through [create_image]: a returned
    response comes with the success record, after at most the warning
    of the webhook; a raised one is an [HTTPException], with exactly one
    error record unless it is the 400 of a missing input, which comes
    with no record at all. *)
Lemma create_image_audit_trail form W :
  let out := create_image form W initial in
  match out.1 with
  | Ok resp =>
      status resp = "success"
      ∧ (audit out.2
         = [success_record form (latency_ms resp) (provider_name W)]
         ∨ ∃ e, audit out.2
                = [warning_record form (latency_ms resp) (provider_name W) e;
                   success_record form (latency_ms resp) (provider_name W)])
  | Raise (HTTPException c _) =>
      (c = 400 ∧ inputs_given form = false ∧ audit out.2 = [])
      ∨ (c ≠ 400
         ∧ ∃ failed_at detail,
             detail ≠ ""
             ∧ audit out.2
               = [error_record form (started W) (provider_name W)
                    failed_at detail])
  | Raise (Raised _) => False
  end.
Proof.
  intros out. unfold out. rewrite create_image_unfold, before_webhook_split.
  unfold mbind, M_bind.
  destruct (resolve_inputs_cases form W (ticked initial)) as (r & -> & Hr).
  destruct r as [imgs|[c d|f]].
  - pose proof (stage_contract_after_inputs form (started W) (provider_name W)
                  imgs W (ticked initial)) as Hc.
    destruct (after_inputs _ _ _ imgs W (ticked initial)) as [[url|[c d|f]] s1].
    + rewrite step5_cases. cbn [fst snd status latency_ms].
      split; [done|].
      match goal with
      | |- context [HttpClient.send_webhook ?c ?u ?n ?k ?i ?l W ?s] =>
          destruct (request_frame W s "POST" "/api/v1/inference/webhook/"
            (Some (list_to_map
               [("user_id", VStr u); ("used_credits", VInt n);
                ("catalog_id", VStr k); ("image_url", VStr i);
                ("latency_ms", VFloat l)]))) as (Ha & _);
          fold (HttpClient.send_webhook c u n k i l) in Ha;
          destruct (HttpClient.send_webhook c u n k i l W s) as [[v|e] s2]
      end; cbn [fst snd audit logged ticked initial] in *;
        rewrite ?Ha, Hc; eauto.
    + rewrite outer_handler_cases. cbn [fst snd]. right.
      destruct Hc as (Hc & detail & Hd & ->). eauto.
    + rewrite outer_handler_cases. cbn [fst snd audit logged ticked]. right.
      split; [done|]. rewrite Hc. do 2 eexists. split; [|done].
      by apply nonempty_append.
  - rewrite outer_handler_cases. cbn [fst snd]. left.
    by destruct Hr as (? & ->).
  - rewrite outer_handler_cases. cbn [fst snd audit logged]. right.
    split; [done|]. do 2 eexists. split; [|done]. by apply nonempty_append.
Qed.

(** Steps 1 and 2 leave the generation count and the media alone. *)
Lemma step1_frame form start_time name W s :
  let out := step1_verify_auth form start_time name W s in
  generations out.2 = generations s ∧ media out.2 = media s.
Proof.
  intros out. unfold out. rewrite step1_cases.
  destruct (request_frame W s "POST" "/api/v1/auth/verify/"
              (Some (list_to_map [("user_id", VStr (user_id form));
                                  ("api_key", VStr (api_key form))])))
    as (_ & Hg & Hm & _).
  fold (HttpClient.verify_auth (HttpClient.make W) (user_id form) (api_key form))
    in Hg, Hm.
  destruct (HttpClient.verify_auth _ _ _ W s) as [[v|e] s1]; cbn [fst snd] in *;
    [|done]. destruct v; try done. by destruct (unauthorized d).
Qed.

Lemma step2_frame form start_time name W s :
  let out := step2_check_credits form start_time name W s in
  generations out.2 = generations s ∧ media out.2 = media s.
Proof.
  intros out. unfold out. rewrite step2_cases.
  destruct (request_frame W s "GET"
              ("/api/v1/credits/check/?"
                 +:+ HttpClient.urlencode_user_id (user_id form)) None)
    as (_ & Hg & Hm & _).
  fold (HttpClient.check_credits (HttpClient.make W) (user_id form)) in Hg, Hm.
  destruct (HttpClient.check_credits _ _ W s) as [[v|e] s1]; cbn [fst snd] in *;
    [|done]. destruct v; try done.
  by destruct (forbidden d), (has_credits d).
Qed.

(** A request that reaches the credits stage has logged nothing and
    generated nothing. *)
Lemma before_credits_ok form start_time name W s imgs s1 :
  before_credits form start_time name W s = (Ok imgs, s1) →
  audit s1 = audit s ∧ generations s1 = generations s.
Proof.
  unfold before_credits, mbind, M_bind, mret, M_ret. intros H.
  destruct (resolve_inputs_cases form W s) as (r & Hr & _). rewrite Hr in H.
  destruct r as [i|e]; [|done].
  pose proof (stage_contract_step1 form start_time name W s) as Hc.
  pose proof (step1_frame form start_time name W s) as [Hg _].
  destruct (step1_verify_auth form start_time name W s) as [[[]|e] s'];
    [|done]. injection H as <- <-. done.
Qed.

Lemma before_generate_ok form start_time name W s imgs s1 :
  before_generate form start_time name W s = (Ok imgs, s1) →
  audit s1 = audit s ∧ generations s1 = generations s.
Proof.
  unfold before_generate, mbind, M_bind, mret, M_ret. intros H.
  destruct (before_credits form start_time name W s) as [[i|e] s0] eqn:E;
    [|done].
  apply before_credits_ok in E as [Ha Hg].
  pose proof (stage_contract_step2 form start_time name W s0) as Hc.
  pose proof (step2_frame form start_time name W s0) as [Hg' _].
  destruct (step2_check_credits form start_time name W s0) as [[[]|e] s'];
    [|done]. injection H as <- <-. cbn [snd] in *. split; congruence.
Qed.

Lemma before_save_ok form start_time name W s g s1 :
  before_save form start_time name W s = (Ok g, s1) →
  audit s1 = audit s.
Proof.
  unfold before_save, mbind, M_bind. intros H.
  destruct (before_generate form start_time name W s) as [[[u c]|e] s0] eqn:E;
    [|done].
  apply before_generate_ok in E as [Ha _].
  pose proof (stage_contract_step3 form start_time name u c W s0) as Hc.
  rewrite H in Hc. congruence.
Qed.

(** A stage that raises hands the request to the outer handler. *)
Lemma create_image_fails_at_credits form W imgs s1 e s2 :
  before_credits form (started W) (provider_name W) W (ticked initial)
  = (Ok imgs, s1) →
  step2_check_credits form (started W) (provider_name W) W s1 = (Raise e, s2) →
  create_image form W initial
  = outer_handler form (started W) (provider_name W) e W s2.
Proof.
  intros Hpre Hstep. rewrite create_image_unfold.
  unfold before_webhook, before_save, before_generate, mbind, M_bind.
  by rewrite Hpre, Hstep.
Qed.

Lemma create_image_fails_at_generate form W imgs s1 e s2 :
  before_generate form (started W) (provider_name W) W (ticked initial)
  = (Ok imgs, s1) →
  step3_generate form (started W) (provider_name W) imgs.1 imgs.2 W s1
  = (Raise e, s2) →
  create_image form W initial
  = outer_handler form (started W) (provider_name W) e W s2.
Proof.
  intros Hpre Hstep. rewrite create_image_unfold.
  unfold before_webhook, before_save, mbind, M_bind.
  rewrite Hpre. destruct imgs as [u c]. cbn [fst snd] in Hstep.
  by rewrite Hstep.
Qed.

Lemma create_image_fails_at_save form W g s1 e s2 :
  before_save form (started W) (provider_name W) W (ticked initial)
  = (Ok g, s1) →
  step4_save form (started W) (provider_name W) g W s1 = (Raise e, s2) →
  create_image form W initial
  = outer_handler form (started W) (provider_name W) e W s2.
Proof.
  intros Hpre Hstep. rewrite create_image_unfold.
  unfold before_webhook, mbind, M_bind. by rewrite Hpre, Hstep.
Qed.
End PipelineFacts.

Section Claims.
Import Py Generate.

(** C1 (the code departs from it).  The claim: every terminal path of
    [create_image] writes exactly one primary audit record, the failure
    of input resolution included.  What the code does at a request with
    no user image (neither file nor URL): it ends with the 400 response
    and the audit log is empty, in every world; no backend call is
    made.  [create_image_audit_trail] shows that every other path writes
    its one record. *)
Theorem missing_input_leaves_no_audit_record (W : World) (form : Form) :
  given (user_image form) (user_image_url form) = false →
  let out := create_image form W initial in
  out.1 = Raise (HTTPException 400
                   "Either user_image file or user_image_url must be provided")
  ∧ audit out.2 = []
  ∧ primary (audit out.2) = []
  ∧ backend_calls out.2 = [].
Proof.
  intros Hmissing out. unfold out.
  rewrite create_image_unfold, before_webhook_split.
  unfold mbind, M_bind, resolve_inputs, resolve_input, given in *.
  destruct (user_image form); [done|].
  destruct (user_image_url form) as [u|]; [destruct (String.eqb u ""); [|done]|];
    unfold mbind, M_bind, raise; rewrite outer_handler_cases; done.
Qed.

Lemma missing_input_leaves_no_audit_record_witness :
  (create_image Scenario.form_without_user_image Scenario.webhook_down initial).1
  = Raise (HTTPException 400
             "Either user_image file or user_image_url must be provided")
  ∧ audit (create_image Scenario.form_without_user_image
             Scenario.webhook_down initial).2 = [].
Proof.
  pose proof (missing_input_leaves_no_audit_record Scenario.webhook_down
                Scenario.form_without_user_image eq_refl) as H.
  split; apply H.
Defined.

(** A pipeline that reaches the webhook has logged nothing, and its
    image URL is a path under [/media/]. *)
Lemma before_webhook_ok form start_time name W s image_url s1 :
  before_webhook form start_time name W s = (Ok image_url, s1) →
  audit s1 = audit s ∧ ∃ filename, image_url = "/media/" +:+ filename.
Proof.
  intros H. split.
  - rewrite before_webhook_split in H. unfold mbind, M_bind in H.
    destruct (resolve_inputs_cases form W s) as (r & Hr & _).
    rewrite Hr in H. destruct r as [imgs|e]; [|done].
    pose proof (stage_contract_after_inputs form start_time name imgs W s) as Hc.
    by rewrite H in Hc.
  - unfold before_webhook, mbind, M_bind in H.
    destruct (before_save form start_time name W s) as [[g|e] s0]; [|done].
    rewrite step4_cases in H.
    destruct (save_image _ _ W (ticked s0)) as [[path|e] s0']; cbn [fst snd] in H.
    + injection H as <- _. eauto.
    + unfold save_failure in H. by destruct (is_kind ClientError e).
Qed.

(** C3.  For every request whose stages before the webhook all return
    (auth and credits pass, generation and persistence succeed) and
    whose webhook call raises an exception [e], [create_image] returns
    status ["success"] with the image URL set (a path under [/media/]),
    and the audit log is exactly the warning record of the webhook
    failure followed by the success record: no record has the outcome
    ["error"]. *)
Theorem webhook_failure_keeps_success (W : World) (form : Form)
    (image_url : string) (s1 s2 : State) (e : exn) :
  let latency := ((time_time W (clock_reads s1) - started W) * 1000)%Q in
  before_webhook form (started W) (provider_name W) W (ticked initial)
  = (Ok image_url, s1) →
  HttpClient.send_webhook (HttpClient.make W) (user_id form) 1
    (catalog_id form) image_url latency W (ticked s1) = (Raise e, s2) →
  let out := create_image form W initial in
  out.1 = Ok {| status := "success"; image_url := Some image_url;
                latency_ms := latency |}
  ∧ image_url ≠ ""
  ∧ audit out.2
    = [warning_record form latency (provider_name W) e;
       success_record form latency (provider_name W)]
  ∧ Logger.status (warning_record form latency (provider_name W) e) = "warning"
  ∧ Logger.status (success_record form latency (provider_name W)) = "success"
  ∧ Forall (fun r => Logger.status r ≠ "error") (audit out.2).
Proof.
  intros latency Hpre Hweb out. unfold out.
  rewrite create_image_unfold, Hpre, step5_cases. fold latency.
  rewrite Hweb. cbn [fst snd audit logged].
  destruct (before_webhook_ok _ _ _ _ _ _ _ Hpre) as (Ha & filename & ->).
  match type of Hweb with
  | HttpClient.send_webhook ?c ?u ?n ?k ?i ?l W ?s = _ =>
      destruct (request_frame W s "POST" "/api/v1/inference/webhook/"
        (Some (list_to_map
           [("user_id", VStr u); ("used_credits", VInt n);
            ("catalog_id", VStr k); ("image_url", VStr i);
            ("latency_ms", VFloat l)]))) as (Hf & _);
      fold (HttpClient.send_webhook c u n k i l) in Hf;
      rewrite Hweb in Hf
  end.
  cbn [fst snd audit ticked initial] in *. rewrite Hf, Ha.
  repeat split; try done. repeat constructor; done.
Qed.

Lemma webhook_failure_keeps_success_witness :
  (create_image Scenario.form Scenario.webhook_down initial).1
  = Ok {| status := "success";
          image_url := Some "/media/u1_c9_1700000001.png";
          latency_ms := 2000 |}
  ∧ Logger.status <$> audit (create_image Scenario.form Scenario.webhook_down
                               initial).2
    = ["warning"; "success"].
Proof.
  pose proof (webhook_failure_keeps_success Scenario.webhook_down Scenario.form
    "/media/u1_c9_1700000001.png"
    (before_webhook Scenario.form (started Scenario.webhook_down)
       (provider_name Scenario.webhook_down) Scenario.webhook_down
       (ticked initial)).2
    (HttpClient.send_webhook (HttpClient.make Scenario.webhook_down) "u1" 1
       "c9" "/media/u1_c9_1700000001.png" 2000 Scenario.webhook_down
       (ticked (before_webhook Scenario.form (started Scenario.webhook_down)
          (provider_name Scenario.webhook_down) Scenario.webhook_down
          (ticked initial)).2)).2
    (Exception
       "Network error after 3 attempts connecting to http://localhost:8000/api/v1/inference/webhook/: Cannot connect to host")
    ltac:(vm_compute; reflexivity) ltac:(vm_compute; reflexivity)) as H.
  destruct H as (H1 & _ & H2 & _).
  split; [exact H1|]. rewrite H2. reflexivity.
Defined.

(** C4 (the code departs from it).  The claim: every auth decision that
    is not fully authorized ends the request with 401 before the credits
    stage.  What the code does: when the backend answers the auth call
    with a status other than 200 and 401 (403, 404, 5xx, anything else)
    and the response is read into a decision, step 1 returns without
    raising and without an audit record, and the request goes on to the
    credits stage. *)
Theorem rejection_other_than_401_passes_auth (W : World) (s : State)
    (form : Form) (start_time : Q) (name : string) (r : Net.Response) :
  backend W (length (backend_calls s)) (auth_call W form)
  = Net.RequestReturns r →
  HttpClient.returns_decision r = true →
  Net.status r ≠ 200 → Net.status r ≠ 401 →
  step1_verify_auth form start_time name W s
  = (Ok tt, sent (auth_call W form) s).
Proof.
  intros Hb Hr H200 H401. rewrite step1_cases.
  unfold HttpClient.verify_auth. rewrite request_unrolled.
  fold (auth_call W form). rewrite Hb.
  apply (answer_returns W "/api/v1/auth/verify/") in Hr as [v Hv].
  rewrite Hv. cbn [fst snd].
  destruct (answer_error_response W _ r v H200 Hv)
    as (d & error & -> & Hs & He & _ & Hu & _).
  unfold unauthorized, dict_get. rewrite Hs, He. simpl.
  destruct (Z.eqb_spec (Net.status r) 401) as [|_]; [done|].
  destruct (String.eqb_spec error "Unauthorized") as [E|_]; [|reflexivity].
  apply Hu in E. done.
Qed.

Lemma rejection_other_than_401_passes_auth_witness :
  step1_verify_auth Scenario.form 1700000000 "openai" Scenario.auth_forbidden
    initial
  = (Ok tt, sent (auth_call Scenario.auth_forbidden Scenario.form) initial).
Proof.
  apply (rejection_other_than_401_passes_auth Scenario.auth_forbidden initial
           Scenario.form 1700000000 "openai"
           {| Net.status := 403;
              Net.content :=
                Net.Json (VDict {[ "detail" := VStr "API key disabled" ]}) |});
    [reflexivity | reflexivity | simpl; lia | simpl; lia].
Defined.

(** The whole request in that world: the auth endpoint answers 403,
    and the caller gets the image. *)
Example forbidden_auth_ends_in_success :
  HttpClient.answer Scenario.auth_forbidden "/api/v1/auth/verify/"
    (backend Scenario.auth_forbidden 0
       (auth_call Scenario.auth_forbidden Scenario.form))
  = Ok (HttpClient.decision "Forbidden" (VStr "API key disabled") 403
          "Insufficient credits or access denied: API key disabled")
  ∧ (create_image Scenario.form Scenario.auth_forbidden initial).1
    = Ok {| status := "success";
            image_url := Some "/media/u1_c9_1700000001.png";
            latency_ms := 2000 |}
  ∧ Net.url <$> backend_calls
                  (create_image Scenario.form Scenario.auth_forbidden initial).2
    = ["http://localhost:8000/api/v1/auth/verify/";
       "http://localhost:8000/api/v1/credits/check/?user_id=u1";
       "http://localhost:8000/api/v1/inference/webhook/"]
  ∧ generations (create_image Scenario.form Scenario.auth_forbidden initial).2
    = 1%nat
  ∧ Logger.status <$> audit (create_image Scenario.form Scenario.auth_forbidden
                               initial).2
    = ["success"].
Proof. repeat split; vm_compute; reflexivity. Qed.

(** C5 (the code departs from it).  The claim: a well-formed HTTP
    response of any status is returned as a decision in one attempt,
    without retry or exception.  What the code does when every attempt
    is answered with a status other than 200 and 404 and a JSON body
    that is an array: the [get] on the list raises [AttributeError]
    inside the [try], the catch-all clause retries, and after three
    attempts and the delays 1 and 2 the client raises. *)
Theorem array_body_is_retried_then_raised (W : World) (s : State)
    (method endpoint : string) (data : option (gmap string value))
    (status : Z) (items : list value) :
  (∀ n c, backend W n c
          = Net.RequestReturns {| Net.status := status;
                                  Net.content := Net.Json (VList items) |}) →
  status ≠ 200 → status ≠ 404 →
  let self := HttpClient.make W in
  let call := {| Net.method := method;
                 Net.url := HttpClient.base_url self +:+ endpoint;
                 Net.data := data |} in
  let out := HttpClient._request self method endpoint data W s in
  out.1 = Raise (HttpClient.gave_up self (HttpClient.base_url self +:+ endpoint)
                   attribute_error)
  ∧ backend_calls out.2 = backend_calls s ++ [call; call; call]
  ∧ sleeps out.2 = sleeps s ++ [1; 2].
Proof.
  intros Hb H200 H404 self call out. unfold out, self.
  rewrite request_unrolled. rewrite !Hb.
  assert (Ha : HttpClient.answer W endpoint
                 (Net.RequestReturns {| Net.status := status;
                                        Net.content := Net.Json (VList items) |})
               = Raise attribute_error).
  { unfold HttpClient.answer, HttpClient.read_response.
    cbn [Net.content Net.status]. mred.
    destruct (Z.eqb_spec status 200); [done|].
    destruct (Z.eqb_spec status 404); [done|].
    destruct (status =? 401), (status =? 403), (status >=? 500); by mred. }
  rewrite Ha. cbn [fst snd backend_calls sleeps sent slept].
  rewrite <- !app_assoc. done.
Qed.

Lemma array_body_is_retried_then_raised_witness :
  (HttpClient._request (HttpClient.make Scenario.validation_errors)
     "POST" "/api/v1/auth/verify/" None Scenario.validation_errors initial).1
  = Raise (Exception
             "Request failed after 3 attempts for http://localhost:8000/api/v1/auth/verify/: object has no attribute 'get'")
  ∧ sleeps (HttpClient._request (HttpClient.make Scenario.validation_errors)
              "POST" "/api/v1/auth/verify/" None Scenario.validation_errors
              initial).2
    = [1; 2].
Proof.
  pose proof (array_body_is_retried_then_raised Scenario.validation_errors
                initial "POST" "/api/v1/auth/verify/" None 400
                [VStr "Invalid input."]
                ltac:(intros; reflexivity) ltac:(lia) ltac:(lia)) as H.
  destruct H as (H1 & _ & H2). split; [exact H1|exact H2].
Defined.

(** C6 as stated fails: in the world [Scenario.closed_then_answered] the
    first attempt raises a [RuntimeError], neither a connection error nor
    a timeout, and a second attempt is made all the same. *)
Lemma retry_after_other_exception :
  ¬ HttpClient.retried_only_after_transport_failure Scenario.closed_then_answered initial
      "POST" "/api/v1/auth/verify/" None.
Proof.
  unfold HttpClient.retried_only_after_transport_failure. intros H.
  destruct H as (f & Hf & Hk); [vm_compute; lia|].
  vm_compute in Hf. injection Hf as <-. by destruct Hk.
Qed.

(** C6, amended.  For every backend call of the client: there are
    between one and three attempts; the delays slept are the first
    [k - 1] of 1, 2 (start at 1, doubling); every attempt before the
    last one raised an exception (of whatever class: the retry is not
    limited to connection errors and timeouts); a returned value is what
    the last attempt was read into, and the call raises only when the
    third attempt raised.  In particular, when attempts 1 and 2 raise
    and attempt 3 is answered with a response that is read into a
    decision, the call returns after three attempts and exactly the two
    delays 1 and 2, the second strictly greater than the first. *)
Theorem retry_policy (W : World) (s : State) (method endpoint : string)
    (data : option (gmap string value)) :
  let self := HttpClient.make W in
  let url := HttpClient.base_url self +:+ endpoint in
  let call := {| Net.method := method; Net.url := url; Net.data := data |} in
  let n := length (backend_calls s) in
  let nth i := HttpClient.answer W endpoint (backend W (n + i) call) in
  let out := HttpClient._request self method endpoint data W s in
  (∃ k : nat,
     (1 ≤ k ≤ 3)%nat
     ∧ backend_calls out.2 = backend_calls s ++ replicate k call
     ∧ sleeps out.2 = sleeps s ++ take (k - 1) [1; 2]
     ∧ (∀ i, (i < k - 1)%nat → ∃ e, nth i = Raise e)
     ∧ match out.1 with
       | Ok v => nth (k - 1)%nat = Ok v
       | Raise e' =>
           k = 3%nat
           ∧ ∃ e, nth 2%nat = Raise e ∧ e' = HttpClient.gave_up self url e
       end)
  ∧ (∀ f1 f2 r3,
       backend W n call = Net.RequestRaises f1 →
       backend W (S n) call = Net.RequestRaises f2 →
       backend W (S (S n)) call = Net.RequestReturns r3 →
       HttpClient.returns_decision r3 = true →
       (∃ v, out.1 = Ok v)
       ∧ backend_calls out.2 = backend_calls s ++ [call; call; call]
       ∧ sleeps out.2 = sleeps s ++ [1; 2]
       ∧ 1 < 2).
Proof.
  intros self url call n nth out. unfold out, self.
  rewrite request_unrolled. fold self url call n.
  assert (E0 : nth 0%nat = HttpClient.answer W endpoint (backend W n call))
    by (unfold nth; by rewrite Nat.add_0_r).
  assert (E1 : nth 1%nat = HttpClient.answer W endpoint (backend W (S n) call))
    by (unfold nth; by rewrite Nat.add_1_r).
  assert (E2 : nth 2%nat
               = HttpClient.answer W endpoint (backend W (S (S n)) call))
    by (unfold nth; by replace (n + 2)%nat with (S (S n)) by lia).
  split.
  - rewrite <- E0, <- E1, <- E2.
    destruct (nth 0%nat) as [v0|e0] eqn:A0.
    { exists 1%nat. cbn [fst snd backend_calls sleeps sent slept replicate].
      rewrite app_nil_r. repeat split; try done; try lia. }
    destruct (nth 1%nat) as [v1|e1] eqn:A1.
    { exists 2%nat. cbn [fst snd backend_calls sleeps sent slept replicate].
      rewrite <- ?app_assoc. repeat split; try done; try lia.
      all: try (intros i Hi; assert (i = 0%nat) as -> by lia; eauto). }
    exists 3%nat. cbn [fst snd backend_calls sleeps sent slept replicate].
    rewrite <- ?app_assoc.
    assert (Hprev : ∀ i, (i < 3 - 1)%nat → ∃ e, nth i = Raise e).
    { intros i Hi.
      assert (i = 0%nat ∨ i = 1%nat) as [-> | ->] by lia; eauto. }
    destruct (nth 2%nat) as [v2|e2] eqn:A2;
      cbn [fst snd backend_calls sleeps sent slept];
      rewrite <- ?app_assoc; repeat split; try done; try lia; eauto.
  - intros f1 f2 r3 H1 H2 H3 Hr. rewrite H1, H2, H3.
    apply (answer_returns W endpoint) in Hr as [v Hv]. rewrite Hv.
    cbn [HttpClient.answer fst snd backend_calls sleeps sent slept].
    rewrite <- ?app_assoc. repeat split; eauto.
Qed.

Lemma retry_policy_witness :
  (∃ v, (HttpClient._request (HttpClient.make Scenario.third_time_lucky)
           "POST" "/api/v1/auth/verify/" None Scenario.third_time_lucky
           initial).1 = Ok v)
  ∧ sleeps (HttpClient._request (HttpClient.make Scenario.third_time_lucky)
              "POST" "/api/v1/auth/verify/" None Scenario.third_time_lucky
              initial).2 = [1; 2].
Proof.
  destruct (proj2 (retry_policy Scenario.third_time_lucky initial "POST"
                     "/api/v1/auth/verify/" None)
              (Failure ClientError "ClientConnectorError" "Cannot connect to host")
              (Failure ClientError "ClientConnectorError" "Cannot connect to host")
              {| Net.status := 200;
                 Net.content := Net.Json (VDict {[ "valid" := VBool true ]}) |}
              eq_refl eq_refl eq_refl eq_refl)
    as (H1 & _ & H2 & _).
  split; [exact H1|exact H2].
Defined.

Lemma resolved_misconfigured W msg :
  misconfigured W msg → resolved W = Raise (AiProvider.value_error msg).
Proof.
  unfold misconfigured, resolved, AiProvider.get_ai_provider. mred.
  fold (provider_name W). fold (provider_key W).
  intros [[Hk ->]|[(Hk & Hu & ->)|(Hk & Hu & ->)]].
  - unfold AiProvider.providers.
    rewrite (not_elem_of_list_to_map_1 _ (provider_key W)); [done|].
    exact Hk.
  - rewrite Hk.
    change (AiProvider.providers !! "openai")
      with (Some AiProvider.OpenAIProvider_init).
    unfold AiProvider.OpenAIProvider_init. mred.
    by destruct Hu as [-> | ->].
  - rewrite Hk.
    change (AiProvider.providers !! "gemini")
      with (Some AiProvider.GeminiProvider_init).
    unfold AiProvider.GeminiProvider_init. mred.
    by destruct Hu as [-> | ->].
Qed.

Lemma resolved_placeholder W :
  provider_key W = "sora" ∨ provider_key W = "stability" →
  ∃ p msg, resolved W = Ok p
           ∧ (∀ u c, produced W p u c
                     = Raise (Raised (Failure NotImplementedError
                                        "NotImplementedError" msg)))
           ∧ (p = AiProvider.SoraProvider ∨ p = AiProvider.StabilityProvider).
Proof.
  unfold resolved, AiProvider.get_ai_provider. mred.
  fold (provider_name W). fold (provider_key W).
  intros [-> | ->].
  - exists AiProvider.SoraProvider. eexists. repeat split; eauto.
  - exists AiProvider.StabilityProvider. eexists. repeat split; eauto.
Qed.

(** C7 as stated fails: with [AI_PROVIDER=sora], a key that names an
    unimplemented provider, resolution returns the placeholder instead of
    failing, and the request ends on the generic generation-failed
    message. *)
Lemma unimplemented_provider_resolves :
  provider_key Scenario.sora_configured = "sora"
  ∧ AiProvider.get_ai_provider Scenario.sora_configured initial
    = (Ok AiProvider.SoraProvider, initial)
  ∧ (create_image Scenario.form Scenario.sora_configured initial).1
    = Raise (HTTPException 500
               "Image generation failed: Sora provider not yet implemented").
Proof. repeat split; vm_compute; reflexivity. Qed.

(** C7, amended.  For every request that reaches the generate stage
    with the temporary files written: if the lower-cased configuration
    key is none of the four keys of the provider table, or it is
    [openai] or [gemini] and the API key of that provider is absent or
    empty, then resolution raises a [ValueError], the request ends with
    500 on the provider-configuration message, one error record
    ("Configuration error: ...") is written and no provider is called;
    if the key is [sora] or [stability], resolution returns the
    placeholder, its [generate_image] raises, and the request ends with
    500 on the generic generation-failed message, with one error
    record. *)
Theorem provider_configuration_errors (W : World) (form : Form)
    (imgs : bytes * bytes) (s1 : State) (paths : string * string) :
  before_generate form (started W) (provider_name W) W (ticked initial)
  = (Ok imgs, s1) →
  stage_inputs W = inr paths →
  let out := create_image form W initial in
  let failed_at := time_time W (clock_reads out.2 - 1) in
  (∀ msg, misconfigured W msg →
     resolved W = Raise (AiProvider.value_error msg)
     ∧ out.1 = Raise (HTTPException 500
                        ("AI provider configuration error: " +:+ msg
                           +:+ ". Please check environment variables."))
     ∧ audit out.2
       = [error_record form (started W) (provider_name W) failed_at
            ("Configuration error: " +:+ msg)]
     ∧ generations out.2 = 0%nat)
  ∧ (provider_key W = "sora" ∨ provider_key W = "stability" →
     ∃ p msg,
       resolved W = Ok p
       ∧ out.1 = Raise (HTTPException 500 ("Image generation failed: " +:+ msg))
       ∧ audit out.2
         = [error_record form (started W) (provider_name W) failed_at
              ("Image generation failed: " +:+ msg)]
       ∧ generations out.2 = 1%nat).
Proof.
  intros Hpre Hstage out failed_at.
  destruct (before_generate_ok _ _ _ _ _ _ _ Hpre) as [Ha Hg].
  cbn [audit generations ticked initial] in Ha, Hg.
  pose proof (step3_cases form (started W) (provider_name W) imgs.1 imgs.2 W s1)
    as H3.
  rewrite Hstage in H3. destruct paths as [user_path catalog_path].
  split.
  - intros msg Hmis. pose proof (resolved_misconfigured W msg Hmis) as Hres.
    rewrite Hres in H3. unfold generation_failure in H3.
    change (is_kind ValueError (AiProvider.value_error msg)) with true in H3.
    cbn iota in H3.
    unfold failed_at, out.
    rewrite (create_image_fails_at_generate _ _ _ _ _ _ Hpre H3).
    rewrite outer_handler_cases.
    cbn [fst snd audit generations logged ticked clock_reads].
    rewrite Ha, Hg, Nat.sub_1_r. done.
  - intros Hkey.
    destruct (resolved_placeholder W Hkey) as (p & msg & Hres & Hprod & _).
    rewrite Hres, Hprod in H3. unfold generation_failure in H3.
    cbn [is_kind kind] in H3.
    exists p, msg. unfold failed_at, out.
    rewrite (create_image_fails_at_generate _ _ _ _ _ _ Hpre H3).
    rewrite outer_handler_cases.
    cbn [fst snd audit generations logged ticked generated clock_reads].
    rewrite Ha, Hg, Nat.sub_1_r. done.
Qed.

Lemma provider_configuration_errors_witness :
  (create_image Scenario.form Scenario.unknown_provider initial).1
  = Raise (HTTPException 500
             "AI provider configuration error: Unknown AI provider: midjourney. Please check environment variables.").
Proof.
  assert (Hmis : misconfigured Scenario.unknown_provider
                   "Unknown AI provider: midjourney").
  { left. split; [|reflexivity].
    apply (bool_decide_unpack _). vm_compute. exact I. }
  exact (proj1 (proj2 (proj1
    (provider_configuration_errors Scenario.unknown_provider Scenario.form
       (Scenario.png, Scenario.png)
       (before_generate Scenario.form (started Scenario.unknown_provider)
          (provider_name Scenario.unknown_provider) Scenario.unknown_provider
          (ticked initial)).2
       ("/tmp/tmpuser.jpeg", "/tmp/tmpcatalog.jpeg")
       ltac:(vm_compute; reflexivity) eq_refl)
    "Unknown AI provider: midjourney" Hmis))).
Defined.

(** C8 (the code departs from it).  The claim: a network failure
    while the generated artifact is fetched ends the request with 502,
    any other failure of the persist stage with 500.  What the code
    does, for every request that reaches the persist stage with the
    result locator [g]: whatever [save_image] raises, the request ends
    with 502 ("Failed to download generated image: ...") when the
    exception is an [aiohttp.ClientError], and with 500 ("Failed to save
    image: ...") when it is of any other class, each time with one error
    record.  For a remote [g]: an exception of [session.get] or of
    [response.read()] gives 502 when it is a [ClientError] and 500
    otherwise, so a fetch that times out ([asyncio.TimeoutError]) ends
    with 500; an answer of the image host with a status other than 200
    ends with 500 as well.  A failed local write ends with 500. *)
Theorem only_client_errors_are_bad_gateway (W : World) (form : Form)
    (g : string) (s1 : State) :
  before_save form (started W) (provider_name W) W (ticked initial)
  = (Ok g, s1) →
  let filename := artifact_name form (time_time W (clock_reads s1)) in
  let out := create_image form W initial in
  let failed_at := time_time W (clock_reads out.2 - 1) in
  let bad_gateway (msg : string) :=
    out.1 = Raise (HTTPException 502
                     ("Failed to download generated image: " +:+ msg))
    ∧ audit out.2
      = [error_record form (started W) (provider_name W) failed_at
           ("Network error downloading image: " +:+ msg)] in
  let internal_error (msg : string) :=
    out.1 = Raise (HTTPException 500 ("Failed to save image: " +:+ msg))
    ∧ audit out.2
      = [error_record form (started W) (provider_name W) failed_at
           ("Image save failed: " +:+ msg)] in
  (∀ e s2, save_image g filename W (ticked s1) = (Raise e, s2) →
           if is_kind ClientError e then bad_gateway (str_exn e)
           else internal_error (str_exn e))
  ∧ (startswith g "data:image" = false → makedirs_media W = None →
     (∀ f, http_get W g = Net.GetRaises f
           ∨ http_get W g = Net.GetReturns 200 (inl f) →
           (kind f = ClientError → bad_gateway (message f))
           ∧ (kind f = TimeoutError → internal_error (message f))
           ∧ (kind f ≠ ClientError → internal_error (message f)))
     ∧ (∀ status body, http_get W g = Net.GetReturns status body →
                       status ≠ 200 →
                       internal_error
                         ("Failed to download image from " +:+ g +:+ ": "
                            +:+ pretty status)))
  ∧ (∀ image_data f, makedirs_media W = None →
                     artifact_bytes W g = Ok image_data →
                     file_write W (media_path filename) = Some f →
                     kind f = OSError →
                     internal_error (message f)).
Proof.
  intros Hpre filename out failed_at bad_gateway internal_error.
  pose proof (before_save_ok _ _ _ _ _ _ _ Hpre) as Ha.
  cbn [audit ticked initial] in Ha.
  assert (Hany : ∀ e s2,
            save_image g filename W (ticked s1) = (Raise e, s2) →
            if is_kind ClientError e then bad_gateway (str_exn e)
            else internal_error (str_exn e)).
  { intros e s2 Hsave.
    pose proof (step4_cases form (started W) (provider_name W) g W s1) as H4.
    cbn zeta in H4. fold filename in H4. rewrite Hsave in H4. cbn [fst snd] in H4.
    destruct (save_image_frame g filename W (ticked s1)) as (H1 & _ & H2 & _).
    rewrite Hsave in H1, H2. cbn [snd audit clock_reads ticked] in H1, H2.
    unfold bad_gateway, internal_error, failed_at, out.
    rewrite (create_image_fails_at_save _ _ _ _ _ _ Hpre H4).
    unfold save_failure.
    destruct (is_kind ClientError e); rewrite outer_handler_cases;
      cbn [fst snd audit logged ticked clock_reads];
      by rewrite H1, H2, Ha, Nat.sub_1_r. }
  assert (Hraised : ∀ f,
            save_image g filename W (ticked s1) = (Raise (Raised f), ticked s1) →
            (kind f = ClientError → bad_gateway (message f))
            ∧ (kind f ≠ ClientError → internal_error (message f))).
  { intros f Hsave. pose proof (Hany _ _ Hsave) as H.
    cbn [is_kind str_exn] in H.
    split; intros Hk; destruct (kind f); done. }
  split; [exact Hany|]. split.
  - intros Hdata Hdirs. split.
    + intros f Hget.
      assert (Hsave : save_image g filename W (ticked s1)
                      = (Raise (Raised f), ticked s1)).
      { rewrite save_image_cases, Hdirs. unfold artifact_bytes, download_image.
        rewrite Hdata. mred. by destruct Hget as [-> | ->]. }
      destruct (Hraised f Hsave) as [Hc Ho].
      split; [exact Hc|]. split; [|exact Ho].
      intros Hk. apply Ho. by rewrite Hk.
    + intros status body Hget Hst.
      assert (Hsave : save_image g filename W (ticked s1)
                      = (Raise (Exception
                                  ("Failed to download image from " +:+ g
                                     +:+ ": " +:+ pretty status)),
                         ticked s1)).
      { rewrite save_image_cases, Hdirs. unfold artifact_bytes, download_image.
        rewrite Hdata. mred. rewrite Hget.
        by destruct (Z.eqb_spec status 200). }
      exact (Hany _ _ Hsave).
  - intros image_data f Hdirs Hbytes Hwrite Hk.
    assert (Hsave : save_image g filename W (ticked s1)
                    = (Raise (Raised f), ticked s1)).
    { by rewrite save_image_cases, Hdirs, Hbytes, Hwrite. }
    apply (Hraised f Hsave). by rewrite Hk.
Qed.

Lemma only_client_errors_are_bad_gateway_witness :
  (create_image Scenario.form Incidents.result_host_stalls initial).1
  = Raise (HTTPException 500 "Failed to save image: ")
  ∧ (create_image Scenario.form Incidents.result_host_503 initial).1
    = Raise (HTTPException 500
               "Failed to save image: Failed to download image from https://images.example/result.png: 503")
  ∧ (create_image Scenario.form Incidents.result_body_cut initial).1
    = Raise (HTTPException 502
               "Failed to download generated image: Response payload is not completed")
  ∧ (create_image Scenario.form Scenario.result_host_down initial).1
    = Raise (HTTPException 502
               "Failed to download generated image: Cannot connect to host images.example")
  ∧ (create_image Scenario.form Scenario.disk_full initial).1
    = Raise (HTTPException 500 "Failed to save image: No space left on device").
Proof.
  split; [|split; [|split; [|split]]].
  - destruct (only_client_errors_are_bad_gateway Incidents.result_host_stalls
                Scenario.form "https://images.example/result.png"
                (before_save Scenario.form (started Incidents.result_host_stalls)
                   (provider_name Incidents.result_host_stalls)
                   Incidents.result_host_stalls (ticked initial)).2
                ltac:(vm_compute; reflexivity)) as (_ & Hremote & _).
    destruct (Hremote eq_refl eq_refl) as [Hraised _].
    destruct (Hraised (Failure TimeoutError "TimeoutError" "")
                (or_introl eq_refl)) as (_ & Htimeout & _).
    exact (proj1 (Htimeout eq_refl)).
  - destruct (only_client_errors_are_bad_gateway Incidents.result_host_503
                Scenario.form "https://images.example/result.png"
                (before_save Scenario.form (started Incidents.result_host_503)
                   (provider_name Incidents.result_host_503)
                   Incidents.result_host_503 (ticked initial)).2
                ltac:(vm_compute; reflexivity)) as (_ & Hremote & _).
    destruct (Hremote eq_refl eq_refl) as [_ Hstatus].
    exact (proj1 (Hstatus 503 (inr []) eq_refl ltac:(discriminate))).
  - destruct (only_client_errors_are_bad_gateway Incidents.result_body_cut
                Scenario.form "https://images.example/result.png"
                (before_save Scenario.form (started Incidents.result_body_cut)
                   (provider_name Incidents.result_body_cut)
                   Incidents.result_body_cut (ticked initial)).2
                ltac:(vm_compute; reflexivity)) as (_ & Hremote & _).
    destruct (Hremote eq_refl eq_refl) as [Hraised _].
    destruct (Hraised (Failure ClientError "ClientPayloadError"
                         "Response payload is not completed")
                (or_intror eq_refl)) as (Hclient & _).
    exact (proj1 (Hclient eq_refl)).
  - destruct (only_client_errors_are_bad_gateway Scenario.result_host_down
                Scenario.form "https://images.example/result.png"
                (before_save Scenario.form (started Scenario.result_host_down)
                   (provider_name Scenario.result_host_down)
                   Scenario.result_host_down (ticked initial)).2
                ltac:(vm_compute; reflexivity)) as (_ & Hremote & _).
    destruct (Hremote eq_refl eq_refl) as [Hraised _].
    destruct (Hraised (Failure ClientError "ClientConnectorError"
                         "Cannot connect to host images.example")
                (or_introl eq_refl)) as (Hclient & _).
    exact (proj1 (Hclient eq_refl)).
  - destruct (only_client_errors_are_bad_gateway Scenario.disk_full
                Scenario.form "https://images.example/result.png"
                (before_save Scenario.form (started Scenario.disk_full)
                   (provider_name Scenario.disk_full)
                   Scenario.disk_full (ticked initial)).2
                ltac:(vm_compute; reflexivity)) as (_ & _ & Hlocal).
    exact (proj1 (Hlocal Scenario.png
                    (Failure OSError "OSError" "No space left on device")
                    eq_refl ltac:(vm_compute; reflexivity) eq_refl eq_refl)).
Defined.

Lemma startswith_append (s p rest : string) :
  startswith s p = true → startswith (s +:+ rest) p = true.
Proof.
  unfold startswith. revert s.
  induction p as [|c p IH]; intros s; [intros _; by destruct (s +:+ rest)|].
  destruct s as [|c' s]; simpl; [done|].
  destruct (ascii_dec c c'); [apply IH|done].
Qed.

Lemma split_comma_append (header encoded : string) :
  split_comma header = None →
  split_comma (header +:+ "," +:+ encoded) = Some (header, encoded).
Proof.
  induction header as [|c header IH]; simpl; [done|].
  destruct (Ascii.eqb c ","); [done|].
  destruct (split_comma header) as [[]|]; [done|].
  intros _. by rewrite IH.
Qed.

(** C9.  For every byte sequence [data]: [save_image] on a data URL
    (a header that starts with [data:image] and has no comma, a comma,
    the base64 encoding of [data]) and [save_image] on a remote URL
    whose download answers 200 with [data] both return the same path
    and leave files whose contents are [data], hence equal to each
    other. *)
Theorem materialize_roundtrip (W : World) (s s' : State) (data : bytes)
    (header url filename : string) :
  startswith header "data:image" = true →
  split_comma header = None →
  startswith url "data:image" = false →
  http_get W url = Net.GetReturns 200 (inr data) →
  makedirs_media W = None →
  file_write W (media_path filename) = None →
  let inline :=
    save_image (header +:+ "," +:+ Base64.b64encode data) filename W s in
  let remote := save_image url filename W s' in
  inline.1 = Ok (media_path filename)
  ∧ remote.1 = Ok (media_path filename)
  ∧ media inline.2 !! media_path filename = Some data
  ∧ media remote.2 !! media_path filename = Some data
  ∧ media inline.2 !! media_path filename
    = media remote.2 !! media_path filename.
Proof.
  intros Hhead Hcomma Hurl Hget Hdirs Hwrite inline remote.
  assert (Hin : artifact_bytes W (header +:+ "," +:+ Base64.b64encode data)
                = Ok data).
  { unfold artifact_bytes.
    rewrite startswith_append by done.
    rewrite split_comma_append by done.
    by rewrite b64decode_b64encode. }
  assert (Hre : artifact_bytes W url = Ok data).
  { unfold artifact_bytes, download_image. rewrite Hurl. mred.
    by rewrite Hget. }
  unfold inline, remote. rewrite !save_image_cases, Hdirs, Hin, Hre, Hwrite.
  cbn [fst snd media wrote]. rewrite !lookup_insert_eq. done.
Qed.

Lemma materialize_roundtrip_witness :
  media (save_image ("data:image/png;base64" +:+ "," +:+ Base64.b64encode Scenario.png)
           "u1_c9_1700000001.png" Scenario.webhook_down initial).2
    !! "media/u1_c9_1700000001.png"
  = media (save_image "https://images.example/result.png"
             "u1_c9_1700000001.png" Scenario.webhook_down initial).2
      !! "media/u1_c9_1700000001.png".
Proof.
  exact (proj2 (proj2 (proj2 (proj2
    (materialize_roundtrip Scenario.webhook_down initial initial Scenario.png
       "data:image/png;base64" "https://images.example/result.png"
       "u1_c9_1700000001.png"
       eq_refl eq_refl eq_refl eq_refl eq_refl eq_refl))))).
Defined.

(** The credits stage lets a request through only on a dictionary
    whose [has_credits] entry is there and truthy. *)
Lemma credits_stage_passes_only_with_has_credits form start_time name W s s' :
  step2_check_credits form start_time name W s = (Ok tt, s') →
  ∃ d v, HttpClient.check_credits (HttpClient.make W) (user_id form) W s
         = (Ok (VDict d), s')
         ∧ d !! "has_credits" = Some v ∧ truthy v = true.
Proof.
  rewrite step2_cases.
  destruct (HttpClient.check_credits _ _ W s) as [[v|e] s1]; cbn [fst snd];
    [|done]. destruct v; try done.
  destruct (forbidden d); [done|].
  unfold has_credits, dict_get.
  destruct (d !! "has_credits") as [v|] eqn:E; simpl.
  - destruct (truthy v) eqn:Ev; [|done]. intros [= <-]. eauto.
  - done.
Qed.

End Claims.

(* ===================================================================== *)
(** ** Further properties of the throttle *)
(* ===================================================================== *)

Section ThrottleMore.
Import Throttle ThrottleViews.

Lemma newer_than_length m (l : list Q) :
  (length (newer_than m l) <= length l)%nat.
Proof. unfold newer_than. apply List.filter_length_le. Qed.

Lemma swept_getitem_length self t u :
  (length (getitem (requests (swept self t)) u)
   <= length (getitem (requests self) u))%nat.
Proof.
  unfold swept. destruct (Qltb _ _); [|done].
  change (length (getitem (requests (_cleanup_old_entries self t)) u)
          <= length (getitem (requests self) u))%nat.
  rewrite getitem_cleanup. apply newer_than_length.
Qed.

(** One [dispatch] keeps the bound on what is stored for each identity. *)
Lemma dispatch_keeps_bound self r t :
  (∀ u, Z.of_nat (length (getitem (requests self) u))
        <= Z.max 0 (requests_per_minute self)) →
  ∀ u, Z.of_nat (length (getitem (requests (dispatch self r t).2) u))
       <= Z.max 0 (requests_per_minute self).
Proof.
  intros Hb u.
  pose proof (dispatch_spec self r t) as Hd. simpl in Hd.
  destruct (dispatch self r t) as [o self'] eqn:Ed. cbn [fst snd].
  destruct Hd as (_ & Hother & Hme).
  destruct (decide (u = identity r)) as [->|Hne].
  - pose proof (newer_than_length (t - 60)%Q
                  (getitem (requests self) (identity r))) as Hl.
    specialize (Hb (identity r)).
    rewrite Z.geb_leb in Hme.
    destruct (requests_per_minute self <=? _) eqn:E.
    + destruct Hme as [_ ->]. lia.
    + apply Z.leb_gt in E. destruct Hme as [_ ->].
      rewrite length_app. simpl. lia.
  - rewrite Hother by done.
    pose proof (swept_getitem_length self t u). specialize (Hb u). lia.
Qed.

Lemma serve_keeps_bound evs : ∀ self,
  (∀ u, Z.of_nat (length (getitem (requests self) u))
        <= Z.max 0 (requests_per_minute self)) →
  ∀ u, Z.of_nat (length (getitem (requests (serve self evs).2) u))
       <= Z.max 0 (requests_per_minute self).
Proof.
  induction evs as [|[t r] rest IH]; intros self Hb u; [apply Hb|].
  rewrite serve_cons. cbn [snd].
  pose proof (dispatch_spec self r t) as Hd. simpl in Hd.
  pose proof (dispatch_keeps_bound self r t Hb) as Hb'.
  destruct (dispatch self r t) as [o self'] eqn:Ed. cbn [fst snd] in *.
  destruct Hd as (Hrpm & _ & _).
  rewrite <- Hrpm. apply IH. intros u'. rewrite Hrpm. apply Hb'.
Qed.

(** X1.  Whatever the requests and whatever the clock, the middleware
    never holds more than [max(0, requests_per_minute)] readings for one
    identity: the table grows with the number of identities only. *)
Theorem stored_readings_bounded (rpm : Z) (t0 : Q)
    (evs : list (Q * Request)) (u : string) :
  Z.of_nat (length (getitem (requests (serve (init rpm t0) evs).2) u))
  <= Z.max 0 rpm.
Proof.
  apply (serve_keeps_bound evs (init rpm t0)).
  intros u'. unfold getitem. cbn. rewrite lookup_empty. simpl. lia.
Qed.

(** X2.  The rate guarantee.  On a clock that never runs backwards, at
    any moment [now] not before the last request, the requests of one
    identity that were let through within the last 60 seconds number at
    most [max(0, requests_per_minute)]. *)
Theorem forwarded_per_window_bounded (rpm : Z) (t0 : Q)
    (evs : list (Q * Request)) (u : string) (now : Q) :
  nondecreasing (evs.*1 ++ [now]) →
  Z.of_nat (length (in_window now (forwarded_times (init rpm t0) evs u)))
  <= Z.max 0 rpm.
Proof.
  intros Hclock.
  rewrite <- (serve_init_window rpm t0 evs u now Hclock).
  pose proof (newer_than_length (now - 60)%Q
                (getitem (requests (serve (init rpm t0) evs).2) u)).
  pose proof (serve_keeps_bound evs (init rpm t0)) as Hb.
  cbn [requests_per_minute init] in Hb.
  specialize (Hb ltac:(intros u'; unfold getitem; cbn; rewrite lookup_empty; simpl; lia) u).
  lia.
Qed.

Lemma forwarded_times_cons self t r rest u :
  forwarded_times self ((t, r) :: rest) u
  = match (dispatch self r t).1 with
    | Forwarded =>
        if String.eqb (identity r) u
        then t :: forwarded_times (dispatch self r t).2 rest u
        else forwarded_times (dispatch self r t).2 rest u
    | Rejected _ => forwarded_times (dispatch self r t).2 rest u
    end.
Proof. simpl. by destruct (dispatch self r t) as [[?|] ?]. Qed.

(** The outcome of [dispatch] and what it stores for the identity of
    the request depend on the state only through the ceiling and the
    readings of that identity that still count. *)
Lemma dispatch_agree self1 self2 r t :
  requests_per_minute self1 = requests_per_minute self2 →
  newer_than (t - 60)%Q (getitem (requests self1) (identity r))
  = newer_than (t - 60)%Q (getitem (requests self2) (identity r)) →
  (dispatch self1 r t).1 = (dispatch self2 r t).1
  ∧ getitem (requests (dispatch self1 r t).2) (identity r)
    = getitem (requests (dispatch self2 r t).2) (identity r).
Proof.
  intros Hrpm Hlive.
  pose proof (dispatch_spec self1 r t) as H1.
  pose proof (dispatch_spec self2 r t) as H2. simpl in H1, H2.
  destruct (dispatch self1 r t) as [o1 s1], (dispatch self2 r t) as [o2 s2].
  cbn [fst snd].
  destruct H1 as (_ & _ & H1), H2 as (_ & _ & H2).
  rewrite Hlive, Hrpm in H1.
  destruct (_ >=? _); destruct H1 as [-> ->], H2 as [-> ->]; done.
Qed.

Lemma dispatch_rpm self r t :
  requests_per_minute (dispatch self r t).2 = requests_per_minute self.
Proof.
  pose proof (dispatch_spec self r t) as H. simpl in H.
  destruct (dispatch self r t). by destruct H as (? & _).
Qed.

Lemma dispatch_other self r t u now :
  u ≠ identity r → (t <= now)%Q →
  newer_than (now - 60)%Q (getitem (requests (dispatch self r t).2) u)
  = newer_than (now - 60)%Q (getitem (requests self) u).
Proof.
  intros Hne Hle.
  pose proof (dispatch_spec self r t) as H. simpl in H.
  destruct (dispatch self r t) as [o s']. cbn [snd].
  destruct H as (_ & Hother & _).
  rewrite Hother by done. by apply swept_view_later.
Qed.

Lemma nondecreasing_cons t ts :
  nondecreasing (t :: ts) ↔ Forall (fun t' => (t <= t')%Q) ts ∧ nondecreasing ts.
Proof. done. Qed.

Lemma forwarded_times_only evs : ∀ self1 self2 uid (T : Q),
  requests_per_minute self1 = requests_per_minute self2 →
  (∀ now, (T <= now)%Q →
     newer_than (now - 60)%Q (getitem (requests self1) uid)
     = newer_than (now - 60)%Q (getitem (requests self2) uid)) →
  nondecreasing evs.*1 →
  Forall (fun t => (T <= t)%Q) evs.*1 →
  forwarded_times self1 evs uid = forwarded_times self2 (only uid evs) uid.
Proof.
  induction evs as [|[t r] rest IH]; intros self1 self2 uid T Hrpm Hview Hmono HT;
    [done|].
  rewrite fmap_cons in Hmono, HT. cbn [fst] in Hmono, HT.
  apply nondecreasing_cons in Hmono as [Hafter Hmono].
  apply Forall_cons in HT as [HTt _].
  rewrite forwarded_times_cons. unfold only. cbn [List.filter snd].
  fold (only uid rest).
  destruct (String.eqb_spec (identity r) uid) as [<-|Hne].
  - rewrite forwarded_times_cons, String.eqb_refl.
    destruct (dispatch_agree self1 self2 r t Hrpm (Hview t HTt)) as [Ho Hs].
    rewrite <- Ho.
    assert (forwarded_times (dispatch self1 r t).2 rest (identity r)
            = forwarded_times (dispatch self2 r t).2 (only (identity r) rest)
                (identity r)) as ->.
    { apply (IH _ _ _ t); [by rewrite !dispatch_rpm| |done|done].
      intros now _. by rewrite Hs. }
    done.
  - assert (forwarded_times (dispatch self1 r t).2 rest uid
            = forwarded_times self2 (only uid rest) uid) as ->.
    { apply (IH _ _ _ t); [by rewrite dispatch_rpm| |done|done].
      intros now Hnow. rewrite dispatch_other by done.
      apply Hview. by apply Qle_trans with t. }
    by destruct (dispatch self1 r t).1.
Qed.

Lemma only_times_sub uid evs (P : Q → Prop) :
  Forall P evs.*1 → Forall P (only uid evs).*1.
Proof.
  induction evs as [|[t r] rest IH]; [done|].
  rewrite fmap_cons. intros [Ht Hrest]%Forall_cons.
  unfold only. cbn [List.filter snd]. fold (only uid rest).
  destruct (String.eqb _ _); [|by apply IH].
  rewrite fmap_cons. constructor; [done|by apply IH].
Qed.

Lemma nondecreasing_only uid evs :
  nondecreasing evs.*1 → nondecreasing (only uid evs).*1.
Proof.
  induction evs as [|[t r] rest IH]; [done|].
  rewrite fmap_cons. cbn [fst]. intros [Hafter Hmono].
  unfold only. cbn [List.filter snd]. fold (only uid rest).
  destruct (String.eqb _ _); [|by apply IH].
  rewrite fmap_cons. cbn [fst]. split; [|by apply IH].
  by apply only_times_sub.
Qed.

Lemma nondecreasing_snoc ts now :
  nondecreasing ts → Forall (fun t => (t <= now)%Q) ts →
  nondecreasing (ts ++ [now]).
Proof.
  induction ts as [|t ts IH]; [done|].
  intros [Hafter Hmono] [Ht Hts]%Forall_cons. simpl. split; [|by apply IH].
  apply Forall_app. split; [done|]. by constructor.
Qed.

Lemma forwarded_per_window_bounded_witness :
  Z.of_nat (length (in_window 5
                      (forwarded_times (init 2 0) shared_minute "alice")))
  <= Z.max 0 2.
Proof.
  apply (forwarded_per_window_bounded 2 0 shared_minute "alice" 5).
  simpl. repeat constructor; unfold Qle; simpl; lia.
Defined.

(** X3.  On a clock that never runs backwards, the requests of other
    identities change nothing for an identity: the requests of it that
    are let through are those that would be let through had the others
    never been made, and so is the decision on its next request. *)
Theorem other_identities_do_not_interfere (rpm : Z) (t0 : Q)
    (evs : list (Q * Request)) (req : Request) (now : Q) :
  nondecreasing (evs.*1 ++ [now]) →
  let uid := identity req in
  forwarded_times (init rpm t0) evs uid
  = forwarded_times (init rpm t0) (only uid evs) uid
  ∧ (dispatch (serve (init rpm t0) evs).2 req now).1
    = (dispatch (serve (init rpm t0) (only uid evs)).2 req now).1.
Proof.
  intros Hclock uid.
  destruct (nondecreasing_app _ _ Hclock) as [Hmono Hle].
  assert (Hft : forwarded_times (init rpm t0) evs uid
                = forwarded_times (init rpm t0) (only uid evs) uid).
  { destruct evs as [|[t r] rest] eqn:E; [done|]. rewrite <- E in *.
    apply (forwarded_times_only evs _ _ uid t); [done|done|done|].
    subst evs. rewrite fmap_cons. cbn [fst].
    rewrite fmap_cons in Hmono. destruct Hmono as [Hafter _].
    constructor; [apply Qle_refl|done]. }
  split; [done|].
  apply dispatch_agree; [by rewrite !serve_rpm|].
  fold uid. rewrite !serve_init_window; [by rewrite Hft| |done].
  apply nondecreasing_snoc; [by apply nondecreasing_only|].
  by apply only_times_sub.
Qed.

Lemma other_identities_do_not_interfere_witness :
  forwarded_times (init 2 0) shared_minute "alice"
  = forwarded_times (init 2 0) (only "alice" shared_minute) "alice"
  ∧ (dispatch (serve (init 2 0) shared_minute).2 Scenario.alice 5).1
    = (dispatch (serve (init 2 0) (only "alice" shared_minute)).2
         Scenario.alice 5).1.
Proof.
  apply (other_identities_do_not_interfere 2 0 shared_minute Scenario.alice 5).
  simpl. repeat constructor; unfold Qle; simpl; lia.
Defined.

Lemma swept_agree self1 self2 t :
  cleanup_interval self1 = cleanup_interval self2 →
  last_cleanup self1 = last_cleanup self2 →
  cleanup_interval (swept self1 t) = cleanup_interval (swept self2 t)
  ∧ last_cleanup (swept self1 t) = last_cleanup (swept self2 t).
Proof.
  intros Hi Hl. unfold swept. rewrite Hi, Hl.
  by destruct (Qltb _ _).
Qed.

Lemma dispatch_housekeeping self r t :
  cleanup_interval (dispatch self r t).2 = cleanup_interval (swept self t)
  ∧ last_cleanup (dispatch self r t).2 = last_cleanup (swept self t).
Proof.
  unfold dispatch, _is_rate_limited. by destruct (_ >=? _).
Qed.

(** Two states that agree on the ceiling, on the bookkeeping of the
    cleanup and, from [T] on, on the readings that count for every
    identity, make the same decisions from [T] on. *)
Lemma serve_agree evs : ∀ self1 self2 (T : Q),
  requests_per_minute self1 = requests_per_minute self2 →
  cleanup_interval self1 = cleanup_interval self2 →
  last_cleanup self1 = last_cleanup self2 →
  (∀ u now, (T <= now)%Q →
     newer_than (now - 60)%Q (getitem (requests self1) u)
     = newer_than (now - 60)%Q (getitem (requests self2) u)) →
  nondecreasing evs.*1 →
  Forall (fun t => (T <= t)%Q) evs.*1 →
  (serve self1 evs).1 = (serve self2 evs).1.
Proof.
  induction evs as [|[t r] rest IH];
    intros self1 self2 T Hrpm Hci Hlc Hview Hmono HT; [done|].
  rewrite fmap_cons in Hmono, HT. cbn [fst] in Hmono, HT.
  destruct Hmono as [Hafter Hmono].
  apply Forall_cons in HT as [HTt _].
  rewrite !serve_cons. cbn [fst].
  destruct (dispatch_agree self1 self2 r t Hrpm (Hview _ t HTt)) as [Ho Hs].
  rewrite Ho. f_equal.
  destruct (swept_agree self1 self2 t Hci Hlc) as [Hci' Hlc'].
  destruct (dispatch_housekeeping self1 r t) as [Hc1 Hl1].
  destruct (dispatch_housekeeping self2 r t) as [Hc2 Hl2].
  apply (IH _ _ t); [by rewrite !dispatch_rpm|congruence|congruence| |done|done].
  intros u now Hnow.
  destruct (decide (u = identity r)) as [->|Hne]; [by rewrite Hs|].
  rewrite !dispatch_other by done. apply Hview. by apply Qle_trans with t.
Qed.

(** X4.  [_cleanup_old_entries] frees memory only: run at time [t], it
    changes no decision on any sequence of requests that come at [t] or
    later, on a clock that does not run backwards. *)
Theorem cleanup_never_changes_decisions (self : ThrottleMiddleware) (t : Q)
    (evs : list (Q * Request)) :
  nondecreasing (t :: evs.*1) →
  (serve (_cleanup_old_entries self t) evs).1 = (serve self evs).1.
Proof.
  intros [Hafter Hmono].
  apply (serve_agree evs _ _ t); [done|done|done| |done|done].
  intros u now Hnow. rewrite getitem_cleanup.
  apply newer_than_twice. lra.
Qed.

Lemma cleanup_never_changes_decisions_witness :
  (serve (_cleanup_old_entries (serve (init 2 0) shared_minute).2 62)
     [(63%Q, Scenario.alice); (64%Q, Scenario.alice)]).1
  = (serve (serve (init 2 0) shared_minute).2
       [(63%Q, Scenario.alice); (64%Q, Scenario.alice)]).1.
Proof.
  apply (cleanup_never_changes_decisions (serve (init 2 0) shared_minute).2 62
           [(63%Q, Scenario.alice); (64%Q, Scenario.alice)]).
  simpl. repeat constructor; unfold Qle; simpl; lia.
Defined.

(** X5.  With a ceiling of zero or less, [dispatch] raises for every
    request, whatever the clock, the [HTTPException] of status 429 whose
    detail names the ceiling, and forwards none: a ceiling of zero closes
    the service, it does not switch the limit off.  Behind the
    middleware stack of [main.py] each of these exceptions is answered
    with 500 "Internal Server Error". *)
Theorem ceiling_of_zero_rejects_everything (rpm : Z) (t0 : Q)
    (evs : list (Q * Request)) :
  rpm <= 0 →
  Forall (fun o => o = Rejected (Py.HTTPException 429
                                   ("Rate limit exceeded. Maximum "
                                      +:+ pretty rpm
                                      +:+ " requests per minute.")))
    (serve (init rpm t0) evs).1
  ∧ ∀ (A : Type) (route : result A) (req : Request) (now : Q),
      (dispatch (serve (init rpm t0) evs).2 req now).1
      = Rejected (Py.HTTPException 429
                    ("Rate limit exceeded. Maximum " +:+ pretty rpm
                       +:+ " requests per minute."))
      ∧ (Main.app (serve (init rpm t0) evs).2 route req now).1
        = Main.Failed 500 "Internal Server Error".
Proof.
  intros Hrpm.
  assert (Hone : ∀ self r t, requests_per_minute self = rpm →
            (dispatch self r t).1
            = Rejected (Py.HTTPException 429
                          ("Rate limit exceeded. Maximum " +:+ pretty rpm
                             +:+ " requests per minute."))).
  { intros self r t Hself.
    pose proof (dispatch_spec self r t) as Hd. simpl in Hd.
    destruct (dispatch self r t) as [o s']. cbn [fst].
    destruct Hd as (_ & _ & Hd). rewrite Z.geb_leb, Hself in Hd.
    destruct (_ <=? _) eqn:E; [by destruct Hd as [-> _]|].
    apply Z.leb_gt in E. lia. }
  split.
  - assert (∀ self, requests_per_minute self = rpm →
              Forall (fun o => o = Rejected (Py.HTTPException 429
                                   ("Rate limit exceeded. Maximum "
                                      +:+ pretty rpm
                                      +:+ " requests per minute.")))
                (serve self evs).1) as H.
    { induction evs as [|[t r] rest IH]; intros self Hself; [constructor|].
      rewrite serve_cons. cbn [fst].
      constructor; [by apply Hone|apply IH; by rewrite dispatch_rpm]. }
    by apply H.
  - intros A route req now.
    assert (Hd : (dispatch (serve (init rpm t0) evs).2 req now).1
                 = Rejected (Py.HTTPException 429
                               ("Rate limit exceeded. Maximum " +:+ pretty rpm
                                  +:+ " requests per minute.")))
      by (apply Hone, serve_rpm).
    split; [exact Hd|]. by rewrite app_cases, Hd.
Qed.

Lemma ceiling_of_zero_rejects_everything_witness :
  Forall (fun o => o = Rejected (Py.HTTPException 429
                                   "Rate limit exceeded. Maximum 0 requests per minute."))
    (serve (init 0 0) shared_minute).1
  ∧ (Main.app (serve (init 0 0) shared_minute).2 (Ok tt) bob 5).1
    = Main.Failed 500 "Internal Server Error".
Proof.
  destruct (ceiling_of_zero_rejects_everything 0 0 shared_minute
              ltac:(vm_compute; discriminate)) as [Hall Happ].
  split; [exact Hall|]. exact (proj2 (Happ unit (Ok tt) bob 5%Q)).
Defined.

Lemma swept_keeps_empty self t u :
  getitem (requests self) u = [] → getitem (requests (swept self t)) u = [].
Proof.
  intros H. unfold swept. destruct (Qltb _ _); [|done].
  change (getitem (requests (_cleanup_old_entries self t)) u = []).
  by rewrite getitem_cleanup, H.
Qed.

Lemma serve_fresh evs : ∀ self,
  0 < requests_per_minute self →
  (∀ r, r ∈ evs.*2 → getitem (requests self) (identity r) = []) →
  NoDup (identity <$> evs.*2) →
  Forall (fun o => o = Forwarded) (serve self evs).1.
Proof.
  induction evs as [|[t r] rest IH]; intros self Hrpm Hnew Hdup;
    [constructor|].
  rewrite serve_cons. cbn [fst snd].
  rewrite !fmap_cons in Hdup. cbn [snd] in Hdup.
  apply NoDup_cons in Hdup as [Hr Hdup].
  pose proof (dispatch_spec self r t) as Hd. simpl in Hd.
  destruct (dispatch self r t) as [o self'] eqn:Ed. cbn [fst snd].
  destruct Hd as (Hrpm' & Hother & Hme).
  rewrite (Hnew r) in Hme by (rewrite fmap_cons; left).
  cbn [newer_than List.filter length] in Hme. rewrite Z.geb_leb in Hme.
  destruct (requests_per_minute self <=? Z.of_nat 0) eqn:E;
    [apply Z.leb_le in E; lia|].
  destruct Hme as [-> _]. constructor; [done|].
  apply IH; [lia| |done].
  intros r' Hr'. rewrite Hother.
  - apply swept_keeps_empty, Hnew. rewrite fmap_cons. by right.
  - intros Heq. apply Hr. rewrite <- Heq. by apply list_elem_of_fmap_2.
Qed.

(** X6.  With a positive ceiling, requests that each come under an
    identity of their own (a new [X-User-ID] header each time, from one
    address or many) are all let through, whatever the clock. *)
Theorem fresh_identities_are_never_throttled (rpm : Z) (t0 : Q)
    (evs : list (Q * Request)) :
  0 < rpm →
  NoDup (identity <$> evs.*2) →
  Forall (fun o => o = Forwarded) (serve (init rpm t0) evs).1.
Proof.
  intros Hrpm Hdup. apply serve_fresh; [done| |done].
  intros r _. unfold getitem. cbn. by rewrite lookup_empty.
Qed.

Lemma fresh_identities_are_never_throttled_witness :
  Forall (fun o => o = Forwarded) (serve (init 1 0) rotating).1.
Proof.
  apply (fresh_identities_are_never_throttled 1 0 rotating); [lia|].
  apply (bool_decide_unpack _). vm_compute. reflexivity.
Defined.

End ThrottleMore.

(* ===================================================================== *)
(** ** Further properties of the backend client *)
(* ===================================================================== *)

Section ClientMore.
Import Py HttpClient ClientViews.

Lemma range_seq (j m : nat) :
  Z.of_nat <$> seq j (S m) = Z.of_nat j :: (Z.of_nat <$> seq (S j) m).
Proof. done. Qed.

Lemma attempts_schedule self method url endpoint data W (m : nat) :
  ∀ (j : nat) last_error s,
  Z.of_nat (j + S m) = max_retries self →
  let call := {| Net.method := method; Net.url := url; Net.data := data |} in
  let n := length (backend_calls s) in
  let nth i := answer W endpoint (backend W (n + i) call) in
  let out := attempts self method url endpoint data
               (Z.of_nat <$> seq j (S m)) last_error W s in
  ∃ k : nat,
    (k ≤ m)%nat
    ∧ backend_calls out.2 = backend_calls s ++ replicate (S k) call
    ∧ sleeps out.2
      = sleeps s ++ ((fun a => retry_delay self * 2 ^ a) <$>
                     (Z.of_nat <$> seq j k))
    ∧ (∀ i, (i < k)%nat → ∃ e, nth i = Raise e)
    ∧ match out.1 with
      | Ok v => nth k = Ok v
      | Raise e' => k = m ∧ ∃ e, nth k = Raise e ∧ e' = gave_up self url e
      end.
Proof.
  induction m as [|m IH]; intros j last_error s Hn call n nth.
  - cbn zeta. rewrite range_seq. cbn [seq fmap list_fmap].
    rewrite attempts_cons. fold call n.
    exists 0%nat. unfold nth. rewrite Nat.add_0_r.
    destruct (answer W endpoint (backend W n call)) as [v|e] eqn:E.
    + cbn [fst snd sent backend_calls sleeps]. rewrite app_nil_r.
      split; [lia|]. split; [done|]. split; [done|]. split; [|done].
      intros i Hi. lia.
    + replace (Z.of_nat j =? max_retries self - 1) with true
        by (symmetry; apply Z.eqb_eq; lia).
      cbn [fst snd sent backend_calls sleeps]. rewrite app_nil_r.
      split; [lia|]. split; [done|]. split; [done|].
      split; [intros i Hi; lia|]. split; [done|]. by exists e.
  - cbn zeta. rewrite range_seq.
    rewrite attempts_cons. fold call n.
    destruct (answer W endpoint (backend W n call)) as [v|e] eqn:E.
    + exists 0%nat. unfold nth. rewrite Nat.add_0_r, E.
      cbn [fst snd sent backend_calls sleeps seq fmap list_fmap].
      rewrite app_nil_r.
      split; [lia|]. split; [done|]. split; [done|]. split; [|done].
      intros i Hi. lia.
    + replace (Z.of_nat j =? max_retries self - 1) with false
        by (symmetry; apply Z.eqb_neq; lia).
      set (s1 := slept (retry_delay self * 2 ^ Z.of_nat j) (sent call s)).
      destruct (IH (S j) (Some (noted e)) s1 ltac:(lia))
        as (k & Hk & Hcalls & Hsleeps & Hbefore & Hout).
      exists (S k).
      assert (Hlen : length (backend_calls s1) = S n).
      { unfold s1. cbn. rewrite length_app. simpl. lia. }
      rewrite Hlen in Hbefore, Hout.
      split; [lia|]. split.
      { rewrite Hcalls. unfold s1. cbn [slept sent backend_calls].
        by rewrite <- app_assoc. }
      split.
      { rewrite Hsleeps. unfold s1. cbn [slept sent sleeps].
        by rewrite <- app_assoc. }
      split.
      { intros [|i] Hi; unfold nth.
        - rewrite Nat.add_0_r. by exists e.
        - replace (n + S i)%nat with (S n + i)%nat by lia.
          apply Hbefore. lia. }
      unfold nth. replace (n + S k)%nat with (S n + k)%nat by lia.
      destruct (attempts _ _ _ _ _ _ _ _ _).1; [done|].
      destruct Hout as [-> Hout]. done.
Qed.

(** X7.  The retry loop of [_request], for any client configuration.
    With [max_retries >= 1]: it makes [k] attempts of the same call,
    [1 <= k <= max_retries]; it sleeps [retry_delay * 2 ** i] after
    the failed attempt [i] and never after the last attempt; every
    attempt but the last raised; a returned value is what the last
    attempt gave; an exception leaves only after [max_retries] attempts
    and is the one built from the last attempt's exception.  With
    [max_retries <= 0]: no call is made, nothing is slept, and the
    exception is the one of the last line of [_request]. *)
Theorem backoff_schedule (self : HTTPClient) (W : World) (s : State)
    (method endpoint : string) (data : option (gmap string value)) :
  let url := base_url self +:+ endpoint in
  let call := {| Net.method := method; Net.url := url; Net.data := data |} in
  let n := length (backend_calls s) in
  let nth i := answer W endpoint (backend W (n + i) call) in
  let out := _request self method endpoint data W s in
  (1 <= max_retries self →
   ∃ k : nat,
     (1 ≤ k)%nat ∧ Z.of_nat k <= max_retries self
     ∧ backend_calls out.2 = backend_calls s ++ replicate k call
     ∧ sleeps out.2 = sleeps s ++ backoff self (k - 1)
     ∧ (∀ i, (i < k - 1)%nat → ∃ e, nth i = Raise e)
     ∧ match out.1 with
       | Ok v => nth (k - 1)%nat = Ok v
       | Raise e' =>
           Z.of_nat k = max_retries self
           ∧ ∃ e, nth (k - 1)%nat = Raise e ∧ e' = gave_up self url e
       end)
  ∧ (max_retries self <= 0 →
     out = (Raise (Exception "Request failed after all retries: None"), s)).
Proof.
  intros url call n nth out. split.
  - intros Hpos.
    destruct (Z.to_nat (max_retries self)) as [|m] eqn:Em; [lia|].
    destruct (attempts_schedule self method url endpoint data W m 0 None s
                ltac:(lia)) as (k & Hk & Hcalls & Hsleeps & Hbefore & Hout).
    exists (S k). unfold out, _request, range. rewrite Em. fold url.
    replace (S k - 1)%nat with k by lia.
    split; [lia|]. split; [lia|]. split; [done|].
    split; [by rewrite Hsleeps; unfold backoff, range; rewrite Nat2Z.id|].
    split; [done|].
    destruct (attempts _ _ _ _ _ _ _ _ _).1; [done|].
    destruct Hout as [-> Hout]. split; [lia|done].
  - intros Hzero. unfold out, _request, range.
    replace (Z.to_nat (max_retries self)) with 0%nat by lia. done.
Qed.

Lemma backoff_schedule_witness :
  (∃ k : nat,
     (1 ≤ k)%nat
     ∧ sleeps (_request patient "GET" "/ping" None Scenario.webhook_down
                 initial).2 = backoff patient (k - 1))
  ∧ _request impatient "GET" "/ping" None Scenario.webhook_down initial
    = (Raise (Exception "Request failed after all retries: None"), initial).
Proof.
  destruct (backoff_schedule patient Scenario.webhook_down initial
              "GET" "/ping" None) as [H _].
  destruct (H ltac:(simpl; lia)) as (k & Hk & _ & _ & Hs & _).
  split; [exists k; split; [exact Hk|exact Hs]|].
  apply (backoff_schedule impatient Scenario.webhook_down initial
           "GET" "/ping" None).
  simpl. lia.
Defined.

(** *** [quote_plus] *)

Lemma quote_plus_cons c rest :
  quote_plus (String c rest) = quoted c +:+ quote_plus rest.
Proof.
  unfold quoted. cbn [quote_plus].
  destruct (unreserved _); [done|]. by destruct (_ =? 32)%N.
Qed.

Lemma all_chars_app P s1 s2 :
  all_chars P (s1 +:+ s2) = all_chars P s1 && all_chars P s2.
Proof.
  induction s1 as [|c s1 IH]; [done|]. simpl. rewrite IH.
  by rewrite andb_assoc.
Qed.

Lemma N_of_ascii_lt c : (N_of_ascii c < 256)%N.
Proof. apply N_ascii_bounded. Qed.

Lemma quoted_safe c : all_chars url_safe (quoted c) = true.
Proof.
  rewrite <- (ascii_N_embedding c).
  assert (forallb (fun n => all_chars url_safe (quoted (ascii_of_N n)))
            (below 256) = true) as H by (vm_compute; reflexivity).
  apply (below_all _ 256 H). apply N_of_ascii_lt.
Qed.

(** X8.  Whatever the user id, its encoding in the query string of the
    credits call holds letters, digits, [_ . - ~], [+] and [%] only: no
    [&], [=], [#], [/], [?] or blank can come out of [quote_plus]. *)
Theorem quote_plus_is_url_safe (s : string) :
  all_chars url_safe (quote_plus s) = true.
Proof.
  induction s as [|c rest IH]; [done|].
  by rewrite quote_plus_cons, all_chars_app, quoted_safe, IH.
Qed.

Lemma mismatch_app s1 s2 x y :
  mismatch s1 s2 = true → s1 +:+ x ≠ s2 +:+ y.
Proof.
  revert s2. induction s1 as [|c1 r1 IH]; intros [|c2 r2]; try done.
  simpl. intros [Hc|Hr]%orb_true_iff [= Hc' Hr'].
  - subst. by rewrite Ascii.eqb_refl in Hc.
  - by apply (IH r2).
Qed.

Lemma quoted_apart a b :
  a ≠ b → mismatch (quoted a) (quoted b) = true.
Proof.
  intros Hne.
  assert (forallb (fun m => forallb (fun n =>
            (m =? n)%N
            || mismatch (quoted (ascii_of_N m)) (quoted (ascii_of_N n)))
            (below 256)) (below 256) = true) as H by (vm_compute; reflexivity).
  pose proof (below_all2 _ 256 256 H (N_of_ascii a) (N_of_ascii b)
                (N_of_ascii_lt a) (N_of_ascii_lt b)) as Hab.
  cbv beta in Hab. rewrite !ascii_N_embedding in Hab.
  apply orb_true_iff in Hab as [Heq%N.eqb_eq|]; [|done].
  destruct Hne. by rewrite <- (ascii_N_embedding a), Heq, ascii_N_embedding.
Qed.

Lemma append_inv_head (p x y : string) : p +:+ x = p +:+ y → x = y.
Proof. induction p as [|c p IH]; [done|]. intros [= H]. by apply IH. Qed.

Lemma quoted_nonempty c : quoted c ≠ "".
Proof.
  unfold quoted. cbn [quote_plus].
  destruct (unreserved _); [done|]. by destruct (_ =? 32)%N.
Qed.

Lemma quote_plus_inj s1 : ∀ s2, quote_plus s1 = quote_plus s2 → s1 = s2.
Proof.
  induction s1 as [|c1 r1 IH]; intros [|c2 r2].
  - done.
  - rewrite quote_plus_cons. pose proof (quoted_nonempty c2).
    simpl. destruct (quoted c2); [done|discriminate].
  - rewrite quote_plus_cons. pose proof (quoted_nonempty c1).
    simpl. destruct (quoted c1); [done|discriminate].
  - rewrite !quote_plus_cons. intros H.
    destruct (decide (c1 = c2)) as [->|Hne].
    + apply append_inv_head in H. f_equal. by apply IH.
    + by apply mismatch_app in H; [|apply quoted_apart].
Qed.

(** X9.  Two requests with different user ids never ask the backend
    for the credits of the same URL: the encoding of the user id loses
    nothing. *)
Theorem credits_url_tells_users_apart (W : World) (form1 form2 : Generate.Form) :
  Generate.user_id form1 ≠ Generate.user_id form2 →
  Net.url (Generate.credits_call W form1)
  ≠ Net.url (Generate.credits_call W form2).
Proof.
  unfold Generate.credits_call, urlencode_user_id. cbn [Net.url].
  intros Hne H. apply Hne. do 2 apply append_inv_head in H.
  apply quote_plus_inj.
  by apply (append_inv_head "user_id=").
Qed.

Lemma credits_url_tells_users_apart_witness :
  Net.url (Generate.credits_call Scenario.webhook_down spaced)
  ≠ Net.url (Generate.credits_call Scenario.webhook_down plussed).
Proof.
  apply (credits_url_tells_users_apart Scenario.webhook_down spaced plussed).
  simpl. discriminate.
Defined.

End ClientMore.

(* ===================================================================== *)
(** ** Further properties of the pipeline *)
(* ===================================================================== *)

Section PipelineMore.
Import Py Generate PipelineViews.

Lemma request_calls W s method endpoint data :
  let call := {| Net.method := method;
                 Net.url := HttpClient.base_url (HttpClient.make W) +:+ endpoint;
                 Net.data := data |} in
  let out := HttpClient._request (HttpClient.make W) method endpoint data W s in
  ∃ k : nat, (1 ≤ k ≤ 3)%nat
    ∧ backend_calls out.2 = backend_calls s ++ replicate k call.
Proof.
  intros call out. unfold out. rewrite request_unrolled. fold call.
  repeat (match goal with
          | |- context [match HttpClient.answer ?W ?e ?a with _ => _ end] =>
              destruct (HttpClient.answer W e a)
          end);
    cbn [fst snd sent slept backend_calls]; rewrite <- ?app_assoc;
    [exists 1%nat|exists 2%nat|exists 3%nat|exists 3%nat]; (split; [lia|done]).
Qed.

Lemma verify_auth_calls form W s :
  let out := HttpClient.verify_auth (HttpClient.make W)
               (user_id form) (api_key form) W s in
  ∃ k : nat, (1 ≤ k ≤ 3)%nat
    ∧ backend_calls out.2 = backend_calls s ++ replicate k (auth_call W form).
Proof. apply request_calls. Qed.

Lemma check_credits_calls form W s :
  let out := HttpClient.check_credits (HttpClient.make W) (user_id form) W s in
  ∃ k : nat, (1 ≤ k ≤ 3)%nat
    ∧ backend_calls out.2 = backend_calls s ++ replicate k (credits_call W form).
Proof. apply request_calls. Qed.

Lemma send_webhook_calls form image_url latency W s :
  let out := HttpClient.send_webhook (HttpClient.make W) (user_id form) 1
               (catalog_id form) image_url latency W s in
  ∃ k : nat, (1 ≤ k ≤ 3)%nat
    ∧ backend_calls out.2
      = backend_calls s ++ replicate k (webhook_call W form image_url latency).
Proof. apply request_calls. Qed.

Lemma step1_calls form start_time name W s :
  let out := step1_verify_auth form start_time name W s in
  ∃ k : nat, (1 ≤ k ≤ 3)%nat
    ∧ backend_calls out.2 = backend_calls s ++ replicate k (auth_call W form).
Proof.
  intros out. unfold out. rewrite step1_cases.
  destruct (verify_auth_calls form W s) as (k & Hk & Hc).
  exists k. split; [done|].
  destruct (HttpClient.verify_auth _ _ _ W s) as [[v|e] s1]; cbn [fst snd] in *;
    [|done]. destruct v; try done. by destruct (unauthorized d).
Qed.

Lemma step2_calls form start_time name W s :
  let out := step2_check_credits form start_time name W s in
  ∃ k : nat, (1 ≤ k ≤ 3)%nat
    ∧ backend_calls out.2 = backend_calls s ++ replicate k (credits_call W form).
Proof.
  intros out. unfold out. rewrite step2_cases.
  destruct (check_credits_calls form W s) as (k & Hk & Hc).
  exists k. split; [done|].
  destruct (HttpClient.check_credits _ _ W s) as [[v|e] s1]; cbn [fst snd] in *;
    [|done]. destruct v; try done.
  by destruct (forbidden d), (has_credits d).
Qed.

Lemma step3_frame form start_time name user_img catalog_img W s :
  let out := step3_generate form start_time name user_img catalog_img W s in
  backend_calls out.2 = backend_calls s ∧ media out.2 = media s
  ∧ (generations s ≤ generations out.2 ≤ S (generations s))%nat
  ∧ match out.1 with
    | Ok _ => generations out.2 = S (generations s)
    | Raise _ => True
    end.
Proof.
  intros out. unfold out. rewrite step3_cases. unfold generation_failure.
  destruct (stage_inputs W) as [f|[user_path catalog_path]];
    [cbn; repeat split; lia|].
  destruct (resolved W) as [p|e]; [|cbn; repeat split; lia].
  destruct (produced W p user_path catalog_path) as [url|e];
    cbn; repeat split; lia.
Qed.

Lemma step4_frame form start_time name g W s :
  let out := step4_save form start_time name g W s in
  backend_calls out.2 = backend_calls s
  ∧ generations out.2 = generations s.
Proof.
  intros out. unfold out. rewrite step4_cases.
  destruct (save_image_frame g
              (artifact_name form (time_time W (clock_reads s))) W (ticked s))
    as (_ & Hg & _ & Hb & _).
  destruct (save_image _ _ W (ticked s)) as [[path|e] s1]; cbn [fst snd] in *;
    [done|]. unfold save_failure. by cbn [fst snd].
Qed.

(** X10.  When the credits call is answered at once with any status
    other than 200 (a 5xx of the backend included) and the response is
    read into a decision, step 2 ends the request with a 403: one call,
    no sleep, no provider call. *)
Theorem credits_rejection_is_always_403 (W : World) (s : State)
    (form : Form) (start_time : Q) (name : string) (r : Net.Response) :
  backend W (length (backend_calls s)) (credits_call W form)
  = Net.RequestReturns r →
  HttpClient.returns_decision r = true →
  Net.status r ≠ 200 →
  let out := step2_check_credits form start_time name W s in
  (∃ detail, out.1 = Raise (HTTPException 403 detail))
  ∧ backend_calls out.2 = backend_calls s ++ [credits_call W form]
  ∧ sleeps out.2 = sleeps s
  ∧ generations out.2 = generations s.
Proof.
  intros Hb Hr H200 out. unfold out. rewrite step2_cases.
  unfold HttpClient.check_credits. rewrite request_unrolled.
  fold (credits_call W form). rewrite Hb.
  apply (answer_returns W ("/api/v1/credits/check/?"
           +:+ HttpClient.urlencode_user_id (user_id form))) in Hr as [v Hv].
  rewrite Hv. cbn [fst snd].
  destruct (answer_error_response W _ r v H200 Hv)
    as (d & error & -> & _ & _ & Hh & _).
  unfold has_credits, dict_get. rewrite Hh. cbn [default truthy].
  destruct (forbidden d); cbn [fst snd]; eauto.
Qed.

Lemma credits_rejection_is_always_403_witness :
  ∃ detail,
    (step2_check_credits Scenario.form 1700000000 "openai"
       Cases.credits_server_error
       (sent (auth_call Cases.credits_server_error Scenario.form) initial)).1
    = Raise (HTTPException 403 detail).
Proof.
  exact (proj1 (credits_rejection_is_always_403 Cases.credits_server_error
                  (sent (auth_call Cases.credits_server_error Scenario.form)
                     initial)
                  Scenario.form 1700000000 "openai"
                  {| Net.status := 500;
                     Net.content :=
                       Net.Json (VDict {[ "error" :=
                                            VStr "database is locked" ]}) |}
                  ltac:(reflexivity) ltac:(reflexivity)
                  ltac:(simpl; lia))).
Defined.

(** X11.  When both input images are read and the backend answers the
    first attempt of the auth call with 401 and a body that [_request]
    reads into a decision ([returns_decision]: a JSON object, or a text
    that is no JSON), the request ends with a 401 whose detail starts
    with the fixed prefix: the auth call is the only backend call, it is
    not retried, no provider is called, and one error record is written,
    at the clock reading that follows the start.  A 401 whose body is
    JSON but no object is outside this statement: reading it raises
    inside [_request], which retries. *)
Theorem unauthorized_ends_the_request (W : World) (form : Form)
    (imgs : bytes * bytes) (r : Net.Response) :
  (resolve_inputs form W (ticked initial)).1 = Ok imgs →
  backend W 0 (auth_call W form) = Net.RequestReturns r →
  Net.status r = 401 →
  HttpClient.returns_decision r = true →
  let out := create_image form W initial in
  (∃ detail, out.1 = Raise (HTTPException 401
                              ("Authentication failed: " +:+ detail)))
  ∧ backend_calls out.2 = [auth_call W form]
  ∧ sleeps out.2 = []
  ∧ generations out.2 = 0%nat
  ∧ ∃ detail, audit out.2
              = [error_record form (started W) (provider_name W)
                   (time_time W 1) ("Unauthorized: " +:+ detail)].
Proof.
  intros Hin Hb Hst Hr out. unfold out.
  rewrite create_image_unfold, before_webhook_split. unfold mbind, M_bind.
  destruct (resolve_inputs_cases form W (ticked initial)) as (ri & Hri & _).
  rewrite Hri in Hin |- *. cbn [fst] in Hin. subst ri.
  unfold after_inputs, mbind, M_bind. rewrite step1_cases.
  destruct (unauthorized_at_once W (ticked initial) "POST"
              "/api/v1/auth/verify/"
              (Some (list_to_map [("user_id", VStr (user_id form));
                                  ("api_key", VStr (api_key form))]))
              r Hb Hst Hr) as (d & Hreq & He & Hs).
  assert (Hu : unauthorized d = true)
    by (unfold unauthorized, dict_get; rewrite Hs; reflexivity).
  unfold HttpClient.verify_auth. rewrite Hreq. cbn [fst snd]. rewrite Hu.
  rewrite outer_handler_cases.
  cbn [fst snd backend_calls sleeps generations audit logged ticked sent
       initial clock_reads app].
  eauto 10.
Qed.

Lemma unauthorized_ends_the_request_witness :
  backend_calls (create_image Scenario.form Cases.auth_unauthorized initial).2
  = [auth_call Cases.auth_unauthorized Scenario.form]
  ∧ generations (create_image Scenario.form Cases.auth_unauthorized initial).2
    = 0%nat.
Proof.
  destruct (unauthorized_ends_the_request Cases.auth_unauthorized Scenario.form
              (Scenario.png, Scenario.png)
              {| Net.status := 401;
                 Net.content :=
                   Net.Json (VDict {[ "detail" := VStr "Invalid API key" ]}) |}
              ltac:(vm_compute; reflexivity) ltac:(reflexivity)
              ltac:(reflexivity) ltac:(reflexivity))
    as (_ & Hc & _ & Hg & _).
  split; [exact Hc|exact Hg].
Defined.

(** X12.  When both input images are read and the three attempts of
    the auth call raise, the request ends with a 503 that carries the
    exception of [_request]; the three attempts are the only backend
    calls, with sleeps of 1 and 2 seconds between them, no provider is
    called, and one error record is written. *)
Theorem backend_unreachable_is_a_503 (W : World) (form : Form)
    (imgs : bytes * bytes) (f1 f2 f3 : failure) :
  (resolve_inputs form W (ticked initial)).1 = Ok imgs →
  backend W 0 (auth_call W form) = Net.RequestRaises f1 →
  backend W 1 (auth_call W form) = Net.RequestRaises f2 →
  backend W 2 (auth_call W form) = Net.RequestRaises f3 →
  let out := create_image form W initial in
  let e := HttpClient.gave_up (HttpClient.make W) (Net.url (auth_call W form))
             (Raised f3) in
  out.1 = Raise (HTTPException 503
                   ("Unable to verify authentication. Backend may be unavailable: "
                      +:+ str_exn e))
  ∧ backend_calls out.2 = replicate 3 (auth_call W form)
  ∧ sleeps out.2 = [1; 2]
  ∧ generations out.2 = 0%nat
  ∧ audit out.2
    = [error_record form (started W) (provider_name W) (time_time W 1)
         ("Backend connection error during auth: " +:+ str_exn e)].
Proof.
  intros Hin H1 H2 H3 out e. unfold out.
  rewrite create_image_unfold, before_webhook_split. unfold mbind, M_bind.
  destruct (resolve_inputs_cases form W (ticked initial)) as (ri & Hri & _).
  rewrite Hri in Hin |- *. cbn [fst] in Hin. subst ri.
  unfold after_inputs, mbind, M_bind. rewrite step1_cases.
  unfold HttpClient.verify_auth. rewrite request_unrolled.
  fold (auth_call W form).
  change (length (backend_calls (ticked initial))) with 0%nat.
  rewrite H1, H2, H3. cbn [HttpClient.answer fst snd].
  rewrite outer_handler_cases.
  cbn [fst snd backend_calls sleeps generations audit logged ticked sent slept
       initial clock_reads app replicate].
  done.
Qed.

Lemma backend_unreachable_is_a_503_witness :
  (create_image Scenario.form Cases.backend_down initial).1
  = Raise (HTTPException 503
             "Unable to verify authentication. Backend may be unavailable: Network error after 3 attempts connecting to http://localhost:8000/api/v1/auth/verify/: Cannot connect to host")
  ∧ sleeps (create_image Scenario.form Cases.backend_down initial).2 = [1; 2].
Proof.
  destruct (backend_unreachable_is_a_503 Cases.backend_down Scenario.form
              (Scenario.png, Scenario.png)
              (Failure ClientError "ClientConnectorError" "Cannot connect to host")
              (Failure ClientError "ClientConnectorError" "Cannot connect to host")
              (Failure ClientError "ClientConnectorError" "Cannot connect to host")
              ltac:(vm_compute; reflexivity) ltac:(reflexivity)
              ltac:(reflexivity) ltac:(reflexivity))
    as (Ho & _ & Hs & _).
  split; [exact Ho|exact Hs].
Defined.

(** X13.  When reading an input image raises (an upload that cannot be
    read, a download that fails, a file that is not there), the request
    ends with a 500 of the outer handler that carries [str(e)], one
    error record names the type of the exception, and nothing else has
    happened: no backend call, no provider call, no image saved. *)
Theorem unreadable_input_is_an_internal_error (W : World) (form : Form)
    (f : failure) :
  (resolve_inputs form W (ticked initial)).1 = Raise (Raised f) →
  let out := create_image form W initial in
  out.1 = Raise (HTTPException 500 ("Internal server error: " +:+ message f))
  ∧ audit out.2
    = [error_record form (started W) (provider_name W) (time_time W 1)
         ("Unexpected error (" +:+ type_name f +:+ "): " +:+ message f)]
  ∧ backend_calls out.2 = []
  ∧ generations out.2 = 0%nat
  ∧ media out.2 = ∅.
Proof.
  intros Hin out. unfold out.
  rewrite create_image_unfold, before_webhook_split. unfold mbind, M_bind.
  destruct (resolve_inputs_cases form W (ticked initial)) as (ri & Hri & _).
  rewrite Hri in Hin |- *. cbn [fst] in Hin. subst ri.
  rewrite outer_handler_cases. done.
Qed.

Lemma unreadable_input_is_an_internal_error_witness :
  (create_image Scenario.form Cases.input_host_404 initial).1
  = Raise (HTTPException 500
             "Internal server error: Failed to download image from https://cdn.example/user.jpg: 404")
  ∧ backend_calls (create_image Scenario.form Cases.input_host_404 initial).2
    = [].
Proof.
  destruct (unreadable_input_is_an_internal_error Cases.input_host_404
              Scenario.form
              (Failure OtherException "Exception"
                 "Failed to download image from https://cdn.example/user.jpg: 404")
              ltac:(vm_compute; reflexivity))
    as (Ho & _ & Hc & _).
  split; [exact Ho|exact Hc].
Defined.

(** X14.  A user image given by an http(s) URL whose host answers with
    a status other than 200: the request ends with a 500 (not a 400 or a
    502) that names the URL and the status, one error record of type
    [Exception] is written, and neither the backend nor the provider is
    called, whatever the catalog image fields hold. *)
Theorem input_download_failure_is_a_500 (W : World) (form : Form)
    (u : string) (status : Z) (body : failure + bytes) :
  user_image form = None →
  user_image_url form = Some u →
  startswith u "http://" || startswith u "https://" = true →
  http_get W u = Net.GetReturns status body →
  status ≠ 200 →
  let out := create_image form W initial in
  out.1 = Raise (HTTPException 500
                   ("Internal server error: Failed to download image from "
                      +:+ u +:+ ": " +:+ pretty status))
  ∧ audit out.2
    = [error_record form (started W) (provider_name W) (time_time W 1)
         ("Unexpected error (Exception): Failed to download image from "
            +:+ u +:+ ": " +:+ pretty status)]
  ∧ backend_calls out.2 = []
  ∧ generations out.2 = 0%nat.
Proof.
  intros Hfile Hurl Hhttp Hget Hst out. unfold out.
  rewrite create_image_unfold, before_webhook_split. unfold mbind, M_bind.
  assert (Hu : String.eqb u "" = false).
  { apply String.eqb_neq. intros ->. by vm_compute in Hhttp. }
  assert (Hri : resolve_inputs form W (ticked initial)
                = (Raise (Exception ("Failed to download image from " +:+ u
                                       +:+ ": " +:+ pretty status)),
                   ticked initial)).
  { unfold resolve_inputs, resolve_input. rewrite Hfile, Hurl, Hu.
    unfold get_image_data. rewrite Hhttp. unfold download_image. mred.
    rewrite Hget. apply Z.eqb_neq in Hst. by rewrite Hst. }
  rewrite Hri, outer_handler_cases. done.
Qed.

Lemma input_download_failure_is_a_500_witness :
  (create_image Scenario.form Cases.input_host_404 initial).1
  = Raise (HTTPException 500
             ("Internal server error: Failed to download image from "
                +:+ "https://cdn.example/user.jpg" +:+ ": " +:+ pretty 404))
  ∧ generations (create_image Scenario.form Cases.input_host_404 initial).2
    = 0%nat.
Proof.
  destruct (input_download_failure_is_a_500 Cases.input_host_404 Scenario.form
              "https://cdn.example/user.jpg" 404 (inr [])
              ltac:(reflexivity) ltac:(reflexivity) ltac:(reflexivity)
              ltac:(reflexivity) ltac:(lia))
    as (Ho & _ & _ & Hg).
  split; [exact Ho|exact Hg].
Defined.

(** *** The status codes of the stages *)

Lemma step1_codes form start_time name W s :
  match (step1_verify_auth form start_time name W s).1 with
  | Raise (HTTPException c _) => c = 401 ∨ c = 503
  | _ => True
  end.
Proof.
  rewrite step1_cases.
  destruct (HttpClient.verify_auth _ _ _ W s) as [[v|e] s1]; cbn [fst snd];
    [|by right]. destruct v; try done. destruct (unauthorized d); [by left|done].
Qed.

Lemma step2_codes form start_time name W s :
  match (step2_check_credits form start_time name W s).1 with
  | Raise (HTTPException c _) => c = 403 ∨ c = 503
  | _ => True
  end.
Proof.
  rewrite step2_cases.
  destruct (HttpClient.check_credits _ _ W s) as [[v|e] s1]; cbn [fst snd];
    [|by right]. destruct v; try done.
  destruct (forbidden d); [by left|]. destruct (has_credits d); [done|by left].
Qed.

Lemma step3_codes form start_time name user_img catalog_img W s :
  match (step3_generate form start_time name user_img catalog_img W s).1 with
  | Raise (HTTPException c _) => c = 500
  | Raise (Raised _) => False
  | Ok _ => True
  end.
Proof.
  rewrite step3_cases. unfold generation_failure.
  destruct (stage_inputs W) as [f|[user_path catalog_path]]; [done|].
  destruct (resolved W) as [p|e]; [|done].
  by destruct (produced W p user_path catalog_path).
Qed.

Lemma step4_codes form start_time name g W s :
  match (step4_save form start_time name g W s).1 with
  | Raise (HTTPException c _) => c = 500 ∨ c = 502
  | Raise (Raised _) => False
  | Ok _ => True
  end.
Proof.
  rewrite step4_cases.
  destruct (save_image _ _ W (ticked s)) as [[path|e] s1]; cbn [fst snd];
    [done|]. unfold save_failure. cbn [fst].
  destruct (is_kind ClientError e); [by right|by left].
Qed.

Lemma after_inputs_codes form start_time name imgs W s :
  match (after_inputs form start_time name imgs W s).1 with
  | Raise (HTTPException c _) => c ∈ [401; 403; 500; 502; 503]
  | _ => True
  end.
Proof.
  unfold after_inputs, mbind, M_bind.
  pose proof (step1_codes form start_time name W s) as H1.
  destruct (step1_verify_auth form start_time name W s) as [[[]|e] s1];
    cbn [fst] in *;
    [|destruct e; [destruct H1 as [-> | ->]; set_solver|done]].
  pose proof (step2_codes form start_time name W s1) as H2.
  destruct (step2_check_credits form start_time name W s1) as [[[]|e] s2];
    cbn [fst] in *;
    [|destruct e; [destruct H2 as [-> | ->]; set_solver|done]].
  pose proof (step3_codes form start_time name imgs.1 imgs.2 W s2) as H3.
  destruct (step3_generate form start_time name imgs.1 imgs.2 W s2)
    as [[g|e] s3]; cbn [fst] in *;
    [|destruct e; [subst; set_solver|done]].
  pose proof (step4_codes form start_time name g W s3) as H4.
  destruct (step4_save form start_time name g W s3) as [[u|e] s4];
    cbn [fst] in *; [done|].
  destruct e; [destruct H4 as [-> | ->]; set_solver|done].
Qed.

(** X15.  [create_image] answers every request with one of the
    statuses 200, 400, 401, 403, 500, 502 and 503; no exception other
    than an [HTTPException] leaves it. *)
Theorem create_image_status_codes (W : World) (form : Form) :
  ∃ c, http_status (create_image form W initial).1 = Some c
       ∧ c ∈ [200; 400; 401; 403; 500; 502; 503].
Proof.
  rewrite create_image_unfold, before_webhook_split. unfold mbind, M_bind.
  destruct (resolve_inputs_cases form W (ticked initial)) as (ri & -> & Hri).
  destruct ri as [imgs|[c d|f]].
  - pose proof (after_inputs_codes form (started W) (provider_name W) imgs W
                  (ticked initial)) as Hc.
    destruct (after_inputs _ _ _ imgs W (ticked initial)) as [[url|[c d|f]] s1];
      cbn [fst] in Hc.
    + rewrite step5_cases. cbn [fst http_status]. eexists. split; [done|].
      set_solver.
    + rewrite outer_handler_cases. cbn [fst http_status]. eexists.
      split; [done|]. apply elem_of_cons. right. apply elem_of_cons. right.
      exact Hc.
    + rewrite outer_handler_cases. cbn [fst http_status]. eexists.
      split; [done|]. set_solver.
  - rewrite outer_handler_cases. cbn [fst http_status]. eexists.
    split; [done|]. destruct Hri as [_ ->]. set_solver.
  - rewrite outer_handler_cases. cbn [fst http_status]. eexists.
    split; [done|]. set_solver.
Qed.

(** *** What the stages leave behind *)

Lemma before_credits_frame form start_time name W s :
  let out := before_credits form start_time name W s in
  generations out.2 = generations s ∧ media out.2 = media s
  ∧ calls_backend_for form W s out.2.
Proof.
  intros out. unfold out, before_credits, mbind, M_bind, mret, M_ret.
  destruct (resolve_inputs_cases form W s) as (r & -> & _).
  destruct r as [imgs|e]; [|by repeat split; exists []; rewrite app_nil_r].
  destruct (step1_frame form start_time name W s) as [Hg Hm].
  destruct (step1_calls form start_time name W s) as (k & _ & Hc).
  assert (calls_backend_for form W s
            (step1_verify_auth form start_time name W s).2) as Hcalls.
  { eexists. split; [exact Hc|]. apply Forall_replicate. by left. }
  by destruct (step1_verify_auth form start_time name W s) as [[[]|e] s1].
Qed.

Lemma calls_backend_for_trans form W s1 s2 s3 :
  calls_backend_for form W s1 s2 → calls_backend_for form W s2 s3 →
  calls_backend_for form W s1 s3.
Proof.
  intros (l1 & H1 & F1) (l2 & H2 & F2). exists (l1 ++ l2).
  split; [by rewrite H2, H1, app_assoc|by apply Forall_app].
Qed.

Lemma calls_backend_for_same form W s1 s2 :
  backend_calls s2 = backend_calls s1 → calls_backend_for form W s1 s2.
Proof. intros H. exists []. by rewrite app_nil_r. Qed.

Lemma before_generate_frame form start_time name W s :
  let out := before_generate form start_time name W s in
  generations out.2 = generations s ∧ media out.2 = media s
  ∧ calls_backend_for form W s out.2.
Proof.
  intros out. unfold out, before_generate, mbind, M_bind, mret, M_ret.
  destruct (before_credits_frame form start_time name W s) as (Hg & Hm & Hc).
  destruct (before_credits form start_time name W s) as [[imgs|e] s1];
    [|done]. cbn [snd] in *.
  destruct (step2_frame form start_time name W s1) as [Hg' Hm'].
  destruct (step2_calls form start_time name W s1) as (k & _ & Hc').
  assert (calls_backend_for form W s
            (step2_check_credits form start_time name W s1).2) as Hcalls.
  { apply (calls_backend_for_trans _ _ _ s1); [done|].
    eexists. split; [exact Hc'|]. apply Forall_replicate. by right. }
  destruct (step2_check_credits form start_time name W s1) as [[[]|e] s2];
    cbn [snd] in *; repeat split; congruence || done.
Qed.

Lemma before_save_frame form start_time name W s :
  let out := before_save form start_time name W s in
  media out.2 = media s ∧ calls_backend_for form W s out.2
  ∧ (generations out.2 ≤ S (generations s))%nat
  ∧ match out.1 with
    | Ok _ => generations out.2 = S (generations s)
    | Raise _ => True
    end.
Proof.
  intros out. unfold out, before_save, mbind, M_bind.
  destruct (before_generate_frame form start_time name W s) as (Hg & Hm & Hc).
  destruct (before_generate form start_time name W s) as [[[u c]|e] s1];
    cbn [fst snd] in *; [|repeat split; done || lia].
  destruct (step3_frame form start_time name u c W s1) as (Hb & Hm' & Hg' & Ho).
  split; [congruence|]. split.
  { apply (calls_backend_for_trans _ _ _ s1); [done|].
    by apply calls_backend_for_same. }
  split; [lia|].
  destruct (step3_generate form start_time name u c W s1).1; [lia|done].
Qed.

Lemma outer_handler_frame form start_time name e W s :
  let out := outer_handler form start_time name e W s in
  backend_calls out.2 = backend_calls s ∧ generations out.2 = generations s
  ∧ media out.2 = media s ∧ ∃ e', out.1 = Raise e'.
Proof. rewrite outer_handler_cases. destruct e; cbn; eauto 10. Qed.

Lemma webhook_is_no_stage_call W form image_url latency c :
  c = auth_call W form ∨ c = credits_call W form →
  c ≠ webhook_call W form image_url latency.
Proof.
  assert (∀ (p x y : string), x ≠ y → p +:+ x ≠ p +:+ y) as Happ.
  { intros p x y Hne. induction p as [|a p IH]; [done|].
    intros [= H]. by apply IH. }
  intros [-> | ->]; unfold auth_call, credits_call, webhook_call;
    intros H; apply (f_equal Net.url) in H; cbn [Net.url] in H;
    revert H; by apply Happ.
Qed.

(** X16.  The webhook reports successes only.  When [create_image]
    returns, the backend calls are attempts of the auth call and of the
    credits call followed by one to three attempts of the webhook call,
    and the webhook call carries the [image_url] and the [latency_ms] of
    the response and one used credit.  When [create_image] raises, no
    webhook call was made. *)
Theorem webhook_reports_only_successes (W : World) (form : Form) :
  let out := create_image form W initial in
  match out.1 with
  | Ok resp =>
      ∃ url before (k : nat),
        image_url resp = Some url
        ∧ (1 ≤ k ≤ 3)%nat
        ∧ backend_calls out.2
          = before ++ replicate k (webhook_call W form url (latency_ms resp))
        ∧ Forall (fun c => c = auth_call W form ∨ c = credits_call W form)
            before
  | Raise _ =>
      ∀ url latency, webhook_call W form url latency ∉ backend_calls out.2
  end.
Proof.
  intros out. unfold out. rewrite create_image_unfold.
  unfold before_webhook, mbind, M_bind.
  destruct (before_save_frame form (started W) (provider_name W) W
              (ticked initial)) as (_ & (l & Hl & Fl) & _).
  cbn [backend_calls ticked initial app] in Hl.
  assert (Hno : ∀ s' url latency, backend_calls s' = l →
            webhook_call W form url latency ∉ backend_calls s').
  { intros s' url latency -> Hin.
    apply (proj1 (Forall_forall _ _) Fl) in Hin.
    by apply webhook_is_no_stage_call with (image_url := url)
                                           (latency := latency) in Hin. }
  destruct (before_save _ _ _ W (ticked initial)) as [[g|e] s1];
    cbn [fst snd] in *.
  - destruct (step4_frame form (started W) (provider_name W) g W s1)
      as [Hb _].
    destruct (step4_save _ _ _ g W s1) as [[url|e] s2]; cbn [fst snd] in *.
    + rewrite step5_cases. cbn [fst snd image_url latency_ms].
      match goal with
      | |- context [HttpClient.send_webhook _ _ _ _ ?u ?lat W ?s] =>
          destruct (send_webhook_calls form u lat W s) as (k & Hk & Hc);
          destruct (HttpClient.send_webhook _ _ _ _ u lat W s) as [[v|e] s3]
      end; cbn [fst snd backend_calls logged ticked] in *;
        exists url, l, k; rewrite Hc, Hb, Hl; done.
    + destruct (outer_handler_frame form (started W) (provider_name W) e W s2)
        as (Hb' & _ & _ & e' & He').
      rewrite He'. intros url latency. apply Hno. congruence.
  - destruct (outer_handler_frame form (started W) (provider_name W) e W s1)
      as (Hb' & _ & _ & e' & He').
    rewrite He'. intros url latency. apply Hno. congruence.
Qed.

(** X17.  The provider is entered at most once in a request, and only
    after the auth stage passed and [check_credits] returned a
    dictionary whose [has_credits] entry is there and truthy. *)
Theorem provider_runs_only_with_credits (W : World) (form : Form) :
  let out := create_image form W initial in
  (generations out.2 ≤ 1)%nat
  ∧ (generations out.2 = 1%nat →
     ∃ imgs s1 s2 d v,
       before_credits form (started W) (provider_name W) W (ticked initial)
       = (Ok imgs, s1)
       ∧ HttpClient.check_credits (HttpClient.make W) (user_id form) W s1
         = (Ok (VDict d), s2)
       ∧ d !! "has_credits" = Some v ∧ truthy v = true).
Proof.
  intros out. unfold out. rewrite create_image_unfold.
  unfold before_webhook, before_save, before_generate, mbind, M_bind,
    mret, M_ret.
  destruct (before_credits_frame form (started W) (provider_name W) W
              (ticked initial)) as (Hg0 & _).
  cbn [generations ticked initial] in Hg0.
  destruct (before_credits _ _ _ W (ticked initial)) as [[imgs|e] s1] eqn:Hpre;
    cbn [snd] in Hg0.
  2:{ destruct (outer_handler_frame form (started W) (provider_name W) e W s1)
        as (_ & -> & _). rewrite Hg0. split; [lia|done]. }
  destruct (step2_frame form (started W) (provider_name W) W s1) as [Hg1 _].
  destruct (step2_check_credits _ _ _ W s1) as [[[]|e] s2] eqn:Hcredits;
    cbn [snd] in Hg1.
  2:{ destruct (outer_handler_frame form (started W) (provider_name W) e W s2)
        as (_ & -> & _). rewrite Hg1, Hg0. split; [lia|done]. }
  apply credits_stage_passes_only_with_has_credits in Hcredits
    as (d & v & Hcheck & Hd & Hv).
  assert (Hbound : ∀ s', (generations s' ≤ S (generations s2))%nat →
            (generations s' ≤ 1)%nat) by (intros; lia).
  destruct imgs as [u c].
  destruct (step3_frame form (started W) (provider_name W) u c W s2)
    as (_ & _ & Hg3 & _).
  destruct (step3_generate _ _ _ u c W s2) as [[g|e] s3]; cbn [fst snd] in *.
  2:{ destruct (outer_handler_frame form (started W) (provider_name W) e W s3)
        as (_ & -> & _). split; [lia|]. intros _. eauto 10. }
  destruct (step4_frame form (started W) (provider_name W) g W s3) as [_ Hg4].
  destruct (step4_save _ _ _ g W s3) as [[url|e] s4]; cbn [fst snd] in *.
  2:{ destruct (outer_handler_frame form (started W) (provider_name W) e W s4)
        as (_ & -> & _). split; [lia|]. intros _. eauto 10. }
  rewrite step5_cases. cbn [snd generations logged].
  match goal with
  | |- context [HttpClient.send_webhook ?c ?u ?n ?k ?i ?l W ?s] =>
      destruct (request_frame W s "POST" "/api/v1/inference/webhook/"
        (Some (list_to_map
           [("user_id", VStr u); ("used_credits", VInt n);
            ("catalog_id", VStr k); ("image_url", VStr i);
            ("latency_ms", VFloat l)]))) as (_ & Hg5 & _);
      fold (HttpClient.send_webhook c u n k i l) in Hg5;
      destruct (HttpClient.send_webhook c u n k i l W s) as [[v'|e] s5]
  end; cbn [fst snd generations logged ticked] in *;
    (split; [lia|]); intros _; eauto 10.
Qed.

(** Reading a 200 response gives its body: the JSON value, or a
    dictionary around the text. *)
Lemma answer_200 W endpoint r :
  Net.status r = 200 →
  HttpClient.answer W endpoint (Net.RequestReturns r)
  = match Net.content r with
    | Net.Json v => Ok v
    | Net.NotJson (inl f) => Raise (Raised f)
    | Net.NotJson (inr text) =>
        Ok (if String.eqb text "" then VDict ∅
            else VDict {[ "detail" := VStr text ]})
    end.
Proof.
  intros Hst. unfold HttpClient.answer, HttpClient.read_response. rewrite Hst.
  destruct (Net.content r) as [v|[f|text]]; by mred.
Qed.

(** Once the provider is entered, the request ends with one generation
    on its count, whatever comes after. *)
Lemma generation_is_counted form W imgs s2 paths p :
  before_generate form (started W) (provider_name W) W (ticked initial)
  = (Ok imgs, s2) →
  stage_inputs W = inr paths → resolved W = Ok p →
  generations (create_image form W initial).2 = 1%nat.
Proof.
  intros Hgen Hstage Hres.
  destruct (before_generate_ok _ _ _ _ _ _ _ Hgen) as [_ Hg2].
  cbn [generations ticked initial] in Hg2.
  rewrite create_image_unfold.
  unfold before_webhook, before_save, mbind, M_bind. rewrite Hgen.
  destruct imgs as [u c]. rewrite step3_cases, Hstage, Hres.
  destruct paths as [user_path catalog_path].
  destruct (produced W p user_path catalog_path) as [g|e].
  - destruct (step4_frame form (started W) (provider_name W) g W (generated s2))
      as [_ Hg4].
    destruct (step4_save _ _ _ g W (generated s2)) as [[url|e] s4];
      cbn [fst snd generations generated] in *.
    + rewrite step5_cases. cbn [snd generations logged].
      match goal with
      | |- context [HttpClient.send_webhook ?c ?u ?n ?k ?i ?l W ?s] =>
          destruct (request_frame W s "POST" "/api/v1/inference/webhook/"
            (Some (list_to_map
               [("user_id", VStr u); ("used_credits", VInt n);
                ("catalog_id", VStr k); ("image_url", VStr i);
                ("latency_ms", VFloat l)]))) as (_ & Hg5 & _);
          fold (HttpClient.send_webhook c u n k i l) in Hg5;
          destruct (HttpClient.send_webhook c u n k i l W s) as [[v'|e] s5]
      end; cbn [fst snd generations logged ticked] in *; lia.
    + destruct (outer_handler_frame form (started W) (provider_name W) e W s4)
        as (_ & -> & _). lia.
  - unfold generation_failure.
    match goal with
    | |- generations (outer_handler ?a ?b ?c ?d W ?s).2 = _ =>
        destruct (outer_handler_frame a b c d W s) as (_ & -> & _)
    end. cbn [generations logged ticked generated]. lia.
Qed.

(** C10 (the code departs from it).  The claim: a 200 answer of the
    credits check whose body omits [has_credits] or carries it false
    ends the request with 403, so that no request reaches the generation
    stage without [has_credits] explicitly true.  What the code does,
    for every request that reaches the credits stage and whose credits
    call is answered at once with status 200: on a JSON object [d] the
    request is denied (403, one error record, no provider call, no
    further backend call) when [d] carries the status 403 or the error
    "Forbidden", when [has_credits] is absent, and when its value is
    falsy in Python's sense; it passes to the generate stage when the
    value of [has_credits] is truthy, whatever its type, so a string
    such as ["false"] or a number other than 0 passes, and the provider
    is called once it is resolved.  A body that is no JSON is read as an
    object without [has_credits]: denied.  A JSON body that is no object
    ([null], an array, a number, a string) has no [get]: the
    [AttributeError] is raised outside the inner [try], and the request
    ends with 500, not 403.  (A body that cannot be read at all makes
    the attempt raise inside [_request], which retries; the statement
    leaves it out.) *)
Theorem credits_gate_tests_truthiness (W : World) (form : Form)
    (imgs : bytes * bytes) (s1 : State) (r : Net.Response) :
  before_credits form (started W) (provider_name W) W (ticked initial)
  = (Ok imgs, s1) →
  backend W (length (backend_calls s1)) (credits_call W form)
  = Net.RequestReturns r →
  Net.status r = 200 →
  let out := create_image form W initial in
  let denied :=
    (∃ detail, out.1 = Raise (HTTPException 403
                                ("Insufficient credits: " +:+ detail)))
    ∧ generations out.2 = 0%nat
    ∧ backend_calls out.2 = backend_calls s1 ++ [credits_call W form]
    ∧ ∃ failed_at detail,
        audit out.2
        = [error_record form (started W) (provider_name W) failed_at detail] in
  (∀ d, Net.content r = Net.Json (VDict d) →
     (forbidden d = true
      ∨ d !! "has_credits" = None
      ∨ (∃ v, d !! "has_credits" = Some v ∧ truthy v = false) → denied)
     ∧ (∀ v, forbidden d = false →
             d !! "has_credits" = Some v → truthy v = true →
             before_generate form (started W) (provider_name W) W
               (ticked initial)
             = (Ok imgs, sent (credits_call W form) s1)
             ∧ ∀ paths p, stage_inputs W = inr paths → resolved W = Ok p →
                          generations out.2 = 1%nat))
  ∧ (∀ text, Net.content r = Net.NotJson (inr text) → denied)
  ∧ (∀ v, Net.content r = Net.Json v → (∀ d, v ≠ VDict d) →
          out.1 = Raise (HTTPException 500
                           "Internal server error: object has no attribute 'get'")
          ∧ generations out.2 = 0%nat
          ∧ backend_calls out.2 = backend_calls s1 ++ [credits_call W form]).
Proof.
  intros Hpre Hb Hst out denied.
  destruct (before_credits_ok _ _ _ _ _ _ _ Hpre) as [Ha Hg].
  cbn [audit generations ticked initial] in Ha, Hg.
  pose proof (answer_200 W ("/api/v1/credits/check/?"
                              +:+ HttpClient.urlencode_user_id (user_id form))
                r Hst) as Hans.
  pose proof (step2_cases form (started W) (provider_name W) W s1) as H2.
  cbn zeta in H2. unfold HttpClient.check_credits in H2.
  rewrite request_unrolled in H2. fold (credits_call W form) in H2.
  rewrite Hb in H2.
  assert (Hdict : ∀ d,
            HttpClient.answer W
              ("/api/v1/credits/check/?"
                 +:+ HttpClient.urlencode_user_id (user_id form))
              (Net.RequestReturns r) = Ok (VDict d) →
            forbidden d = true ∨ has_credits d = false → denied).
  { intros d Hd Hno. rewrite Hd in H2. cbn [fst snd] in H2.
    unfold denied, out.
    destruct (forbidden d) eqn:Ef.
    - rewrite (create_image_fails_at_credits _ _ _ _ _ _ Hpre H2),
        outer_handler_cases.
      cbn [fst snd audit generations backend_calls logged ticked sent].
      rewrite Ha, Hg. eauto 10.
    - destruct Hno as [Hno|Hno]; [done|]. rewrite Hno in H2.
      rewrite (create_image_fails_at_credits _ _ _ _ _ _ Hpre H2),
        outer_handler_cases.
      cbn [fst snd audit generations backend_calls logged ticked sent].
      rewrite Ha, Hg. eauto 10. }
  split; [|split].
  - intros d Hbody. rewrite Hbody in Hans. split.
    + intros Hno. apply (Hdict d Hans).
      destruct Hno as [Hf|[Hnone|(v & Hv & Ht)]]; [by left|right..];
        unfold has_credits, dict_get; rewrite ?Hnone, ?Hv; done.
    + intros v Hf Hv Ht.
      assert (Hyes : has_credits d = true)
        by (unfold has_credits, dict_get; by rewrite Hv).
      rewrite Hans in H2. cbn [fst snd] in H2. rewrite Hf, Hyes in H2.
      assert (Hgen : before_generate form (started W) (provider_name W) W
                       (ticked initial)
                     = (Ok imgs, sent (credits_call W form) s1)).
      { unfold before_generate, mbind, M_bind. by rewrite Hpre, H2. }
      split; [exact Hgen|]. intros paths p Hstage Hres.
      exact (generation_is_counted _ _ _ _ _ _ Hgen Hstage Hres).
  - intros text Hbody. rewrite Hbody in Hans.
    destruct (String.eqb text ""); (eapply Hdict; [exact Hans|]); by right.
  - intros v Hbody Hnd. rewrite Hbody in Hans. rewrite Hans in H2.
    cbn [fst snd] in H2.
    assert (Hstep : step2_check_credits form (started W) (provider_name W) W s1
                    = (Raise attribute_error, sent (credits_call W form) s1)).
    { rewrite H2. destruct v; try done. by destruct (Hnd d). }
    unfold out.
    rewrite (create_image_fails_at_credits _ _ _ _ _ _ Hpre Hstep),
      outer_handler_cases.
    unfold attribute_error.
    cbn [fst snd generations backend_calls logged ticked sent str_exn message].
    by rewrite Hg.
Qed.

Lemma credits_gate_tests_truthiness_witness :
  generations (create_image Scenario.form Incidents.credits_flag_as_text
                 initial).2 = 1%nat
  ∧ http_status (create_image Scenario.form Incidents.credits_flag_as_text
                   initial).1 = Some 200
  ∧ (create_image Scenario.form Incidents.credits_null_body initial).1
    = Raise (HTTPException 500
               "Internal server error: object has no attribute 'get'")
  ∧ generations (create_image Scenario.form Scenario.credits_field_missing
                   initial).2 = 0%nat.
Proof.
  split; [|split; [|split]].
  - destruct (credits_gate_tests_truthiness Incidents.credits_flag_as_text
                Scenario.form (Scenario.png, Scenario.png)
                (before_credits Scenario.form
                   (started Incidents.credits_flag_as_text)
                   (provider_name Incidents.credits_flag_as_text)
                   Incidents.credits_flag_as_text (ticked initial)).2
                {| Net.status := 200;
                   Net.content :=
                     Net.Json (VDict (list_to_map
                                        [("has_credits", VStr "false");
                                         ("available_credits", VInt 0)])) |}
                ltac:(vm_compute; reflexivity) ltac:(vm_compute; reflexivity)
                eq_refl) as (Hobject & _).
    destruct (Hobject _ eq_refl) as [_ Hpass].
    destruct (Hpass (VStr "false") ltac:(vm_compute; reflexivity)
                ltac:(vm_compute; reflexivity) eq_refl) as [_ Hgen].
    exact (Hgen ("/tmp/tmpuser.jpeg", "/tmp/tmpcatalog.jpeg")
             (AiProvider.OpenAIProvider "sk-test") eq_refl
             ltac:(vm_compute; reflexivity)).
  - vm_compute. reflexivity.
  - destruct (credits_gate_tests_truthiness Incidents.credits_null_body
                Scenario.form (Scenario.png, Scenario.png)
                (before_credits Scenario.form
                   (started Incidents.credits_null_body)
                   (provider_name Incidents.credits_null_body)
                   Incidents.credits_null_body (ticked initial)).2
                {| Net.status := 200; Net.content := Net.Json VNone |}
                ltac:(vm_compute; reflexivity) ltac:(vm_compute; reflexivity)
                eq_refl) as (_ & _ & Hother).
    exact (proj1 (Hother VNone eq_refl ltac:(discriminate))).
  - destruct (credits_gate_tests_truthiness Scenario.credits_field_missing
                Scenario.form (Scenario.png, Scenario.png)
                (before_credits Scenario.form
                   (started Scenario.credits_field_missing)
                   (provider_name Scenario.credits_field_missing)
                   Scenario.credits_field_missing (ticked initial)).2
                {| Net.status := 200;
                   Net.content :=
                     Net.Json (VDict {[ "available_credits" := VInt 0 ]}) |}
                ltac:(vm_compute; reflexivity) ltac:(vm_compute; reflexivity)
                eq_refl) as (Hobject & _).
    destruct (Hobject _ eq_refl) as [Hdenied _].
    exact (proj1 (proj2 (Hdenied (or_intror (or_introl eq_refl))))).
Defined.

(** A returned response: the stages before the save returned a result
    locator, its bytes were obtained and written, and nothing else was. *)
Lemma create_image_success form W resp :
  (create_image form W initial).1 = Ok resp →
  ∃ g s1 data,
    before_save form (started W) (provider_name W) W (ticked initial)
    = (Ok g, s1)
    ∧ artifact_bytes W g = Ok data
    ∧ image_url resp
      = Some ("/media/" +:+ artifact_name form (time_time W (clock_reads s1)))
    ∧ media (create_image form W initial).2
      = {[ media_path (artifact_name form (time_time W (clock_reads s1)))
           := data ]}.
Proof.
  rewrite create_image_unfold. unfold before_webhook, mbind, M_bind.
  destruct (before_save_frame form (started W) (provider_name W) W
              (ticked initial)) as (Hm & _).
  cbn [media ticked initial] in Hm.
  destruct (before_save _ _ _ W (ticked initial)) as [[g|e] s1];
    cbn [fst snd] in *.
  2:{ destruct (outer_handler_frame form (started W) (provider_name W) e W s1)
        as (_ & _ & _ & e' & ->). done. }
  rewrite step4_cases, save_image_cases.
  destruct (makedirs_media W) as [f|]; cbn [fst snd].
  { unfold save_failure.
    destruct (outer_handler_frame form (started W) (provider_name W)
      (if is_kind ClientError (Raised f)
       then HTTPException 502
              ("Failed to download generated image: " +:+ str_exn (Raised f))
       else HTTPException 500 ("Failed to save image: " +:+ str_exn (Raised f)))
      W (logged (error_record form (started W) (provider_name W)
                   (time_time W (clock_reads (ticked s1)))
                   (if is_kind ClientError (Raised f)
                    then "Network error downloading image: "
                           +:+ str_exn (Raised f)
                    else "Image save failed: " +:+ str_exn (Raised f)))
           (ticked (ticked s1)))) as (_ & _ & _ & e' & ->). done. }
  destruct (artifact_bytes W g) as [data|e] eqn:Hab; cbn [fst snd].
  2:{ unfold save_failure.
      match goal with
      | |- (outer_handler ?a ?b ?c ?d W ?s).1 = _ → _ =>
          destruct (outer_handler_frame a b c d W s) as (_ & _ & _ & e' & ->)
      end. done. }
  destruct (file_write W _) as [f|]; cbn [fst snd].
  { unfold save_failure.
    match goal with
    | |- (outer_handler ?a ?b ?c ?d W ?s).1 = _ → _ =>
        destruct (outer_handler_frame a b c d W s) as (_ & _ & _ & e' & ->)
    end. done. }
  rewrite step5_cases. cbn [fst snd]. intros [= <-]. cbn [image_url].
  exists g, s1, data. split; [done|]. split; [done|]. split; [done|].
  match goal with
  | |- context [HttpClient.send_webhook ?c ?u ?n ?k ?i ?l W ?s] =>
      destruct (request_frame W s "POST" "/api/v1/inference/webhook/"
        (Some (list_to_map
           [("user_id", VStr u); ("used_credits", VInt n);
            ("catalog_id", VStr k); ("image_url", VStr i);
            ("latency_ms", VFloat l)]))) as (_ & _ & Hm5 & _);
      fold (HttpClient.send_webhook c u n k i l) in Hm5;
      destruct (HttpClient.send_webhook c u n k i l W s) as [[v'|e] s5]
  end; cbn [fst snd media logged ticked wrote] in *;
    rewrite Hm5, Hm; apply insert_empty.
Qed.

(** X18.  When [create_image] returns, the resolved provider has
    returned a result locator [g] for the two staged files,
    [save_image] has obtained the bytes of that [g] (decoded from the
    data URL, or downloaded), and it has written exactly one file:
    these bytes, at [os.path.join("media", filename)], where [filename]
    is built from the user id, the catalog id and the clock reading of
    step 4, and the returned [image_url] is ["/media/" + filename]. *)
Theorem success_stores_the_artifact (W : World) (form : Form)
    (resp : GenerateResponse) :
  (create_image form W initial).1 = Ok resp →
  ∃ p user_path catalog_path g s1 data,
    stage_inputs W = inr (user_path, catalog_path)
    ∧ resolved W = Ok p
    ∧ produced W p user_path catalog_path = Ok g
    ∧ before_save form (started W) (provider_name W) W (ticked initial)
      = (Ok g, s1)
    ∧ artifact_bytes W g = Ok data
    ∧ image_url resp
      = Some ("/media/" +:+ artifact_name form (time_time W (clock_reads s1)))
    ∧ media (create_image form W initial).2
      = {[ media_path (artifact_name form (time_time W (clock_reads s1)))
           := data ]}.
Proof.
  intros (g & s1 & data & Hpre & Hb & Hu & Hm)%create_image_success.
  assert (Hprov : ∃ p user_path catalog_path,
            stage_inputs W = inr (user_path, catalog_path)
            ∧ resolved W = Ok p
            ∧ produced W p user_path catalog_path = Ok g).
  { revert Hpre. unfold before_save, mbind, M_bind.
    destruct (before_generate _ _ _ W (ticked initial)) as [[[u c]|e] s0];
      [|done].
    rewrite step3_cases. unfold generation_failure.
    destruct (stage_inputs W) as [f|[user_path catalog_path]]; [done|].
    destruct (resolved W) as [p|e]; [|done].
    destruct (produced W p user_path catalog_path) as [url|e] eqn:Hp; [|done].
    intros [= -> _]. eauto 10. }
  destruct Hprov as (p & user_path & catalog_path & Hs & Hr & Hp).
  exists p, user_path, catalog_path, g, s1, data. done.
Qed.

Lemma success_stores_the_artifact_witness :
  ∃ s1,
    before_save Scenario.form (started Scenario.webhook_down)
      (provider_name Scenario.webhook_down) Scenario.webhook_down
      (ticked initial)
    = (Ok "https://images.example/result.png", s1)
    ∧ media (create_image Scenario.form Scenario.webhook_down initial).2
      = {[ media_path (artifact_name Scenario.form
                         (time_time Scenario.webhook_down (clock_reads s1)))
           := Scenario.png ]}.
Proof.
  destruct (success_stores_the_artifact Scenario.webhook_down Scenario.form
              {| status := "success";
                 image_url := Some "/media/u1_c9_1700000001.png";
                 latency_ms := 2000 |}
              ltac:(vm_compute; reflexivity))
    as (p & user_path & catalog_path & g & s1 & data
        & Hs & Hr & Hp & Hpre & Hb & Hu & Hm).
  assert (Hg : g = "https://images.example/result.png").
  { assert (Hfst : (before_save Scenario.form (started Scenario.webhook_down)
                      (provider_name Scenario.webhook_down)
                      Scenario.webhook_down (ticked initial)).1 = Ok g)
      by (by rewrite Hpre).
    vm_compute in Hfst. by injection Hfst as <-. }
  subst g.
  assert (Hd : data = Scenario.png).
  { vm_compute in Hb. by injection Hb as <-. }
  subst data. eauto.
Defined.

(** X19.  A user id that starts with [/] takes the file out of the
    media directory: when such a request succeeds, the only file that
    [save_image] has written is at the absolute path [filename] itself,
    while the returned [image_url] is ["/media/" + filename]. *)
Theorem absolute_user_id_escapes_media (W : World) (form : Form)
    (resp : GenerateResponse) :
  startswith (user_id form) "/" = true →
  (create_image form W initial).1 = Ok resp →
  ∃ filename data,
    image_url resp = Some ("/media/" +:+ filename)
    ∧ media (create_image form W initial).2 = {[ filename := data ]}
    ∧ startswith filename "media/" = false.
Proof.
  intros Habs (g & s1 & data & _ & Hb & Hu & Hm)%create_image_success.
  set (filename := artifact_name form (time_time W (clock_reads s1))) in *.
  assert (Hf : startswith filename "/" = true).
  { unfold filename, artifact_name. by apply startswith_append. }
  exists filename, data. split; [done|]. split.
  - rewrite Hm. unfold media_path. by rewrite Hf.
  - unfold startswith in *. destruct filename as [|c rest]; [done|].
    cbn [String.prefix] in Hf |- *.
    destruct (ascii_dec "/" c) as [<-|]; [|done].
    by destruct (ascii_dec "m" "/").
Qed.

Lemma absolute_user_id_escapes_media_witness :
  ∃ filename data,
    Some "/media//srv/www/index_c9_1700000001.png"
    = Some ("/media/" +:+ filename)
    ∧ media (create_image Cases.form_absolute Scenario.webhook_down initial).2
      = {[ filename := data ]}
    ∧ startswith filename "media/" = false.
Proof.
  exact (absolute_user_id_escapes_media Scenario.webhook_down
           Cases.form_absolute
           {| status := "success";
              image_url := Some "/media//srv/www/index_c9_1700000001.png";
              latency_ms := 2000 |}
           ltac:(reflexivity) ltac:(vm_compute; reflexivity)).
Defined.

(** X20.  A provider that [get_ai_provider] returns is the one named
    by [AI_PROVIDER] in lower case (["openai"] when it is not set), and
    an OpenAI or Gemini provider holds the key of the environment, which
    is not empty. *)
Theorem resolved_provider_matches_configuration (W : World)
    (p : AiProvider.AIProvider) :
  resolved W = Ok p →
  match p with
  | AiProvider.OpenAIProvider k =>
      provider_key W = "openai"
      ∧ environ W !! "OPENAI_API_KEY" = Some k ∧ k ≠ ""
  | AiProvider.GeminiProvider k =>
      provider_key W = "gemini"
      ∧ environ W !! "GOOGLE_API_KEY" = Some k ∧ k ≠ ""
  | AiProvider.SoraProvider => provider_key W = "sora"
  | AiProvider.StabilityProvider => provider_key W = "stability"
  end.
Proof.
  unfold resolved, AiProvider.get_ai_provider. mred.
  fold (provider_name W). fold (provider_key W).
  destruct (AiProvider.providers !! provider_key W) as [c|] eqn:E; [|done].
  unfold AiProvider.providers in E.
  apply elem_of_list_to_map_2 in E.
  repeat (apply elem_of_cons in E as [E|E];
          [injection E as Hk ->; revert Hk|]);
    [..|by apply elem_of_nil in E];
    unfold AiProvider.OpenAIProvider_init, AiProvider.GeminiProvider_init;
    mred; intros Hk.
  - destruct (environ W !! "OPENAI_API_KEY") as [k|] eqn:Ek; [|done].
    destruct (String.eqb_spec k ""); [done|]. by intros [= <-].
  - by intros [= <-].
  - destruct (environ W !! "GOOGLE_API_KEY") as [k|] eqn:Ek; [|done].
    destruct (String.eqb_spec k ""); [done|]. by intros [= <-].
  - by intros [= <-].
Qed.

Lemma resolved_provider_matches_configuration_witness :
  provider_key Scenario.webhook_down = "openai"
  ∧ environ Scenario.webhook_down !! "OPENAI_API_KEY" = Some "sk-test"
  ∧ "sk-test" ≠ "".
Proof.
  exact (resolved_provider_matches_configuration Scenario.webhook_down
           (AiProvider.OpenAIProvider "sk-test")
           ltac:(vm_compute; reflexivity)).
Defined.

(** X21.  When the backend answers the webhook call with an error
    status (any status whose response is read into a decision, a 500
    included), the webhook is neither retried nor reported: the request
    returns success and the audit log holds the success record alone,
    without a warning. *)
Theorem webhook_error_status_is_not_a_failure (W : World) (form : Form)
    (image_url : string) (s1 : State) (r : Net.Response) :
  let latency := ((time_time W (clock_reads s1) - started W) * 1000)%Q in
  before_webhook form (started W) (provider_name W) W (ticked initial)
  = (Ok image_url, s1) →
  backend W (length (backend_calls s1))
    (webhook_call W form image_url latency) = Net.RequestReturns r →
  HttpClient.returns_decision r = true →
  let out := create_image form W initial in
  out.1 = Ok {| status := "success"; image_url := Some image_url;
                latency_ms := latency |}
  ∧ audit out.2 = [success_record form latency (provider_name W)]
  ∧ backend_calls out.2
    = backend_calls s1 ++ [webhook_call W form image_url latency]
  ∧ sleeps out.2 = sleeps s1.
Proof.
  intros latency Hpre Hb Hr out. unfold out.
  rewrite create_image_unfold, Hpre, step5_cases. fold latency.
  destruct (before_webhook_ok _ _ _ _ _ _ _ Hpre) as [Ha _].
  cbn [audit ticked initial] in Ha.
  destruct (request_returns_at_once W (ticked s1) "POST"
              "/api/v1/inference/webhook/"
              (Some (list_to_map
                 [("user_id", VStr (user_id form)); ("used_credits", VInt 1);
                  ("catalog_id", VStr (catalog_id form));
                  ("image_url", VStr image_url);
                  ("latency_ms", VFloat latency)])) r Hb Hr)
    as (v & Hreq & _).
  unfold HttpClient.send_webhook. rewrite Hreq.
  cbn [fst snd audit backend_calls sleeps logged sent ticked].
  by rewrite Ha.
Qed.

Lemma webhook_error_status_is_not_a_failure_witness :
  (create_image Scenario.form Cases.webhook_rejected initial).1
  = Ok {| status := "success";
          image_url := Some "/media/u1_c9_1700000001.png";
          latency_ms := 2000 |}
  ∧ Logger.status <$> audit (create_image Scenario.form Cases.webhook_rejected
                               initial).2
    = ["success"].
Proof.
  destruct (webhook_error_status_is_not_a_failure Cases.webhook_rejected
              Scenario.form "/media/u1_c9_1700000001.png"
              (before_webhook Scenario.form (started Cases.webhook_rejected)
                 (provider_name Cases.webhook_rejected) Cases.webhook_rejected
                 (ticked initial)).2
              {| Net.status := 500;
                 Net.content :=
                   Net.Json (VDict {[ "error" := VStr "handler crashed" ]}) |}
              ltac:(vm_compute; reflexivity) ltac:(vm_compute; reflexivity)
              ltac:(reflexivity))
    as (Ho & Ha & _).
  split.
  - etrans; [exact Ho|]. vm_compute. reflexivity.
  - rewrite Ha. reflexivity.
Defined.

(** X22.  With the OpenAI provider resolved, step 3 enters the
    provider once and returns the first URL of the answer; an
    [OpenAIError], any other exception and an answer without data all
    end the request with a 500 ["Image generation failed: ..."], never
    with the configuration error. *)
Theorem openai_failures_are_generation_failures (W : World) (form : Form)
    (start_time : Q) (name : string) (user_img catalog_img : bytes)
    (s : State) (k : string) (paths : string * string) :
  stage_inputs W = inr paths →
  resolved W = Ok (AiProvider.OpenAIProvider k) →
  let out := step3_generate form start_time name user_img catalog_img W s in
  generations out.2 = S (generations s)
  ∧ match openai_generate W with
    | OpenAIReturns (url :: _) => out.1 = Ok url
    | OpenAIReturns [] =>
        out.1 = Raise (HTTPException 500
                         "Image generation failed: Image generation error: No image URL returned from OpenAI")
    | OpenAIRaises true msg =>
        out.1 = Raise (HTTPException 500
                         ("Image generation failed: OpenAI API error: " +:+ msg))
    | OpenAIRaises false msg =>
        out.1 = Raise (HTTPException 500
                         ("Image generation failed: Image generation error: "
                            +:+ msg))
    end.
Proof.
  intros Hstage Hres out. unfold out. rewrite step3_cases, Hstage, Hres.
  destruct paths as [user_path catalog_path].
  unfold produced, AiProvider.generate_image, AiProvider.enter_generate. mred.
  destruct (openai_generate W) as [[] msg|[|url urls]]; done.
Qed.

Lemma openai_failures_are_generation_failures_witness :
  (step3_generate Scenario.form 1700000000 "openai" Scenario.png Scenario.png
     Cases.openai_quota_exceeded initial).1
  = Raise (HTTPException 500
             "Image generation failed: OpenAI API error: You exceeded your current quota").
Proof.
  exact (proj2 (openai_failures_are_generation_failures
                  Cases.openai_quota_exceeded Scenario.form 1700000000 "openai"
                  Scenario.png Scenario.png initial "sk-test"
                  ("/tmp/tmpuser.jpeg", "/tmp/tmpcatalog.jpeg")
                  ltac:(reflexivity) ltac:(vm_compute; reflexivity))).
Defined.

(** X23.  An image URL field that does not start with [http://] or
    [https://] is taken as a path on the server: when a file is there
    its content is the image, and when none is there the outcome is the
    exception ["File not found: <path>"]; no host is asked. *)
Theorem path_input_is_read_from_the_server (W : World) (s : State)
    (p missing : string) :
  p ≠ "" →
  startswith p "http://" || startswith p "https://" = false →
  resolve_input None (Some p) missing W s
  = match local_file W p with
    | None => (Raise (Exception ("File not found: " +:+ p)), s)
    | Some (inl f) => (Raise (Raised f), s)
    | Some (inr content) => (Ok (content, p), s)
    end.
Proof.
  intros Hp%String.eqb_neq Hhttp.
  unfold resolve_input. rewrite Hp. unfold get_image_data. rewrite Hhttp.
  unfold read_file_to_bytes. mred.
  by destruct (local_file W p) as [[f|content]|].
Qed.

Lemma path_input_is_read_from_the_server_witness :
  resolve_input None (Some "/etc/hostname")
    "Either user_image file or user_image_url must be provided"
    Cases.server_file initial
  = (Ok (Scenario.png, "/etc/hostname"), initial).
Proof.
  apply (path_input_is_read_from_the_server Cases.server_file initial
           "/etc/hostname"
           "Either user_image file or user_image_url must be provided").
  - simpl. discriminate.
  - reflexivity.
Defined.

Lemma error_record_fields form start_time name failed_at detail :
  detail ≠ "" →
  let r := error_record form start_time name failed_at detail in
  Logger.user_id r = user_id form ∧ Logger.catalog_id r = catalog_id form
  ∧ Logger.ai_provider r = name ∧ Logger.status r = "error"
  ∧ Logger.log_level r = Logger.ERROR ∧ Logger.error r = Some detail.
Proof.
  intros Hd%String.eqb_neq. unfold error_record, log_record.
  cbn [Logger.user_id Logger.catalog_id Logger.ai_provider Logger.status
       Logger.log_level Logger.error]. by rewrite Hd.
Qed.

(** X30.  The audit records of one request.  There are at most two;
    each carries the user id and the catalog id of the request and the
    provider name of the environment; a record without an error text is
    a success record, logged at INFO, and a record with one is an error
    or a warning record, logged at ERROR, with a text that is not empty;
    and the last record is a success record exactly when [create_image]
    returned. *)
Theorem audit_records_identify_the_request (W : World) (form : Form) :
  let out := create_image form W initial in
  (length (audit out.2) ≤ 2)%nat
  ∧ Forall (fun r =>
              Logger.user_id r = user_id form
              ∧ Logger.catalog_id r = catalog_id form
              ∧ Logger.ai_provider r = provider_name W
              ∧ match Logger.error r with
                | None =>
                    Logger.log_level r = Logger.INFO
                    ∧ Logger.status r = "success"
                | Some text =>
                    Logger.log_level r = Logger.ERROR ∧ text ≠ ""
                    ∧ (Logger.status r = "error"
                       ∨ Logger.status r = "warning")
                end)
      (audit out.2)
  ∧ ((∃ resp, out.1 = Ok resp)
     ↔ Logger.status <$> last (audit out.2) = Some "success").
Proof.
  intros out. pose proof (create_image_audit_trail form W) as H.
  cbn zeta in H. fold out in H.
  assert (Hs : ∀ l, let r := success_record form l (provider_name W) in
            Logger.user_id r = user_id form
            ∧ Logger.catalog_id r = catalog_id form
            ∧ Logger.ai_provider r = provider_name W
            ∧ match Logger.error r with
              | None => Logger.log_level r = Logger.INFO
                        ∧ Logger.status r = "success"
              | Some text => Logger.log_level r = Logger.ERROR ∧ text ≠ ""
                             ∧ (Logger.status r = "error"
                                ∨ Logger.status r = "warning")
              end) by done.
  assert (Hw : ∀ l e, let r := warning_record form l (provider_name W) e in
            Logger.user_id r = user_id form
            ∧ Logger.catalog_id r = catalog_id form
            ∧ Logger.ai_provider r = provider_name W
            ∧ match Logger.error r with
              | None => Logger.log_level r = Logger.INFO
                        ∧ Logger.status r = "success"
              | Some text => Logger.log_level r = Logger.ERROR ∧ text ≠ ""
                             ∧ (Logger.status r = "error"
                                ∨ Logger.status r = "warning")
              end).
  { intros l e. cbn. repeat split; auto. }
  destruct out.1 as [resp|[c d|f]]; [| |done].
  - destruct H as [_ [-> | [e ->]]]; cbn [length last fmap option_fmap option_map].
    + split; [lia|]. split; [apply Forall_singleton, Hs|].
      split; [done|by eexists].
    + split; [lia|].
      split; [apply Forall_cons_2; [apply Hw|apply Forall_singleton, Hs]|].
      split; [done|by eexists].
  - destruct H as [(_ & _ & ->) | (_ & failed_at & detail & Hd & ->)].
    + split; [simpl; lia|]. split; [constructor|].
      split; [by intros [? ?]|done].
    + destruct (error_record_fields form (started W) (provider_name W)
                  failed_at detail Hd) as (H1 & H2 & H3 & H4 & H5 & H6).
      split; [simpl; lia|]. split.
      * apply Forall_singleton. rewrite H6. auto 10.
      * cbn [last fmap option_fmap option_map]. rewrite H4.
        split; [by intros [? ?]|done].
Qed.

End PipelineMore.

(* ===================================================================== *)
(** ** The Gemini provider *)
(* ===================================================================== *)

Section GeminiFacts.
Import Py Gemini.

Lemma imagen_attempt_shape env S self project_id location prompt r :
  imagen_attempt env S self project_id location prompt = Some r →
  ∃ payload, r = data_url_prefix +:+ payload.
Proof.
  unfold imagen_attempt.
  destruct (session_post S _ _ _) as [f|status json]; [done|].
  destruct (status =? 200); [|done].
  destruct json as [f|[]]; try done.
  destruct (d !! "predictions") as [[]|]; try done.
  destruct l as [|[] l]; try done.
  destruct (truthy _); [|done]. intros [= <-]. by eexists.
Qed.

Lemma generate_with_imagen_returns env S self user_img catalog_img prompt r :
  _generate_with_imagen env S self user_img catalog_img prompt = inr r →
  (∃ payload, r = data_url_prefix +:+ payload)
  ∧ ∃ project_id, env !! "GOOGLE_PROJECT_ID" = Some project_id
                  ∧ project_id ≠ "".
Proof.
  unfold _generate_with_imagen, _generate_via_gemini_rest.
  destruct (env !! "GOOGLE_PROJECT_ID") as [p|]; [|done].
  destruct (String.eqb_spec p ""); [done|].
  destruct (imagen_attempt _ _ _ _ _ _) as [r'|] eqn:E; [|done].
  intros [= <-]. split; [by eapply imagen_attempt_shape|]. by exists p.
Qed.

(** X24.  [_generate_with_imagen] returns only a PNG data URL, and only
    with [GOOGLE_PROJECT_ID] set and not empty; whatever goes wrong with
    the Imagen call (no connection, an error status, a body without
    predictions) it raises one and the same exception, that of
    [_generate_via_gemini_rest], which tells nothing of the cause. *)
Theorem imagen_failures_are_swallowed (env : gmap string string)
    (S : Services) (self : GeminiProvider) (user_img catalog_img : bytes)
    (prompt : string) :
  match _generate_with_imagen env S self user_img catalog_img prompt with
  | inr r =>
      (∃ payload, r = data_url_prefix +:+ payload)
      ∧ ∃ project_id, env !! "GOOGLE_PROJECT_ID" = Some project_id
                      ∧ project_id ≠ ""
  | inl e => e = imagen_required
  end.
Proof.
  destruct (_generate_with_imagen env S self user_img catalog_img prompt)
    as [e|r] eqn:E; [|by eapply generate_with_imagen_returns].
  revert E. unfold _generate_with_imagen, _generate_via_gemini_rest.
  destruct (env !! "GOOGLE_PROJECT_ID") as [p|]; [|by intros [= <-]].
  destruct (String.eqb p ""); [by intros [= <-]|].
  destruct (imagen_attempt _ _ _ _ _ _); [done|by intros [= <-]].
Qed.

Lemma generate_image_returns env S self u c prompt r :
  generate_image env S self u c prompt = inr r →
  ∃ user_img catalog_img enhanced,
    _generate_with_imagen env S self user_img catalog_img enhanced = inr r.
Proof.
  unfold generate_image.
  destruct (_download_image S u) as [e|user_img]; [done|].
  destruct (_download_image S c) as [e|catalog_img]; [done|].
  destruct (GenerativeModel S); [done|].
  destruct (match PIL_open S user_img with
            | Some e => Some e
            | None => PIL_open S catalog_img
            end); [done|].
  destruct (generate_content S _ _ _) as [[] e|text]; [done|done|].
  destruct (enhanced_prompt text _) as [e|enhanced]; [done|].
  destruct (_generate_with_imagen env S self user_img catalog_img enhanced)
    as [e|r'] eqn:E; [done|].
  intros [= <-]. eauto.
Qed.

Lemma generate_image_needs_project env S self u c prompt r :
  generate_image env S self u c prompt = inr r →
  ∃ project_id, env !! "GOOGLE_PROJECT_ID" = Some project_id
                ∧ project_id ≠ "".
Proof.
  intros (ui & ci & p & E)%generate_image_returns.
  by apply generate_with_imagen_returns in E as [_ ?].
Qed.

(** X25.  Without [GOOGLE_PROJECT_ID] (not set, or empty) the Gemini
    provider's [generate_image] never returns an image: it raises,
    whatever the images, the model and the network do. *)
Theorem gemini_needs_a_project (env : gmap string string) (S : Services)
    (self : GeminiProvider) (user_img_url catalog_img_url : string)
    (prompt : option string) :
  env !! "GOOGLE_PROJECT_ID" = None ∨ env !! "GOOGLE_PROJECT_ID" = Some "" →
  ∃ e, generate_image env S self user_img_url catalog_img_url prompt = inl e.
Proof.
  intros Hunset.
  destruct (generate_image env S self user_img_url catalog_img_url prompt)
    as [e|r] eqn:E; [by eexists|].
  apply generate_image_needs_project in E as (pid & Hp & Hne).
  destruct Hunset as [Hu|Hu]; rewrite Hu in Hp; [done|]. by injection Hp as <-.
Qed.

Lemma gemini_needs_a_project_witness :
  ∃ e, generate_image ∅ Studio.services (init "g-key")
         "/tmp/tmpuser.jpeg" "/tmp/tmpcatalog.jpeg" None = inl e.
Proof.
  apply (gemini_needs_a_project ∅ Studio.services (init "g-key")
           "/tmp/tmpuser.jpeg" "/tmp/tmpcatalog.jpeg" None).
  left. reflexivity.
Defined.

Lemma generate_image_shape env S self u c prompt r :
  generate_image env S self u c prompt = inr r →
  ∃ payload, r = data_url_prefix +:+ payload.
Proof.
  intros (ui & ci & p & E)%generate_image_returns.
  by apply generate_with_imagen_returns in E as [? _].
Qed.

(** X26.  Every locator that the Gemini provider's [generate_image]
    returns is ["data:image/png;base64,"] followed by a payload, and
    [save_image] on it decodes that payload and writes the bytes: it
    downloads nothing. *)
Theorem gemini_result_is_decoded_locally (env : gmap string string)
    (S : Services) (self : GeminiProvider)
    (user_img_url catalog_img_url : string) (prompt : option string)
    (r : string) :
  generate_image env S self user_img_url catalog_img_url prompt = inr r →
  ∃ payload,
    r = "data:image/png;base64," +:+ payload
    ∧ ∀ (W : World) (filename : string) (s : State),
        Generate.save_image r filename W s
        = match makedirs_media W with
          | Some f => (Raise (Raised f), s)
          | None =>
              match Base64.b64decode payload with
              | inl f => (Raise (Raised f), s)
              | inr image_data =>
                  match file_write W (Generate.media_path filename) with
                  | Some f => (Raise (Raised f), s)
                  | None =>
                      (Ok (Generate.media_path filename),
                       wrote (Generate.media_path filename) image_data s)
                  end
              end
          end.
Proof.
  intros [payload ->]%generate_image_shape. exists payload.
  split; [done|]. intros W filename s. rewrite save_image_cases.
  destruct (makedirs_media W); [done|].
  unfold Generate.artifact_bytes, data_url_prefix.
  change (startswith ("data:image/png;base64," +:+ payload) "data:image")
    with true.
  change (split_comma ("data:image/png;base64," +:+ payload))
    with (Some ("data:image/png;base64", payload)).
  cbn match. by destruct (Base64.b64decode payload).
Qed.

Lemma gemini_result_is_decoded_locally_witness :
  ∃ payload,
    "data:image/png;base64,iVBORw0KGgo=" = "data:image/png;base64," +:+ payload
    ∧ ∀ (W : World) (filename : string) (s : State),
        Generate.save_image "data:image/png;base64,iVBORw0KGgo=" filename W s
        = match makedirs_media W with
          | Some f => (Raise (Raised f), s)
          | None =>
              match Base64.b64decode payload with
              | inl f => (Raise (Raised f), s)
              | inr image_data =>
                  match file_write W (Generate.media_path filename) with
                  | Some f => (Raise (Raised f), s)
                  | None =>
                      (Ok (Generate.media_path filename),
                       wrote (Generate.media_path filename) image_data s)
                  end
              end
          end.
Proof.
  exact (gemini_result_is_decoded_locally Studio.with_project Studio.services
           (init "g-key") "/tmp/tmpuser.jpeg" "/tmp/tmpcatalog.jpeg" None
           "data:image/png;base64,iVBORw0KGgo="
           ltac:(vm_compute; reflexivity)).
Defined.

Lemma contains_prefix (s p : string) :
  startswith s p = true → contains p s = true.
Proof. unfold startswith. intros H. destruct s; cbn [contains]; by rewrite H. Qed.

Lemma contains_later (p s : string) c :
  contains p s = true → contains p (String c s) = true.
Proof. intros H. cbn [contains]. rewrite H. apply orb_true_r. Qed.

Lemma prefix_append (p rest : string) : String.prefix p (p +:+ rest) = true.
Proof.
  induction p as [|c p IH]; [by destruct rest|].
  simpl. destruct (ascii_dec c c); [apply IH|done].
Qed.

Lemma contains_append (before p rest : string) :
  contains p (before +:+ p +:+ rest) = true.
Proof.
  induction before as [|c before IH].
  - apply contains_prefix. exact (prefix_append p rest).
  - by apply contains_later.
Qed.

Lemma reraise_failed_to (rest : string) :
  reraise_with_context (exception ("Failed to " +:+ rest))
  = exception ("Failed to " +:+ rest).
Proof.
  unfold reraise_with_context. cbn [message exception].
  by rewrite (contains_prefix _ "Failed to")
    by exact (prefix_append "Failed to" (" " +:+ rest)).
Qed.

(** X27.  When the user image cannot be obtained, the Gemini
    provider's [generate_image] raises ["Failed to download user image
    from <url>: <cause>"] as it is: the outer handler adds no prefix, and
    nothing after the download is tried. *)
Theorem download_failure_surfaces_unchanged (env : gmap string string)
    (S : Services) (self : GeminiProvider)
    (user_img_url catalog_img_url : string) (prompt : option string)
    (e : failure) :
  _download_image S user_img_url = inl e →
  generate_image env S self user_img_url catalog_img_url prompt
  = inl (exception ("Failed to download user image from " +:+ user_img_url
                      +:+ ": " +:+ message e)).
Proof.
  intros H. unfold generate_image. rewrite H.
  apply (f_equal inl).
  apply (reraise_failed_to
           ("download user image from " +:+ user_img_url +:+ ": "
              +:+ message e)).
Qed.

Lemma download_failure_surfaces_unchanged_witness :
  generate_image ∅ Studio.services (init "g-key")
    "https://cdn.example/user.jpg" "/tmp/tmpcatalog.jpeg" None
  = inl (exception
           ("Failed to download user image from "
              +:+ "https://cdn.example/user.jpg" +:+ ": "
              +:+ "Network error downloading image from https://cdn.example/user.jpg: Cannot connect to host")).
Proof.
  exact (download_failure_surfaces_unchanged ∅ Studio.services (init "g-key")
           "https://cdn.example/user.jpg" "/tmp/tmpcatalog.jpeg" None
           (exception
              "Network error downloading image from https://cdn.example/user.jpg: Cannot connect to host")
           ltac:(vm_compute; reflexivity)).
Defined.

(** X28.  Every exception of [_download_image] is a plain [Exception]
    whose message holds the URL or path it was given: the class of the
    library's exception never leaves it. *)
Theorem download_failures_name_the_source (S : Services)
    (url_or_path : string) (e : failure) :
  _download_image S url_or_path = inl e →
  kind e = OtherException ∧ type_name e = "Exception"
  ∧ contains url_or_path (message e) = true.
Proof.
  unfold _download_image.
  assert (Hend : ∀ before : string,
            contains url_or_path (before +:+ url_or_path) = true).
  { intros before.
    induction before as [|c before IH]; [|by apply contains_later].
    apply contains_prefix. unfold startswith. simpl.
    induction url_or_path as [|c u IH]; [done|].
    simpl. by destruct (ascii_dec c c). }
  destruct (_ && _).
  - destruct (open_read S url_or_path); [|done]. intros [= <-].
    repeat split. apply contains_append.
  - match goal with
    | |- context [match ?a with inl _ => _ | inr _ => _ end] =>
        destruct a as [f|data]; [|done]
    end.
    destruct (kind f); intros [= <-]; repeat split;
      (apply contains_append || apply Hend).
Qed.

Lemma download_failures_name_the_source_witness :
  contains "https://cdn.example/user.jpg"
    "Network error downloading image from https://cdn.example/user.jpg: Cannot connect to host"
  = true.
Proof.
  exact (proj2 (proj2 (download_failures_name_the_source Studio.services
                         "https://cdn.example/user.jpg"
                         (exception
                            "Network error downloading image from https://cdn.example/user.jpg: Cannot connect to host")
                         ltac:(vm_compute; reflexivity)))).
Defined.

(** X29.  A request that reaches generation with the Gemini provider
    configured and no [GOOGLE_PROJECT_ID] ends with a 500 after one
    provider call; no file is written and one error record is. *)
Theorem gemini_without_project_ends_in_500 (W : World) (form : Generate.Form)
    (imgs : bytes * bytes) (s1 : State) (S : Services) (k u c : string) :
  Generate.before_generate form (Generate.started W) (Generate.provider_name W)
    W (ticked initial) = (Ok imgs, s1) →
  stage_inputs W = inr (u, c) →
  Generate.resolved W = Ok (AiProvider.GeminiProvider k) →
  gemini_generate W = generate_image (environ W) S (init k) u c None →
  environ W !! "GOOGLE_PROJECT_ID" = None
  ∨ environ W !! "GOOGLE_PROJECT_ID" = Some "" →
  let out := Generate.create_image form W initial in
  (∃ detail, out.1 = Raise (HTTPException 500 detail))
  ∧ generations out.2 = 1%nat
  ∧ media out.2 = ∅
  ∧ ∃ failed_at detail,
      audit out.2
      = [Generate.error_record form (Generate.started W)
           (Generate.provider_name W) failed_at detail].
Proof.
  intros Hpre Hstage Hres Hgem Hunset out.
  destruct (before_generate_ok _ _ _ _ _ _ _ Hpre) as [Ha Hg].
  pose proof (before_generate_frame form (Generate.started W)
                (Generate.provider_name W) W (ticked initial)) as Hf.
  cbn zeta in Hf. rewrite Hpre in Hf. destruct Hf as (_ & Hm & _).
  cbn [snd audit generations media ticked initial] in Ha, Hg, Hm.
  assert (Hfail : ∃ f, Generate.produced W (AiProvider.GeminiProvider k) u c
                       = Raise (Raised f)).
  { unfold Generate.produced, AiProvider.generate_image,
      AiProvider.enter_generate. mred. rewrite Hgem.
    destruct (generate_image (environ W) S (init k) u c None) as [f|r] eqn:E;
      [by exists f|].
    apply generate_image_needs_project in E as (pid & Hp & Hne).
    destruct Hunset as [Hu|Hu]; rewrite Hu in Hp; [done|].
    by injection Hp as <-. }
  destruct Hfail as [f Hfail].
  pose proof (step3_cases form (Generate.started W) (Generate.provider_name W)
                imgs.1 imgs.2 W s1) as H3.
  rewrite Hstage, Hres, Hfail in H3. unfold Generate.generation_failure in H3.
  unfold out.
  rewrite (create_image_fails_at_generate _ _ _ _ _ _ Hpre H3),
    outer_handler_cases.
  cbn [fst snd audit generations media logged ticked generated].
  rewrite Ha, Hg, Hm. eauto 10.
Qed.

Lemma gemini_without_project_ends_in_500_witness :
  (∃ detail,
     (Generate.create_image Scenario.form Studio.world initial).1
     = Raise (HTTPException 500 detail))
  ∧ generations (Generate.create_image Scenario.form Studio.world initial).2
    = 1%nat.
Proof.
  destruct (gemini_without_project_ends_in_500 Studio.world Scenario.form
              (Scenario.png, Scenario.png)
              (Generate.before_generate Scenario.form
                 (Generate.started Studio.world)
                 (Generate.provider_name Studio.world) Studio.world
                 (ticked initial)).2
              Studio.services "g-key"
              "/tmp/tmpuser.jpeg" "/tmp/tmpcatalog.jpeg"
              ltac:(vm_compute; reflexivity) ltac:(reflexivity)
              ltac:(vm_compute; reflexivity) ltac:(reflexivity)
              ltac:(left; vm_compute; reflexivity))
    as (Ho & Hg & _).
  split; [exact Ho|exact Hg].
Defined.

End GeminiFacts.
